(** * Tracklet reconstruction: a shallow embedding of
      [h5flow_modules/combined/tracklet_reco.py]

    The development follows the three parts of [TrackletReconstruction]:
    the cluster finder ([find_tracks]), the track geometry calculator
    ([calc_tracks] and its helpers) and the identifier assignment done in [run].

    Modelling conventions.
    - A one-dimensional numpy array is a [list]; a batch (two-dimensional
      array) is a list of rows.  A masked array is its data together with a
      mask of the same shape ([true] = masked, as in [numpy.ma]).
    - [f8] values are idealised as real numbers ([R]); [i8] values are [Z];
      the [u4] identifier is a [Z] reduced modulo [2^32].
    - The scikit-learn and scikit-image routines ([DBSCAN.fit], [PCA.fit],
      [ransac]) and the [resources] tables are not part of the module: they
      are parameters of the sections below.
    - The [while True] loop of [find_tracks] takes a fuel argument; running
      out of fuel is the outcome [OutOfFuel]. *)

From Stdlib Require Import List ZArith Bool Arith Lia.
From Stdlib Require Import Reals Lra.
Import ListNotations.

Set Implicit Arguments.

(** ** Outcomes of a computation that may raise or run forever *)

Inductive exn : Type :=
| ValueError      (* numpy: shapes of an indexed assignment do not agree *)
| IndexError      (* numpy: index out of bounds *)
| ZeroDivisionError
| LibraryError.   (* an exception raised inside scikit-learn / scikit-image *)

Inductive outcome (A : Type) : Type :=
| Ret (a : A)
| Raise (e : exn)
| OutOfFuel.

Arguments Raise {A} e.
Arguments OutOfFuel {A}.

Definition bind {A B : Type} (m : outcome A) (k : A -> outcome B) : outcome B :=
  match m with
  | Ret a => k a
  | Raise e => Raise e
  | OutOfFuel => OutOfFuel
  end.

Notation "x <- m ;; k" := (bind m (fun x => k))
  (at level 61, m at next level, right associativity).

Fixpoint mapM {A B : Type} (f : A -> outcome B) (l : list A)
  : outcome (list B) :=
  match l with
  | [] => Ret []
  | a :: l' => b <- f a ;; bs <- mapM f l' ;; Ret (b :: bs)
  end.

(** ** The numpy operations used by the module *)

Module Np.

(** [xs[mask]] *)
Fixpoint select {A : Type} (xs : list A) (mask : list bool) : list A :=
  match xs, mask with
  | x :: xs', b :: mask' =>
      if b then x :: select xs' mask' else select xs' mask'
  | _, _ => []
  end.

(** [base[mask] = vals] for an array [vals]: the values are consumed in
    order at the [True] positions; numpy raises [ValueError] unless there
    are exactly as many values as [True] positions (broadcasting of a
    one-element [vals] is not modelled: the library routines return one
    value per point). *)
Fixpoint assign_masked {A : Type} (base : list A) (mask : list bool)
         (vals : list A) : option (list A) :=
  match base, mask with
  | [], [] => match vals with [] => Some [] | _ :: _ => None end
  | x :: base', b :: mask' =>
      if b then
        match vals with
        | [] => None
        | v :: vals' => option_map (cons v) (assign_masked base' mask' vals')
        end
      else option_map (cons x) (assign_masked base' mask' vals)
  | _, _ => None
  end.

(** [base[mask] = v] for a scalar [v] *)
Fixpoint fill_masked {A : Type} (base : list A) (mask : list bool) (v : A)
  : list A :=
  match base, mask with
  | x :: base', b :: mask' => (if b then v else x) :: fill_masked base' mask' v
  | _, _ => base
  end.

(** [np.sum(mask)] / [np.count_nonzero(mask)] *)
Fixpoint count_nonzero (mask : list bool) : nat :=
  match mask with
  | [] => 0
  | b :: mask' => (if b then 1 else 0) + count_nonzero mask'
  end.

(** [np.any(mask)] and [np.all(mask)] *)
Definition any (mask : list bool) : bool := existsb (fun b => b) mask.
Definition all (mask : list bool) : bool := forallb (fun b => b) mask.

(** [np.unique]: the sorted distinct values *)
Fixpoint insert_sorted (x : Z) (l : list Z) : list Z :=
  match l with
  | [] => [x]
  | y :: l' =>
      if (x <? y)%Z then x :: l
      else if (x =? y)%Z then l
      else y :: insert_sorted x l'
  end.

Definition unique (l : list Z) : list Z :=
  fold_right insert_sorted [] l.

(** [arr == v] *)
Definition eq_scalar (arr : list Z) (v : Z) : list bool :=
  map (fun x => (x =? v)%Z) arr.

End Np.

(** ** Cluster finder: the per-event loop of [find_tracks] *)

(** What happened to a cluster label in the [for id_ in np.unique(...)] loop
    (a ghost trace, kept to state properties of the run). *)
Inductive action : Type :=
| SkippedSmall (id_ : Z)                       (* size <= ransac_min_samples *)
| FitRejected (id_ : Z) (cluster : list bool)  (* fewer than 2 inliers *)
| FitAccepted (id_ : Z) (inl : list bool) (tid : Z).

Definition fitted_id (a : action) : option Z :=
  match a with
  | SkippedSmall _ => None
  | FitRejected i _ => Some i
  | FitAccepted i _ _ => Some i
  end.

Definition accepted_tid (a : action) : option Z :=
  match a with FitAccepted _ _ t => Some t | _ => None end.

Fixpoint filter_map {A B : Type} (f : A -> option B) (l : list A) : list B :=
  match l with
  | [] => []
  | a :: l' =>
      match f a with
      | Some b => b :: filter_map f l'
      | None => filter_map f l'
      end
  end.

(** The variables of one event while [find_tracks] works on it:
    row [i] of [track_id] and of [iter_mask], [current_track_id], the number
    of calls made to [ransac] so far (the position in its random stream) and
    the ghost trace. *)
Record state : Type := mkState {
  track_id : list Z;
  iter_mask : list bool;
  current_track_id : Z;
  n_ransac : nat;
  log : list action
}.

Section ClusterFinder.

Variable point : Type.

(** [self.dbscan.fit(pts).labels_]; [None] when the library raises. *)
Variable dbscan_fit : list point -> option (list Z).

(** The inlier flags returned by [skimage.measure.ransac]; the first
    argument is the number of earlier calls, standing for the state of the
    random generator; [None] when the library raises. *)
Variable ransac : nat -> list point -> option (list bool).

Variable ransac_min_samples : Z.

Definition _do_dbscan (xyz : list point) (mask : list bool)
  : outcome (list Z) :=
  match dbscan_fit (Np.select xyz mask) with
  | None => Raise LibraryError
  | Some labels_ =>
      match Np.assign_masked (repeat (-1)%Z (length mask)) mask labels_ with
      | None => Raise ValueError
      | Some track_ids => Ret track_ids
      end
  end.

Definition _do_ransac (n : nat) (xyz : list point) (mask : list bool)
  : outcome (list bool) :=
  match ransac n (Np.select xyz mask) with
  | None => Raise LibraryError
  | Some inliers => Ret inliers
  end.

Definition add_log (st : state) (a : action) : state :=
  mkState (track_id st) (iter_mask st) (current_track_id st) (n_ransac st)
          (log st ++ [a]).

(** Lines 139-144: what is done with the inlier mask of a fitted cluster. *)
Definition after_fit (st : state) (id_ : Z) (cluster mask : list bool)
  : state :=
  if (Np.count_nonzero mask <? 2)%nat then
    mkState (track_id st) (iter_mask st) (current_track_id st)
            (S (n_ransac st)) (log st ++ [FitRejected id_ cluster])
  else
    let tid := (current_track_id st + 1)%Z in
    mkState (Np.fill_masked (track_id st) mask tid)
            (Np.fill_masked (iter_mask st) mask false)
            tid
            (S (n_ransac st))
            (log st ++ [FitAccepted id_ mask tid]).

(** The body of [for id_ in np.unique(track_ids)] (lines 129-144). *)
Definition cluster_step (xyz : list point) (track_ids : list Z)
           (st : state) (id_ : Z) : outcome state :=
  if (id_ =? -1)%Z then Ret st
  else
    let mask := Np.eq_scalar track_ids id_ in
    if (Z.of_nat (Np.count_nonzero mask) <=? ransac_min_samples)%Z
    then Ret (add_log st (SkippedSmall id_))
    else
      inliers <- _do_ransac (n_ransac st) xyz mask ;;
      match Np.assign_masked mask mask inliers with
      | None => Raise ValueError
      | Some mask' => Ret (after_fit st id_ mask mask')
      end.

Fixpoint for_clusters (xyz : list point) (track_ids : list Z)
         (ids : list Z) (st : state) : outcome state :=
  match ids with
  | [] => Ret st
  | id_ :: ids' =>
      st' <- cluster_step xyz track_ids st id_ ;;
      for_clusters xyz track_ids ids' st'
  end.

(** The exit test of line 146. *)
Definition loop_done (track_ids : list Z) (st : state) : bool :=
  Np.all (Np.eq_scalar track_ids (-1)) || negb (Np.any (iter_mask st)).

(** One pass through the body of [while True] (lines 125-147): the new
    state and whether the loop breaks. *)
Definition round (xyz : list point) (st : state) : outcome (state * bool) :=
  track_ids <- _do_dbscan xyz (iter_mask st) ;;
  st' <- for_clusters xyz track_ids (Np.unique track_ids) st ;;
  Ret (st', loop_done track_ids st').

Fixpoint while_true (fuel : nat) (xyz : list point) (st : state)
  : outcome state :=
  match fuel with
  | O => OutOfFuel
  | S fuel' =>
      r <- round xyz st ;;
      if snd r then Ret (fst r) else while_true fuel' xyz (fst r)
  end.

(** The state in which event [i] is entered (lines 118-123); [valid] is
    [~hits['id'].mask] for its row and [n] the calls to [ransac] made for
    earlier events. *)
Definition init_state (valid : list bool) (n : nat) : state :=
  mkState (repeat (-1)%Z (length valid)) valid (-1)%Z n [].

Definition find_tracks_event (fuel : nat) (xyz : list point)
           (valid : list bool) (n : nat) : outcome state :=
  while_true fuel xyz (init_state valid n).

(** The [for i in range(hits.shape[0])] loop over a batch given as rows of
    positions and validity flags; returns the rows of [track_id]. *)
Fixpoint find_tracks_rows (fuel : nat) (rows : list (list point * list bool))
         (n : nat) : outcome (list (list Z)) :=
  match rows with
  | [] => Ret []
  | (xyz, valid) :: rows' =>
      st <- find_tracks_event fuel xyz valid n ;;
      rest <- find_tracks_rows fuel rows' (n_ransac st) ;;
      Ret (track_id st :: rest)
  end.

End ClusterFinder.

(** ** Track geometry: vectors, hits and tracklets *)

Definition vec3 : Type := (R * R * R)%type.

Definition vx (v : vec3) : R := fst (fst v).
Definition vy (v : vec3) : R := snd (fst v).
Definition vz (v : vec3) : R := snd v.

Definition vadd (a b : vec3) : vec3 :=
  (vx a + vx b, vy a + vy b, vz a + vz b)%R.
Definition vsub (a b : vec3) : vec3 :=
  (vx a - vx b, vy a - vy b, vz a - vz b)%R.
Definition vscale (a : vec3) (s : R) : vec3 :=
  (vx a * s, vy a * s, vz a * s)%R.
Definition vdiv (a : vec3) (s : R) : vec3 :=
  (vx a / s, vy a / s, vz a / s)%R.
Definition vabs (a : vec3) : vec3 := (Rabs (vx a), Rabs (vy a), Rabs (vz a)).
Definition vmin (a b : vec3) : vec3 :=
  (Rmin (vx a) (vx b), Rmin (vy a) (vy b), Rmin (vz a) (vz b)).
Definition vmax (a b : vec3) : vec3 :=
  (Rmax (vx a) (vx b), Rmax (vy a) (vy b), Rmax (vz a) (vz b)).

(** [np.dot] and [np.linalg.norm] on 3-vectors *)
Definition dot (a b : vec3) : R := (vx a * vx b + vy a * vy b + vz a * vz b)%R.
Definition norm (a : vec3) : R := sqrt (dot a a).

(** [np.clip(a, lo, hi)], i.e. [minimum(hi, maximum(a, lo))] componentwise *)
Definition clip (a lo hi : vec3) : vec3 := vmin hi (vmax a lo).

(** Reductions of a non-empty array; numpy raises on an empty one, which the
    callers below never pass (a slot is computed from at least two hits). *)
Definition fold1 {A : Type} (op : A -> A -> A) (dflt : A) (l : list A) : A :=
  match l with
  | [] => dflt
  | x :: l' => fold_left op l' x
  end.

Definition vzero : vec3 := (0, 0, 0)%R.
Definition amin (xyz : list vec3) : vec3 := fold1 vmin vzero xyz.
Definition amax (xyz : list vec3) : vec3 := fold1 vmax vzero xyz.
Definition Rlist_min (l : list R) : R := fold1 Rmin 0%R l.
Definition Rlist_max (l : list R) : R := fold1 Rmax 0%R l.
Definition Zlist_min (l : list Z) : Z := fold1 Z.min 0%Z l.
Definition Zlist_max (l : list Z) : Z := fold1 Z.max 0%Z l.
Definition Rsum (l : list R) : R := fold_left Rplus l 0%R.
Definition vsum (l : list vec3) : vec3 := fold_left vadd l vzero.

(** [np.mean(xyz, axis=0)] *)
Definition vmean (xyz : list vec3) : vec3 := vdiv (vsum xyz) (INR (length xyz)).

(** One entry of the [hits] array: the mask of its ['id'] field and the
    fields the module reads. *)
Record hit : Type := mkHit {
  hit_masked : bool;
  hit_px : R;
  hit_py : R;
  hit_ts : Z;
  hit_q : R;
  hit_iogroup : Z;
  hit_iochannel : Z
}.

(** One entry of the [t0] array (field ['ts']). *)
Record t0_entry : Type := mkT0 { t0_ts : R }.

(** A start or end 4-vector: [np.append(r, t)], kept as the position [r]
    (its first three components) and the time [t]. *)
Definition vec4 : Type := (vec3 * R)%type.
Definition spatial (v : vec4) : vec3 := fst v.

(** [tracklet_dtype] *)
Record tracklet : Type := mkTracklet {
  t_id : Z;
  t_theta : R;
  t_phi : R;
  t_xp : R;
  t_yp : R;
  t_nhit : Z;
  t_q : R;
  t_ts_start : Z;
  t_ts_end : Z;
  t_residual : vec3;
  t_length : R;
  t_start : vec4;
  t_end : vec4
}.

(** A masked array of track ids, shape [(N, M)]. *)
Record masked_ids : Type := mkMasked {
  ma_data : list (list Z);
  ma_mask : list (list bool)
}.

(** The masked table of tracklets, shape [(N, n_tracks)]: [None] is a masked
    slot (its [np.empty] contents are never written). *)
Definition slot : Type := option tracklet.
Definition table : Type := list (list slot).

(** A division that is defined only for a non-zero divisor. *)
Definition checked_div (a b : R) : option R :=
  if Req_dec_T b 0%R then None else Some (a / b)%R.

(** [xyp] (lines 246-250); [axis[-1]] and [centroid[-1]] are the z
    components, [[:2]] keeps x and y. *)
Definition xyp (axis centroid : vec3) : option (R * R) :=
  if Req_dec_T (vz axis) 0%R then Some (vx centroid, vy centroid)
  else
    match checked_div (- vz centroid)%R (vz axis) with
    | None => None
    | Some s =>
        let p := vadd centroid (vscale axis s) in
        Some (vx p, vy p)
    end.

(** [_projected_limits] (lines 228-233) *)
Definition _projected_limits (centroid axis : vec3) (xyz : list vec3)
  : vec3 * vec3 :=
  let s := map (fun p => dot (vsub p centroid) axis) xyz in
  let xyz_min := amin xyz in
  let xyz_max := amax xyz in
  let r_max := clip (vadd centroid (vscale axis (Rlist_max s))) xyz_min xyz_max in
  let r_min := clip (vadd centroid (vscale axis (Rlist_min s))) xyz_min xyz_max in
  (r_min, r_max).

(** [_track_residual] (lines 235-238) *)
Definition _track_residual (centroid axis : vec3) (xyz : list vec3) : vec3 :=
  let res :=
    map (fun p =>
           let s := dot (vsub p centroid) axis in
           vabs (vsub p (vadd centroid (vscale axis s)))) xyz in
  vmean res.

Definition mask_and (a b : list bool) : list bool :=
  map (fun p => fst p && snd p) (combine a b).

Definition u4_modulus : Z := 4294967296.

(** [astype('u4')] *)
Definition as_u4 (x : Z) : Z := (x mod u4_modulus)%Z.

(** [np.r_[slice(start, stop)]], i.e. [arange(start, stop)] *)
Definition arange (start stop : Z) : list Z :=
  map (fun k => (start + Z.of_nat k)%Z) (seq 0 (Z.to_nat (stop - start))).

Section TrackGeometry.

(** [resources['LArData'].v_drift], [resources['RunData'].crs_ticks] and
    [resources['Geometry'].get_z_coordinate] *)
Variables v_drift crs_ticks : R.
Variable get_z_coordinate : Z -> Z -> R -> R.

(** [self.pca.fit(pts).components_[0]] *)
Variable pca_component : list vec3 -> vec3.

Variable arctan2 : R -> R -> R.

Variable dbscan_fit : list vec3 -> option (list Z).
Variable ransac : nat -> list vec3 -> option (list bool).
Variable ransac_min_samples : Z.

(** [_hit_xyz] for one hit and the [t0] of its event (lines 94-103) *)
Definition hit_xyz (t0 : t0_entry) (h : hit) : vec3 :=
  let drift_t := (IZR (hit_ts h) - t0_ts t0)%R in
  let drift_d := (drift_t * (v_drift * crs_ticks))%R in
  let z := get_z_coordinate (hit_iogroup h) (hit_iochannel h) drift_d in
  (hit_px h, hit_py h, z).

(** [_hit_xyz]: [t0] of shape [(N, 1)] is broadcast along each row. *)
Definition _hit_xyz (hits : list (list hit)) (t0 : list t0_entry)
  : list (list vec3) :=
  map (fun p => map (hit_xyz (snd p)) (fst p)) (combine hits t0).

(** [find_tracks] (lines 106-149) *)
Definition find_tracks (fuel : nat) (hits : list (list hit))
           (t0 : list t0_entry) : outcome masked_ids :=
  let xyz := _hit_xyz hits t0 in
  let valid := map (map (fun h => negb (hit_masked h))) hits in
  rows <- find_tracks_rows dbscan_fit ransac ransac_min_samples fuel
                           (combine xyz valid) 0 ;;
  Ret (mkMasked rows (map (map hit_masked) hits)).

(** [_do_pca] (lines 215-226) *)
Definition _do_pca (xyz : list vec3) (mask : list bool) : vec3 * vec3 :=
  let pts := Np.select xyz mask in
  let centroid := vmean pts in
  let c := pca_component (map (fun p => vsub p centroid) pts) in
  let axis := vdiv c (norm c) in
  (centroid, axis).

Definition theta (axis : vec3) : R :=
  arctan2 (sqrt (vx axis * vx axis + vy axis * vy axis)) (vz axis).

Definition phi (axis : vec3) : R := arctan2 (vy axis) (vx axis).

(** The body of the inner loop of [calc_tracks] once the slot has at least
    two hits (lines 165-182).  [id0] is what [np.empty] left in ['id']. *)
Definition calc_slot (id0 : Z) (hits_i : list hit) (xyz_i : list vec3)
           (t0_i : t0_entry) (mask : list bool) : outcome tracklet :=
  let '(centroid, axis) := _do_pca xyz_i mask in
  let pts := Np.select xyz_i mask in
  let '(r_min, r_max) := _projected_limits centroid axis pts in
  let residual := _track_residual centroid axis pts in
  match xyp axis centroid with
  | None => Raise ZeroDivisionError
  | Some p =>
      let members := Np.select hits_i mask in
      let ts_start := Zlist_min (map hit_ts members) in
      let ts_end := Zlist_max (map hit_ts members) in
      Ret (mkTracklet id0
             (theta axis) (phi axis)
             (fst p) (snd p)
             (Z.of_nat (Np.count_nonzero mask))
             (Rsum (map hit_q members))
             ts_start ts_end
             residual
             (norm (vsub r_max r_min))
             (r_min, (IZR ts_start - t0_ts t0_i)%R)
             (r_min, (IZR ts_end - t0_ts t0_i)%R))
  end.

(** [track_ids.max()] over the unmasked entries, and
    [np.count_nonzero(~track_ids.mask)] *)
Definition unmasked (a : masked_ids) : list Z :=
  concat (map (fun p => Np.select (fst p) (map negb (snd p)))
              (combine (ma_data a) (ma_mask a))).

Definition ma_max (a : masked_ids) : Z := Zlist_max (unmasked a).

Definition count_unmasked (a : masked_ids) : nat :=
  Np.count_nonzero (map negb (concat (ma_mask a))).

(** Lines 154-155 *)
Definition n_tracks_of (track_ids : masked_ids) : Z :=
  if (count_unmasked track_ids =? 0)%nat then 1%Z
  else (ma_max track_ids + 1)%Z.

(** The mask of slot [j] in an event (line 160) *)
Definition slot_mask (ids : list Z) (msk : list bool) (j : nat) : list bool :=
  mask_and (Np.eq_scalar ids (Z.of_nat j)) (map negb msk).

(** One iteration of [for j in range(tracks.shape[1])] (lines 160-184) *)
Definition calc_slot_opt (id0 : Z) (hits_i : list hit) (xyz_i : list vec3)
           (t0_i : t0_entry) (ids : list Z) (msk : list bool) (j : nat)
  : outcome slot :=
  let mask := slot_mask ids msk j in
  if (Np.count_nonzero mask <? 2)%nat then Ret None
  else t <- calc_slot id0 hits_i xyz_i t0_i mask ;; Ret (Some t).

(** Row [i] of every array of a batch: [hits[i]], [xyz[i]], [t0[i]],
    [track_ids[i]] and [track_ids.mask[i]] (the arrays of a batch share
    their first dimension). *)
Definition batch_rows (hits : list (list hit)) (t0 : list t0_entry)
           (track_ids : masked_ids)
  : list (list hit * list vec3 * t0_entry * list Z * list bool) :=
  combine (combine (combine (combine hits (_hit_xyz hits t0)) t0)
                   (ma_data track_ids)) (ma_mask track_ids).

(** Row [i] of the table: [for j in range(tracks.shape[1])]. *)
Definition calc_row (empty_id : nat -> nat -> Z) (n_tracks : nat)
           (ir : nat * (list hit * list vec3 * t0_entry * list Z * list bool))
  : outcome (list slot) :=
  match ir with
  | (i, (h, x, t, d, m)) =>
      mapM (fun j => calc_slot_opt (empty_id i j) h x t d m j)
           (seq 0 n_tracks)
  end.

(** [calc_tracks] (lines 151-186).  [empty_id i j] is the uninitialised
    ['id'] of slot [(i, j)]; a negative [n_tracks] makes [np.empty] raise. *)
Definition calc_tracks (empty_id : nat -> nat -> Z) (hits : list (list hit))
           (t0 : list t0_entry) (track_ids : masked_ids) : outcome table :=
  let n_tracks := n_tracks_of track_ids in
  if (n_tracks <? 0)%Z then Raise ValueError
  else
    mapM (calc_row empty_id (Z.to_nat n_tracks))
         (combine (seq 0 (length t0)) (batch_rows hits t0 track_ids)).

End TrackGeometry.

(** ** Track emitter: the identifier assignment and references of [run] *)

Definition is_valid (s : slot) : bool :=
  match s with Some _ => true | None => false end.

(** [~tracks['id'].mask] *)
Definition tracks_mask (tracks : table) : list (list bool) :=
  map (map is_valid) tracks.

Definition set_id (t : tracklet) (i : Z) : tracklet :=
  mkTracklet i (t_theta t) (t_phi t) (t_xp t) (t_yp t) (t_nhit t) (t_q t)
             (t_ts_start t) (t_ts_end t) (t_residual t) (t_length t)
             (t_start t) (t_end t).

(** [np.place(tracks['id'], tracks_mask, vals)] on one row: the valid slots
    take, in order, the values [vals[k]], [vals[k+1]], ... ([vals] is
    repeated when it is too short); returns the next position in [vals]. *)
Fixpoint place_row (vals : list Z) (k : nat) (row : list slot)
  : list slot * nat :=
  match row with
  | [] => ([], k)
  | None :: row' =>
      let (r, k') := place_row vals k row' in (None :: r, k')
  | Some t :: row' =>
      let (r, k') := place_row vals (S k) row' in
      (Some (set_id t (nth (k mod length vals) vals 0%Z)) :: r, k')
  end.

Fixpoint place_rows (vals : list Z) (k : nat) (tracks : table) : table :=
  match tracks with
  | [] => []
  | row :: rest =>
      let (r, k') := place_row vals k row in r :: place_rows vals k' rest
  end.

(** [np.place]: row-major over the table; raises when there is a slot to
    fill and no value. *)
Definition np_place (tracks : table) (vals : list Z) : outcome table :=
  match vals with
  | [] =>
      if Np.any (concat (tracks_mask tracks)) then Raise ValueError
      else Ret tracks
  | _ :: _ => Ret (place_rows vals 0 tracks)
  end.

(** [tracks[tracks_mask]]: the valid slots in row-major order *)
Definition valid_tracks (tracks : table) : list tracklet :=
  filter_map (fun s => s) (concat tracks).

(** Python indexing [row[k]] with a possibly negative index *)
Definition py_index {A : Type} (row : list A) (k : Z) : outcome A :=
  let n := Z.of_nat (length row) in
  let k' := if (k <? 0)%Z then (k + n)%Z else k in
  if (k' <? 0)%Z then Raise IndexError
  else
    match nth_error row (Z.to_nat k') with
    | Some a => Ret a
    | None => Raise IndexError
    end.

(** [np.take_along_axis(tracks['id'], track_ids, axis=-1)] on one row *)
Fixpoint take_along_row (row : list slot) (ids : list Z)
  : outcome (list slot) :=
  match ids with
  | [] => Ret []
  | k :: ids' =>
      s <- py_index row k ;;
      rest <- take_along_row row ids' ;;
      Ret (s :: rest)
  end.

Fixpoint take_along_axis (tracks : table) (ids : list (list Z))
  : outcome table :=
  match tracks, ids with
  | row :: tracks', r :: ids' =>
      a <- take_along_row row r ;;
      rest <- take_along_axis tracks' ids' ;;
      Ret (a :: rest)
  | _, _ => Ret []
  end.

(** The pairs [(track id, hit index)] of one event (lines 84-85).
    [track_ids != -1] compares a masked array: numpy.ma leaves the result
    masked where [track_ids] is and sets its data to [True] there (an entry
    masked on one side only counts as unequal).  [&] works on the data, and
    so does the boolean index of line 85: a masked hit is kept when the slot
    that [take_along_axis] read for it is valid (its label being -1 in what
    [find_tracks] returns, that is the last slot of its event). *)
Fixpoint hit_refs (ref_id : list slot) (ids : list Z) (msk : list bool)
         (hit_idx : list Z) : list (Z * Z) :=
  match ref_id, ids, msk, hit_idx with
  | s :: ref_id', k :: ids', m :: msk', h :: hit_idx' =>
      match s with
      | Some t =>
          if m || negb (k =? -1)%Z
          then (t_id t, h) :: hit_refs ref_id' ids' msk' hit_idx'
          else hit_refs ref_id' ids' msk' hit_idx'
      | None => hit_refs ref_id' ids' msk' hit_idx'
      end
  | _, _, _, _ => []
  end.

Fixpoint all_hit_refs (ref_id : table) (ids : list (list Z))
         (msk : list (list bool)) (hit_idx : list (list Z)) : list (Z * Z) :=
  match ref_id, ids, msk, hit_idx with
  | r :: ref_id', k :: ids', m :: msk', h :: hit_idx' =>
      hit_refs r k m h ++ all_hit_refs ref_id' ids' msk' hit_idx'
  | _, _, _, _ => []
  end.

(** [np.broadcast_to(np.expand_dims(col, axis=-1), (n_rows, n_cols))], as the
    value of each row: a column of [n_rows] entries is kept, a column of one
    entry is repeated for every row, any other length is refused.  (The
    second dimension, of length 1, stretches to every [n_cols].) *)
Definition broadcast_to (col : list Z) (n_rows : nat) : outcome (list Z) :=
  if (length col =? n_rows)%nat then Ret col
  else
    match col with
    | [e] => Ret (repeat e n_rows)
    | _ => Raise ValueError
    end.

(** The pairs [(event index, track id)] (lines 89-90): the indices of
    [source_slice], broadcast to the shape of the table, and the ids, both
    taken at the valid slots in row-major order. *)
Definition event_refs (source_slice : Z * Z) (tracks : table)
  : outcome (list (Z * Z)) :=
  ev_id <- broadcast_to (arange (fst source_slice) (snd source_slice))
                            (length tracks) ;;
  Ret (concat (map (fun p => map (fun t => (fst p, t_id t))
                                 (filter_map (fun s => s) (snd p)))
                   (combine ev_id tracks))).

(** What [run] hands to the data manager: the rows written to the tracklet
    dataset and the two reference tables. *)
Record emitted : Type := mkEmitted {
  em_tracks : list tracklet;
  em_track_hit : list (Z * Z);
  em_event_track : list (Z * Z)
}.

(** Lines 75-79 of [run]: [tracks_slice] is the slice returned by
    [reserve_data] for [n_tracks] rows. *)
Definition assign_ids (tracks_slice : Z * Z) (tracks : table) : outcome table :=
  np_place tracks (map as_u4 (arange (fst tracks_slice) (snd tracks_slice))).

Section TrackEmitter.

Variables v_drift crs_ticks : R.
Variable get_z_coordinate : Z -> Z -> R -> R.
Variable pca_component : list vec3 -> vec3.
Variable arctan2 : R -> R -> R.
Variable dbscan_fit : list vec3 -> option (list Z).
Variable ransac : nat -> list vec3 -> option (list bool).
Variable ransac_min_samples : Z.
Variable empty_id : nat -> nat -> Z.

(** [self.data_manager.reserve_data(self.tracklet_dset_name, n)]: the slice
    of the dataset reserved for [n] new rows. *)
Variable reserve_data : nat -> Z * Z.

(** [run] (lines 67-91), from the arrays taken out of the cache. *)
Definition run (fuel : nat) (source_slice : Z * Z) (t0 : list t0_entry)
           (hits : list (list hit)) (hit_idx : list (list Z))
  : outcome emitted :=
  track_ids <- find_tracks v_drift crs_ticks get_z_coordinate dbscan_fit
                           ransac ransac_min_samples fuel hits t0 ;;
  tracks <- calc_tracks v_drift crs_ticks get_z_coordinate pca_component
                        arctan2 empty_id hits t0 track_ids ;;
  let n_tracks := Np.count_nonzero (concat (tracks_mask tracks)) in
  let tracks_slice := reserve_data n_tracks in
  tracks' <- assign_ids tracks_slice tracks ;;
  track_ref_id <- take_along_axis tracks' (ma_data track_ids) ;;
  let ref1 := all_hit_refs track_ref_id (ma_data track_ids)
                           (ma_mask track_ids) hit_idx in
  ref2 <- event_refs source_slice tracks' ;;
  Ret (mkEmitted (valid_tracks tracks') ref1 ref2).

End TrackEmitter.

(** ** A reference model of the library clustering, for concrete runs

    [DBSCAN] of scikit-learn on points with integer coordinates: a point is a
    core point when at least [min_samples] points (itself included) lie within
    distance [eps]; clusters are numbered in the order in which their first
    core point appears, and grow from core points to every still unlabelled
    neighbour.  Distances are compared squared ([eps2] is [eps] squared).
    The library refuses an empty array of points. *)

Module Dbscan.

Definition ipoint : Type := (Z * Z * Z)%type.

Definition dist2 (a b : ipoint) : Z :=
  match a, b with
  | (ax, ay, az), (bx, by_, bz) =>
      ((ax - bx) * (ax - bx) + (ay - by_) * (ay - by_)
       + (az - bz) * (az - bz))%Z
  end.

Section Fit.

Variable eps2 : Z.
Variable min_samples : nat.
Variable pts : list ipoint.

Definition near (p q : ipoint) : bool := (dist2 p q <=? eps2)%Z.

Definition is_core (p : ipoint) : bool :=
  (min_samples <=? length (filter (near p) pts))%nat.

(** One growth step of cluster [c]: an unlabelled point next to a core
    point of [c] joins it. *)
Definition grow (c : Z) (labels : list Z) : list Z :=
  map (fun pl =>
         if (snd pl =? -1)%Z
            && existsb (fun ql => (snd ql =? c)%Z && is_core (fst ql)
                                  && near (fst ql) (fst pl))
                       (combine pts labels)
         then c else snd pl)
      (combine pts labels).

Fixpoint grow_n (n : nat) (c : Z) (labels : list Z) : list Z :=
  match n with
  | O => labels
  | S n' => grow_n n' c (grow c labels)
  end.

Definition set_label (i : nat) (c : Z) (labels : list Z) : list Z :=
  firstn i labels ++ c :: skipn (S i) labels.

Fixpoint scan (order : list nat) (c : Z) (labels : list Z) : list Z :=
  match order with
  | [] => labels
  | i :: order' =>
      match nth_error pts i, nth_error labels i with
      | Some p, Some l =>
          if (l =? -1)%Z && is_core p
          then scan order' (c + 1)%Z
                    (grow_n (length pts) c (set_label i c labels))
          else scan order' c labels
      | _, _ => labels
      end
  end.

Definition fit : option (list Z) :=
  match pts with
  | [] => None
  | _ :: _ =>
      Some (scan (seq 0 (length pts)) 0%Z (repeat (-1)%Z (length pts)))
  end.

End Fit.

End Dbscan.

(** ** Concrete configurations and inputs *)

Module Inputs.

Import Dbscan.

(** A random-sample fit that finds no consensus on its first call and keeps
    every point afterwards. *)
Definition ransac_first_fails (n : nat) (pts : list ipoint)
  : option (list bool) :=
  Some (map (fun _ => negb (n =? 0)%nat) pts).

(** A fit that never finds two inliers. *)
Definition ransac_never (n : nat) (pts : list ipoint) : option (list bool) :=
  Some (map (fun _ => false) pts).

(** A fit that keeps every point. *)
Definition ransac_all (n : nat) (pts : list ipoint) : option (list bool) :=
  Some (map (fun _ => true) pts).

(** A fit that fails at every call, and one that fails on at most two points
    and keeps every point otherwise. *)
Definition ransac_raises (n : nat) (pts : list ipoint) : option (list bool) :=
  None.
Definition ransac_raises_small (n : nat) (pts : list ipoint)
  : option (list bool) :=
  if (length pts <=? 2)%nat then None else Some (map (fun _ => true) pts).

(** [eps = 2.5]: on integer coordinates, distance at most 2.5 is squared
    distance at most 6. *)
Definition eps2_default : Z := 6.

Definition one_hit : list ipoint := [(0, 0, 0)%Z].
Definition two_hits : list ipoint := [(0, 0, 0)%Z; (1, 0, 0)%Z].
Definition three_hits : list ipoint :=
  [(0, 0, 0)%Z; (1, 0, 0)%Z; (2, 0, 0)%Z].
Definition two_groups : list ipoint :=
  [(0, 0, 0)%Z; (1, 0, 0)%Z; (2, 0, 0)%Z;
   (100, 0, 0)%Z; (101, 0, 0)%Z; (102, 0, 0)%Z].
Definition ten_collinear : list ipoint :=
  map (fun k => (Z.of_nat k, 0, 0)%Z) (seq 0 10).
(** A group of two hits and, far from it, a group of three. *)
Definition small_and_big : list ipoint :=
  [(0, 0, 0)%Z; (1, 0, 0)%Z;
   (100, 0, 0)%Z; (101, 0, 0)%Z; (102, 0, 0)%Z].

(** Real-valued input for the geometry: two hits on the z axis. *)
Definition hit_a : hit := mkHit false 0 0 0 1 0 0.
Definition hit_b : hit := mkHit false 0 0 2 1 0 0.
Definition t0_zero : t0_entry := mkT0 0.
Definition pt_a : vec3 := (0, 0, 0)%R.
Definition pt_b : vec3 := (0, 0, 2)%R.
Definition z_is_drift (iogroup iochannel : Z) (d : R) : R := d.
Definition pca_z (pts : list vec3) : vec3 := (0, 0, 1)%R.
Definition no_arctan2 (y x : R) : R := 0%R.
Definition zero_id (i j : nat) : Z := 0%Z.

(** A batch of two events of four hits: the first has two tracks of two
    hits; the second has one track of two hits, one hit alone with label 1
    and a masked hit. *)
Definition masked_hit : hit := mkHit true 0 0 0 0 0 0.

(** A clustering that calls every point noise, and one that puts all
    points in cluster 0. *)
Definition all_noise (pts : list vec3) : option (list Z) :=
  Some (map (fun _ => (-1)%Z) pts).
Definition one_cluster (pts : list vec3) : option (list Z) :=
  Some (map (fun _ => 0%Z) pts).
Definition keep_all (n : nat) (pts : list vec3) : option (list bool) :=
  Some (map (fun _ => true) pts).

Definition reserve_from (start : Z) (n : nat) : Z * Z :=
  (start, (start + Z.of_nat n)%Z).


(** The state in which the event [two_groups] ends when the first fit
    fails. *)
Definition two_groups_end : state :=
  mkState [1; 1; 1; 0; 0; 0]%Z (repeat false 6) 1%Z 3
          [FitRejected 0 [true; true; true; false; false; false];
           FitAccepted 1 [false; false; false; true; true; true] 0;
           FitAccepted 0 [true; true; true; false; false; false] 1].

(** The state after the first round of that event. *)
Definition two_groups_round1 : state :=
  mkState [-1; -1; -1; 0; 0; 0]%Z
          [true; true; true; false; false; false] 0%Z 2
          [FitRejected 0 [true; true; true; false; false; false];
           FitAccepted 1 [false; false; false; true; true; true] 0].

End Inputs.

Import Inputs.

(** ** Raw event generator: [h5flow_modules/charge/raw_event_generator.py]

    The packets of the input file are records with the fields the generator
    reads; the event builder ([raw_event_builder], not part of the module)
    is a parameter.  The exchange of [last_unix_ts] between processes in
    [pass_last_unix_ts] is left out: the model is the generator run by a
    single process ([size < 2]), for which that method returns at once. *)

Module RawEventGenerator.

Record packet : Type := mkPacket {
  packet_type : Z;
  valid_parity : Z;
  timestamp : Z;
  payload : Z
}.

(** A configuration value as Python sees it: an integer or a sequence. *)
Inductive py_value : Type :=
| PyInt (z : Z)
| PySeq (l : list Z).

Inductive py_exn : Type :=
| PyTypeError
| PyIndexError
| PyValueError.

Inductive result (A : Type) : Type :=
| Ok (a : A)
| Err (e : py_exn).

Arguments Err {A} e.

Definition rbind {A B : Type} (m : result A) (k : A -> result B) : result B :=
  match m with
  | Ok a => k a
  | Err e => Err e
  end.

(** [v[i]] for a non-negative index *)
Definition getitem (v : py_value) (i : nat) : result Z :=
  match v with
  | PyInt _ => Err PyTypeError
  | PySeq l =>
      match nth_error l i with
      | Some z => Ok z
      | None => Err PyIndexError
      end
  end.

(** [range(a, b, step)] *)
Definition py_range (a b step : Z) : result (list Z) :=
  if (step =? 0)%Z then Err PyValueError
  else
    let n := if (0 <? step)%Z then ((b - a + step - 1) / step)%Z
             else ((a - b - step - 1) / (- step))%Z in
    Ok (map (fun k => (a + Z.of_nat k * step)%Z) (seq 0 (Z.to_nat n))).

(** [arr[a:b]] for non-negative bounds *)
Definition py_slice {A : Type} (arr : list A) (a b : nat) : list A :=
  firstn (b - a) (skipn a arr).

(** The [slices] computed by [__init__] (lines 83-87): [start_position] and
    [end_position] may be [None]; [n_packets] is [len(self.packets)]. *)
Definition init_slices (start_position end_position : option Z)
           (n_packets buffer_size rank size : Z) : result (list (Z * Z)) :=
  let start := match start_position with None => 0%Z | Some s => s end in
  let end_ := match end_position with
              | None => n_packets
              | Some e => if (n_packets <? e)%Z then n_packets else e
              end in
  rbind (py_range (start + rank * buffer_size) end_ (size * buffer_size))
        (fun sts => Ok (map (fun st => (st, (st + buffer_size)%Z)) sts)).

Definition is_ts (p : packet) : bool := (packet_type p =? 4)%Z.

(** The mask of lines 138-141 *)
Definition kept (p : packet) : bool :=
  (negb (valid_parity p =? 0)%Z && (packet_type p =? 0)%Z)
  || (packet_type p =? 4)%Z
  || (packet_type p =? 7)%Z
  || (packet_type p =? 6)%Z.

(** [np.argwhere(mask).flatten()], counting from [k] *)
Fixpoint argwhere_from (k : nat) (mask : list bool) : list nat :=
  match mask with
  | [] => []
  | b :: mask' =>
      if b then k :: argwhere_from (S k) mask' else argwhere_from (S k) mask'
  end.

(** [np.split(arr, idx)] for increasing indices; [arr] is what is left of
    the array from position [prev] on. *)
Fixpoint np_split {A : Type} (prev : nat) (idx : list nat) (arr : list A)
  : list (list A) :=
  match idx with
  | [] => [arr]
  | i :: idx' =>
      firstn (i - prev) arr :: np_split i idx' (skipn (i - prev) arr)
  end.

(** Lines 148-152: the unix timestamp packet of every packet of the buffer
    that is not itself a timestamp packet. *)
Definition unix_ts_of (packet_buffer : list packet) : list packet :=
  let ts_mask := map is_ts packet_buffer in
  let ts_grps := np_split 0 (argwhere_from 0 ts_mask) packet_buffer in
  let unix_ts_grps :=
    map (fun ts_grp =>
           match ts_grp with
           | [] => []
           | ts :: rest => repeat ts (length rest)
           end)
        (filter (fun ts_grp => (1 <? length ts_grp)%nat) ts_grps) in
  concat unix_ts_grps.

Definition set_timestamp (p : packet) (t : Z) : packet :=
  mkPacket (packet_type p) (valid_parity p) t (payload p).

(** Line 154: the 32nd bit of the timestamp is dropped. *)
Definition drop_bit_32 (p : packet) : packet :=
  set_timestamp p (timestamp p mod 2147483648)%Z.

(** [arr[mask]] for a boolean mask, which must have the length of [arr] *)
Definition bool_index {A : Type} (arr : list A) (mask : list bool)
  : result (list A) :=
  if (length arr =? length mask)%nat then Ok (Np.select arr mask)
  else Err PyIndexError.

(** Lines 192-194: the packet index ranges of the events *)
Definition event_refs (packets_idcs : list Z) (event_lengths : list nat)
  : list (list Z) :=
  map (fun i => py_slice packets_idcs
                         (list_sum (firstn i event_lengths))
                         (list_sum (firstn (S i) event_lengths)))
      (seq 0 (length event_lengths)).

Fixpoint rmapM {A B : Type} (f : A -> result B) (l : list A)
  : result (list B) :=
  match l with
  | [] => Ok []
  | a :: l' =>
      rbind (f a) (fun b => rbind (rmapM f l') (fun bs => Ok (b :: bs)))
  end.

(** [p[0]['timestamp']] *)
Definition first_timestamp (p : list packet) : result Z :=
  match p with
  | [] => Err PyIndexError
  | ts :: _ => Ok (timestamp ts)
  end.

(** [astype('u8')], the type of the ['unix_ts'] field of [raw_event_dtype] *)
Definition as_u8 (x : Z) : Z := (x mod 18446744073709551616)%Z.

(** The pieces of [arr] of the given lengths, one after the other. *)
Fixpoint chunks {A : Type} (lengths : list nat) (arr : list A)
  : list (list A) :=
  match lengths with
  | [] => []
  | n :: lengths' => firstn n arr :: chunks lengths' (skipn n arr)
  end.

(** What one call of [next] writes: the raw event array (fields ['id'] and
    ['unix_ts']), the packets, the event-to-packet references and the new
    [self.last_unix_ts]. *)
Record written : Type := mkWritten {
  raw_event_array : list (Z * Z);      (* ('id', 'unix_ts') *)
  packets_array : list packet;
  ref : list (list Z);
  new_last_unix_ts : packet
}.

(** Lines 138-154: the block with [last_unix_ts] put in front, split into
    the packets that are not timestamp packets (their timestamp reduced) and
    the unix timestamp packet of each. *)
Definition split_buffer (last_unix_ts : packet) (block : list packet)
  : list packet * list packet :=
  let packet_buffer := last_unix_ts :: filter kept block in
  let unix_ts := unix_ts_of packet_buffer in
  let packet_buffer :=
    map drop_bit_32 (Np.select packet_buffer
                               (map (fun p => negb (is_ts p)) packet_buffer)) in
  (packet_buffer, unix_ts).

Section Next.

(** [self.nhit_cut], [self.sync_noise_cut], [self.sync_noise_cut_enabled] *)
Variable nhit_cut : Z.
Variable sync_noise_cut : py_value.
Variable sync_noise_cut_enabled : bool.

(** [self.event_builder.build_events(packet_buffer, unix_ts)] *)
Variable build_events :
  list packet -> list packet -> list (list packet) * list (list packet).

(** Lines 157-161 *)
Definition sync_noise_filter (packet_buffer unix_ts : list packet)
  : result (list packet * list packet) :=
  if sync_noise_cut_enabled then
    rbind (getitem sync_noise_cut 0) (fun lo =>
    rbind (getitem sync_noise_cut 1) (fun hi =>
    let sync_noise_mask :=
      map (fun p => (lo <? timestamp p)%Z && (timestamp p <? hi)%Z)
          packet_buffer in
    rbind (bool_index unix_ts sync_noise_mask) (fun unix_ts' =>
    Ok (Np.select packet_buffer sync_noise_mask, unix_ts'))))
  else Ok (packet_buffer, unix_ts).

(** The body of [next] from the block read from the file (lines 138-194).
    [raw_event_start] and [packets_start] are the starts of the slices that
    [reserve_data] returns for the two datasets. *)
Definition next_block (last_unix_ts : packet) (block : list packet)
           (raw_event_start packets_start : Z) : result written :=
  let '(packet_buffer, unix_ts) := split_buffer last_unix_ts block in
  let last' := last unix_ts last_unix_ts in
  rbind (sync_noise_filter packet_buffer unix_ts) (fun pu =>
  let '(events, event_unix_ts) := build_events (fst pu) (snd pu) in
  let nhit_filtered :=
    filter (fun x => (nhit_cut <=? Z.of_nat (length (fst x)))%Z)
           (combine events event_unix_ts) in
  let events := map fst nhit_filtered in
  let event_unix_ts := map snd nhit_filtered in
  let nevents := length events in
  let raw_event_idcs :=
    arange raw_event_start (raw_event_start + Z.of_nat nevents) in
  rbind (rmapM first_timestamp event_unix_ts) (fun ts =>
  let packets_array := concat events in
  let packets_idcs :=
    map as_u4 (arange packets_start
                      (packets_start + Z.of_nat (length packets_array))) in
  let event_lengths := map (@length packet) events in
  Ok (mkWritten (combine (map as_u4 raw_event_idcs) (map as_u8 ts))
                packets_array
                (event_refs packets_idcs event_lengths) last'))).

End Next.

(** The unix timestamp carried along a buffer: a timestamp packet replaces
    the one carried, every other packet receives the one carried. *)
Fixpoint carry_ts (cur : packet) (buf : list packet) : list packet :=
  match buf with
  | [] => []
  | p :: buf' =>
      if is_ts p then carry_ts p buf' else cur :: carry_ts cur buf'
  end.

(** The groups that splitting at the timestamp packets yields, [pre] being
    the group under construction. *)
Fixpoint groups (pre : list packet) (buf : list packet) : list (list packet) :=
  match buf with
  | [] => [pre]
  | p :: buf' =>
      if is_ts p then pre :: groups [p] buf' else groups (pre ++ [p]) buf'
  end.

End RawEventGenerator.

(** Packets and configurations for concrete runs of the generator. *)
Module RawInputs.

Import RawEventGenerator.

Definition ts1 : packet := mkPacket 4 1 100 0.
Definition ts2 : packet := mkPacket 4 1 101 0.
Definition d1 : packet := mkPacket 0 1 10 1.
Definition d2 : packet := mkPacket 0 1 20 2.
Definition d3 : packet := mkPacket 0 1 30 3.
Definition bad_parity : packet := mkPacket 0 0 25 4.

Definition block1 : list packet := [d1; d2; bad_parity; ts2; d3].

(** An event builder that makes one event of the first two packets and one
    of the rest. *)
Definition two_events (packet_buffer unix_ts : list packet)
  : list (list packet) * list (list packet) :=
  ([firstn 2 packet_buffer; skipn 2 packet_buffer],
   [firstn 2 unix_ts; skipn 2 unix_ts]).

End RawInputs.

(** ** Predicates used to state the properties *)

(** The invariant of the per-event loop; [valid] is the row of
    [~hits['id'].mask]. *)
Record loop_inv (valid : list bool) (st : state) : Prop := mkInv {
  inv_len : length (track_id st) = length (iter_mask st);
  inv_len_valid : length (iter_mask st) = length valid;
  inv_eligible : forall j, nth j (iter_mask st) false = true ->
                           nth j (track_id st) (-1)%Z = (-1)%Z /\
                           nth j valid false = true;
  inv_range : forall j, (-1 <= nth j (track_id st) (-1) <= current_track_id st)%Z;
  inv_used : forall k, (0 <= k <= current_track_id st)%Z -> In k (track_id st);
  inv_masked : forall j, nth j valid false = false ->
                         nth j (track_id st) (-1)%Z = (-1)%Z;
  inv_log : filter_map accepted_tid (log st) =
            map Z.of_nat (seq 0 (Z.to_nat (current_track_id st + 1)))
}.

(** The number of points that [track_ids] puts in cluster [id_]
    ([np.sum(track_ids == id_)]). *)
Definition cluster_size (track_ids : list Z) (id_ : Z) : Z :=
  Z.of_nat (Np.count_nonzero (Np.eq_scalar track_ids id_)).

(** [reaches xyz st st']: starting an iteration of [while True] in state
    [st], the loop is again at the top of an iteration, in state [st'], after
    some number of rounds that did not break. *)
Inductive reaches {point : Type} (dbscan_fit : list point -> option (list Z))
          (ransac : nat -> list point -> option (list bool))
          (ransac_min_samples : Z) (xyz : list point)
  : state -> state -> Prop :=
| reaches_refl st : reaches dbscan_fit ransac ransac_min_samples xyz st st
| reaches_step st st1 st2 :
    round dbscan_fit ransac ransac_min_samples xyz st = Ret (st1, false) ->
    reaches dbscan_fit ransac ransac_min_samples xyz st1 st2 ->
    reaches dbscan_fit ransac ransac_min_samples xyz st st2.

(** The trace entries written between two states. *)
Definition new_log (st st' : state) : list action :=
  skipn (length (log st)) (log st').

(** The reading under which the points of a cluster discarded for having
    fewer than two inliers are retired: they are no longer eligible when the
    round ends and carry no label when the event is finished. *)
Definition discarded_points_retired {point : Type}
           (dbscan_fit : list point -> option (list Z))
           (ransac : nat -> list point -> option (list bool))
           (ransac_min_samples : Z) (xyz : list point) (valid : list bool)
  : Prop :=
  forall st st' id_ cluster j,
    reaches dbscan_fit ransac ransac_min_samples xyz (init_state valid 0) st ->
    round dbscan_fit ransac ransac_min_samples xyz st = Ret (st', false) ->
    In (FitRejected id_ cluster) (new_log st st') ->
    nth j cluster false = true ->
    nth j (iter_mask st') false = false /\
    forall fuel st_end,
      find_tracks_event dbscan_fit ransac ransac_min_samples fuel xyz valid 0
      = Ret st_end ->
      nth j (track_id st_end) (-1)%Z = (-1)%Z.

(** The number of clusters accepted in an event, read off its trace. *)
Definition accepted_labels (st : state) : list Z :=
  filter_map accepted_tid (log st).

Definition n_accepted (st : state) : Z :=
  Z.of_nat (length (accepted_labels st)).

(** The number of valid slots of a table, [np.count_nonzero(~tracks['id'].mask)],
    and their identifiers in row-major order. *)
Definition n_valid (tracks : table) : nat :=
  Np.count_nonzero (concat (tracks_mask tracks)).

Definition ids_of (tracks : table) : list Z :=
  map t_id (valid_tracks tracks).



(** A list in strictly ascending order, as [np.unique] returns it. *)
Inductive ascending : list Z -> Prop :=
| asc_nil : ascending []
| asc_cons x l : ascending l -> (forall y, In y l -> (x < y)%Z) ->
                 ascending (x :: l).

(** The points that [track_ids] puts in the non-noise cluster [id_] are
    still eligible in [st]. *)
Definition eligible_cluster (track_ids : list Z) (st : state) (id_ : Z)
  : Prop :=
  forall j, nth j track_ids (-1)%Z = id_ -> id_ <> (-1)%Z ->
            nth j (iter_mask st) false = true.

(** The program variables of a state, without the ghost trace. *)
Definition vars (st : state) : list Z * list bool * Z * nat :=
  (track_id st, iter_mask st, current_track_id st, n_ransac st).

(** Two outcomes of the same kind, with related results. *)
Definition same_outcome {A : Type} (R : A -> A -> Prop) (o1 o2 : outcome A)
  : Prop :=
  match o1, o2 with
  | Ret a, Ret b => R a b
  | Raise e1, Raise e2 => e1 = e2
  | OutOfFuel, OutOfFuel => True
  | _, _ => False
  end.

(** The number of hits of an event that carry label [k]. *)
Definition n_hits_with (labels : list Z) (k : Z) : nat :=
  Np.count_nonzero (Np.eq_scalar labels k).



(** The number of eligible hits of a state. *)
Definition n_eligible (st : state) : nat := Np.count_nonzero (iter_mask st).

(** [p] lies in the axis-parallel box spanned by the corners [lo] and [hi]. *)
Definition in_box (lo hi p : vec3) : Prop :=
  (vx lo <= vx p <= vx hi)%R /\ (vy lo <= vy p <= vy hi)%R /\
  (vz lo <= vz p <= vz hi)%R.

(** All three components are non-negative. *)
Definition vnonneg (v : vec3) : Prop :=
  (0 <= vx v)%R /\ (0 <= vy v)%R /\ (0 <= vz v)%R.

(** Evaluate [Rmin] and [Rmax] on arguments that linear arithmetic can
    compare. *)
Ltac eval_minmax :=
  repeat match goal with
         | |- context [Rmax ?a ?b] =>
             first [rewrite (Rmax_right a b) by lra
                   |rewrite (Rmax_left a b) by lra]
         | |- context [Rmin ?a ?b] =>
             first [rewrite (Rmin_left a b) by lra
                   |rewrite (Rmin_right a b) by lra]
         end;
  try lra.

(** ** Lemmas on the numpy operations *)

Section NpFacts.

Import Np.

Lemma count_nonzero_le (m : list bool) : count_nonzero m <= length m.
Proof. induction m as [|[] m IH]; simpl; lia. Qed.

Lemma count_nonzero_pos (m : list bool) :
  0 < count_nonzero m -> exists j, nth j m false = true.
Proof.
  induction m as [|b m IH]; simpl; [lia|].
  destruct b; intros H.
  - exists 0. reflexivity.
  - destruct (IH H) as [j Hj]. exists (S j). exact Hj.
Qed.

Lemma count_nonzero_repeat_false (n : nat) :
  count_nonzero (repeat false n) = 0.
Proof. induction n; simpl; auto. Qed.

Lemma nth_true_lt (m : list bool) (j : nat) :
  nth j m false = true -> j < length m.
Proof.
  intros H. destruct (Nat.lt_ge_cases j (length m)) as [|Hge]; auto.
  rewrite nth_overflow in H by exact Hge. discriminate.
Qed.

Lemma assign_masked_length {A : Type} (base : list A) :
  forall mask vals r,
    assign_masked base mask vals = Some r ->
    length r = length base /\ length mask = length base.
Proof.
  induction base as [|x base IH]; intros [|b mask] vals r H; simpl in H;
    try discriminate.
  - destruct vals; inversion H; auto.
  - destruct b.
    + destruct vals as [|v vals]; [discriminate|].
      destruct (assign_masked base mask vals) eqn:E; simpl in H; inversion H.
      destruct (IH _ _ _ E). simpl. lia.
    + destruct (assign_masked base mask vals) eqn:E; simpl in H; inversion H.
      destruct (IH _ _ _ E). simpl. lia.
Qed.

(** Outside the mask the base array is kept. *)
Lemma assign_masked_outside {A : Type} (d : A) (base : list A) :
  forall mask vals r j,
    assign_masked base mask vals = Some r ->
    nth j mask false = false ->
    nth j r d = nth j base d.
Proof.
  induction base as [|x base IH]; intros [|b mask] vals r j H Hj;
    simpl in H; try discriminate.
  - destruct vals; inversion H; auto.
  - destruct b.
    + destruct vals as [|v vals]; [discriminate|].
      destruct (assign_masked base mask vals) eqn:E; simpl in H; inversion H.
      destruct j; simpl in *; [discriminate|]. eapply IH; eauto.
    + destruct (assign_masked base mask vals) eqn:E; simpl in H; inversion H.
      destruct j; simpl in *; auto. eapply IH; eauto.
Qed.

Lemma nth_repeat_same {A : Type} (d : A) (n j : nat) :
  nth j (repeat d n) d = d.
Proof.
  revert j; induction n; intros [|j]; simpl; auto.
Qed.

Lemma nth_eq_scalar (ids : list Z) (v : Z) (j : nat) :
  v <> (-1)%Z ->
  nth j (eq_scalar ids v) false = (nth j ids (-1) =? v)%Z.
Proof.
  intros Hv. unfold eq_scalar. revert j.
  induction ids as [|x ids IH]; intros [|j]; cbn [nth map]; auto;
    symmetry; apply Z.eqb_neq; lia.
Qed.

Lemma nth_fill_false (base mask : list bool) (j : nat) :
  nth j (fill_masked base mask false) false =
  nth j base false && negb (nth j mask false).
Proof.
  revert mask j.
  induction base as [|x base IH]; intros [|b mask] [|j]; simpl; auto;
    try (destruct b; simpl; auto with bool);
    try (rewrite andb_true_r; reflexivity).
Qed.

Lemma nth_fill {A : Type} (d v : A) (base : list A) (mask : list bool) (j : nat) :
  j < length base ->
  nth j (fill_masked base mask v) d =
  if nth j mask false then v else nth j base d.
Proof.
  revert mask j.
  induction base as [|x base IH]; intros [|b mask] [|j] Hj; simpl in *;
    try lia; auto.
  apply IH. lia.
Qed.

Lemma fill_masked_length {A : Type} (v : A) (base : list A) (mask : list bool) :
  length (fill_masked base mask v) = length base.
Proof.
  revert mask; induction base as [|x base IH]; intros [|b mask]; simpl; auto.
Qed.

End NpFacts.

Section UniqueFacts.

Import Np.

Lemma insert_sorted_In (x z : Z) (l : list Z) :
  In z (insert_sorted x l) <-> z = x \/ In z l.
Proof.
  induction l as [|y l IH]; simpl.
  - intuition.
  - destruct (x <? y)%Z eqn:E1; [simpl; intuition|].
    destruct (x =? y)%Z eqn:E2.
    + apply Z.eqb_eq in E2. subst. simpl. intuition.
    + simpl. rewrite IH. intuition.
Qed.

Lemma unique_In (z : Z) (l : list Z) : In z (unique l) <-> In z l.
Proof.
  unfold unique. induction l as [|x l IH]; simpl; [tauto|].
  rewrite insert_sorted_In, IH. intuition.
Qed.

Lemma insert_sorted_ascending (x : Z) (l : list Z) :
  ascending l -> ascending (insert_sorted x l).
Proof.
  induction 1 as [|y l Hl IH Hy]; simpl.
  - constructor; [constructor | intros ? []].
  - destruct (x <? y)%Z eqn:E1.
    + apply Z.ltb_lt in E1. constructor.
      * constructor; assumption.
      * intros z [<-|Hz]; [assumption|]. specialize (Hy _ Hz). lia.
    + destruct (x =? y)%Z eqn:E2.
      * constructor; assumption.
      * apply Z.ltb_ge in E1. apply Z.eqb_neq in E2.
        constructor; [assumption|].
        intros z Hz. apply insert_sorted_In in Hz.
        destruct Hz as [->|Hz]; [lia | auto].
Qed.

Lemma unique_ascending (l : list Z) : ascending (unique l).
Proof.
  unfold unique. induction l; simpl;
    [constructor | apply insert_sorted_ascending; assumption].
Qed.

Lemma ascending_NoDup (l : list Z) : ascending l -> NoDup l.
Proof.
  induction 1 as [|x l Hl IH Hx]; constructor; auto.
  intros Hin. specialize (Hx _ Hin). lia.
Qed.

Lemma unique_NoDup (l : list Z) : NoDup (unique l).
Proof. apply ascending_NoDup, unique_ascending. Qed.

End UniqueFacts.

Lemma filter_map_app {A B : Type} (f : A -> option B) (l1 l2 : list A) :
  filter_map f (l1 ++ l2) = filter_map f l1 ++ filter_map f l2.
Proof.
  induction l1 as [|a l1 IH]; simpl; auto.
  destruct (f a); simpl; rewrite IH; reflexivity.
Qed.

Lemma nth_In_eq {A : Type} (l : list A) (j : nat) (d k : A) :
  j < length l -> nth j l d = k -> In k l.
Proof. intros Hl <-. apply nth_In. exact Hl. Qed.

Lemma range_snoc (c : Z) :
  (-1 <= c)%Z ->
  map Z.of_nat (seq 0 (Z.to_nat (c + 1 + 1))) =
  map Z.of_nat (seq 0 (Z.to_nat (c + 1))) ++ [(c + 1)%Z].
Proof.
  intros Hc.
  replace (Z.to_nat (c + 1 + 1)) with (S (Z.to_nat (c + 1))) by lia.
  rewrite seq_S, map_app. simpl. f_equal. f_equal. lia.
Qed.

(** ** The cluster finder keeps its invariant *)

Section ClusterFacts.

Variable point : Type.
Variable dbscan_fit : list point -> option (list Z).
Variable ransac : nat -> list point -> option (list bool).
Variable ransac_min_samples : Z.

Local Abbreviation cluster_step := (cluster_step ransac ransac_min_samples).
Local Abbreviation for_clusters := (for_clusters ransac ransac_min_samples).
Local Abbreviation round := (round dbscan_fit ransac ransac_min_samples).
Local Abbreviation while_true := (while_true dbscan_fit ransac ransac_min_samples).

Lemma init_state_inv (valid : list bool) (n : nat) :
  loop_inv valid (init_state valid n).
Proof.
  constructor; simpl.
  - apply repeat_length.
  - reflexivity.
  - intros j Hj. split; [apply nth_repeat_same | exact Hj].
  - intros j. rewrite nth_repeat_same. lia.
  - intros k Hk. lia.
  - intros j _. apply nth_repeat_same.
  - reflexivity.
Qed.

Lemma add_log_skip_inv (valid : list bool) (st : state) (id_ : Z) :
  loop_inv valid st -> loop_inv valid (add_log st (SkippedSmall id_)).
Proof.
  intros [H1 H2 H3 H4 H5 H6 H7]. constructor; simpl; auto.
  rewrite filter_map_app, H7. simpl. apply app_nil_r.
Qed.

(** The inlier mask lies inside the cluster mask. *)
Lemma inliers_inside (mask inliers mask' : list bool) (j : nat) :
  Np.assign_masked mask mask inliers = Some mask' ->
  nth j mask' false = true -> nth j mask false = true.
Proof.
  intros H Hj. destruct (nth j mask false) eqn:E; auto.
  rewrite (assign_masked_outside false _ _ _ _ H E) in Hj. congruence.
Qed.

Lemma after_fit_inv (valid : list bool) (st : state) (id_ : Z)
      (cluster mask : list bool) :
  loop_inv valid st ->
  (forall j, nth j mask false = true -> nth j (iter_mask st) false = true) ->
  loop_inv valid (after_fit st id_ cluster mask).
Proof.
  intros [H1 H2 H3 H4 H5 H6 H7] Hsub. unfold after_fit.
  destruct (Np.count_nonzero mask <? 2)%nat eqn:Hc.
  - constructor; simpl; auto.
    rewrite filter_map_app, H7. simpl. apply app_nil_r.
  - apply Nat.ltb_ge in Hc.
    assert (Hcur : (-1 <= current_track_id st)%Z).
    { specialize (H4 (length (track_id st))).
      rewrite nth_overflow in H4 by lia. lia. }
    assert (Hin : forall j, nth j mask false = true ->
                            j < length (track_id st) /\
                            nth j (track_id st) (-1)%Z = (-1)%Z /\
                            nth j valid false = true).
    { intros j Hj. specialize (Hsub _ Hj).
      destruct (H3 _ Hsub). split; [|auto].
      rewrite H1. apply nth_true_lt. exact Hsub. }
    constructor; simpl.
    + rewrite !fill_masked_length. exact H1.
    + rewrite fill_masked_length. exact H2.
    + intros j Hj. rewrite nth_fill_false in Hj.
      apply andb_true_iff in Hj. destruct Hj as [Hj1 Hj2].
      apply negb_true_iff in Hj2.
      destruct (H3 _ Hj1) as [Ha Hb]. split; [|exact Hb].
      rewrite nth_fill, Hj2; [exact Ha|].
      rewrite H1. apply nth_true_lt. exact Hj1.
    + intros j. destruct (Nat.lt_ge_cases j (length (track_id st))) as [Hl|Hl].
      * rewrite nth_fill by exact Hl.
        destruct (nth j mask false); [lia|]. specialize (H4 j). lia.
      * rewrite nth_overflow by (rewrite fill_masked_length; exact Hl). lia.
    + intros k Hk.
      destruct (Z.eq_dec k (current_track_id st + 1)) as [->|Hne].
      * destruct (@count_nonzero_pos mask) as [j Hj]; [lia|].
        destruct (Hin _ Hj) as [Hl _].
        apply nth_In_eq with (j := j) (d := (-1)%Z).
        -- rewrite fill_masked_length. exact Hl.
        -- rewrite nth_fill, Hj; auto.
      * assert (Hk' : (0 <= k <= current_track_id st)%Z) by lia.
        destruct (In_nth _ _ (-1)%Z (H5 _ Hk')) as [j [Hl Hj]].
        apply nth_In_eq with (j := j) (d := (-1)%Z).
        -- rewrite fill_masked_length. exact Hl.
        -- rewrite nth_fill by exact Hl.
           destruct (nth j mask false) eqn:E; [|exact Hj].
           destruct (Hin _ E) as [_ [Hm _]]. lia.
    + intros j Hj.
      destruct (Nat.lt_ge_cases j (length (track_id st))) as [Hl|Hl].
      * rewrite nth_fill by exact Hl.
        destruct (nth j mask false) eqn:E; [|auto].
        destruct (Hin _ E) as [_ [_ Hv]]. congruence.
      * apply nth_overflow. rewrite fill_masked_length. exact Hl.
    + rewrite filter_map_app, H7. simpl. symmetry. apply range_snoc. exact Hcur.
Qed.

(** Outside the inlier mask the eligibility flags are untouched. *)
Lemma after_fit_frame (st : state) (id_ : Z) (cluster mask : list bool)
      (j : nat) :
  nth j mask false = false ->
  nth j (iter_mask (after_fit st id_ cluster mask)) false =
  nth j (iter_mask st) false.
Proof.
  intros Hj. unfold after_fit.
  destruct (Np.count_nonzero mask <? 2)%nat; simpl; auto.
  rewrite nth_fill_false, Hj. apply andb_true_r.
Qed.

Lemma cluster_step_inv (valid : list bool) (xyz : list point)
      (track_ids : list Z) (st st' : state) (id_ : Z) :
  loop_inv valid st ->
  eligible_cluster track_ids st id_ ->
  cluster_step xyz track_ids st id_ = Ret st' ->
  loop_inv valid st' /\
  (forall j, nth j track_ids (-1)%Z <> id_ ->
             nth j (iter_mask st') false = nth j (iter_mask st) false).
Proof.
  intros Hinv Hel. unfold cluster_step.
  destruct (id_ =? -1)%Z eqn:Hid.
  { intros H; inversion H; subst. auto. }
  apply Z.eqb_neq in Hid.
  destruct (_ <=? _)%Z.
  { intros H; inversion H; subst. split; [apply add_log_skip_inv; auto|].
    reflexivity. }
  unfold _do_ransac.
  destruct (ransac _ _) as [inliers|]; simpl; [|discriminate].
  destruct (Np.assign_masked _ _ inliers) as [mask'|] eqn:E; [|discriminate].
  intros H; inversion H; subst; clear H.
  assert (Hsub : forall j, nth j mask' false = true ->
                           nth j track_ids (-1)%Z = id_).
  { intros j Hj. apply (@inliers_inside _ _ _ _ E) in Hj.
    rewrite nth_eq_scalar in Hj by exact Hid. apply Z.eqb_eq. exact Hj. }
  split.
  - apply after_fit_inv; [exact Hinv|].
    intros j Hj. apply Hel; auto.
  - intros j Hj. apply after_fit_frame.
    destruct (nth j mask' false) eqn:E'; auto.
    elim Hj. auto.
Qed.

Lemma bind_Ret {A B : Type} (m : outcome A) (k : A -> outcome B) (b : B) :
  bind m k = Ret b -> exists a, m = Ret a /\ k a = Ret b.
Proof.
  destruct m; simpl; intros H; try discriminate. eauto.
Qed.

Lemma for_clusters_inv (valid : list bool) (xyz : list point)
      (track_ids : list Z) (ids : list Z) :
  forall st st',
    NoDup ids ->
    loop_inv valid st ->
    (forall id_, In id_ ids -> eligible_cluster track_ids st id_) ->
    for_clusters xyz track_ids ids st = Ret st' ->
    loop_inv valid st' /\
    (forall j, ~ In (nth j track_ids (-1)%Z) ids ->
               nth j (iter_mask st') false = nth j (iter_mask st) false).
Proof.
  induction ids as [|id_ ids IH]; intros st st' Hnd Hinv Hel H; simpl in H.
  - inversion H; subst. auto.
  - apply bind_Ret in H. destruct H as [st1 [H1 H2]].
    inversion Hnd as [|? ? Hnotin Hnd']; subst.
    destruct (cluster_step_inv xyz Hinv (Hel id_ (or_introl eq_refl)) H1)
      as [Hinv1 Hframe1].
    destruct (IH st1 st' Hnd' Hinv1) as [Hinv' Hframe']; auto.
    { intros id' Hin j Hj Hne. rewrite Hframe1.
      - apply (Hel id'); auto. right. exact Hin.
      - rewrite Hj. intros ->. contradiction. }
    split; [exact Hinv'|].
    intros j Hj. rewrite Hframe', Hframe1; auto.
    + intros Heq. apply Hj. left. auto.
    + intros Hin. apply Hj. right. exact Hin.
Qed.

(** Only eligible points receive a cluster label from [_do_dbscan]. *)
Lemma do_dbscan_eligible (xyz : list point) (st : state) (track_ids : list Z) :
  _do_dbscan dbscan_fit xyz (iter_mask st) = Ret track_ids ->
  forall id_, eligible_cluster track_ids st id_.
Proof.
  unfold _do_dbscan.
  destruct (dbscan_fit _) as [labels_|]; [|discriminate].
  destruct (Np.assign_masked _ _ labels_) as [t|] eqn:E; [|discriminate].
  intros H; inversion H; subst. intros id_ j Hj Hne.
  destruct (nth j (iter_mask st) false) eqn:Em; auto.
  rewrite (assign_masked_outside (-1)%Z _ _ _ _ E Em) in Hj.
  rewrite nth_repeat_same in Hj. congruence.
Qed.

Lemma round_inv (valid : list bool) (xyz : list point) (st st' : state)
      (b : bool) :
  loop_inv valid st ->
  round xyz st = Ret (st', b) ->
  loop_inv valid st'.
Proof.
  intros Hinv H. unfold round in H.
  apply bind_Ret in H. destruct H as [track_ids [Hd H]].
  apply bind_Ret in H. destruct H as [st1 [Hf H]].
  inversion H; subst.
  eapply for_clusters_inv; eauto.
  - apply unique_NoDup.
  - intros id_ _. eapply do_dbscan_eligible; eauto.
Qed.

Lemma while_true_inv (valid : list bool) (xyz : list point) (fuel : nat) :
  forall st st',
    loop_inv valid st ->
    while_true fuel xyz st = Ret st' ->
    loop_inv valid st'.
Proof.
  induction fuel as [|fuel IH]; intros st st' Hinv H; simpl in H;
    [discriminate|].
  apply bind_Ret in H. destruct H as [[st1 b] [Hr H]]. simpl in H.
  pose proof (round_inv xyz Hinv Hr) as Hinv1.
  destruct b.
  - inversion H; subst. exact Hinv1.
  - eapply IH; eauto.
Qed.

(** *** What a round writes to the trace *)

Lemma cluster_step_cases (xyz : list point) (track_ids : list Z)
      (st st' : state) (id_ : Z) :
  cluster_step xyz track_ids st id_ = Ret st' ->
  (id_ = (-1)%Z /\ st' = st) \/
  (id_ <> (-1)%Z /\
   (cluster_size track_ids id_ <= ransac_min_samples)%Z /\
   st' = add_log st (SkippedSmall id_)) \/
  (id_ <> (-1)%Z /\
   (ransac_min_samples < cluster_size track_ids id_)%Z /\
   exists inliers mask',
     ransac (n_ransac st) (Np.select xyz (Np.eq_scalar track_ids id_))
     = Some inliers /\
     Np.assign_masked (Np.eq_scalar track_ids id_)
                      (Np.eq_scalar track_ids id_) inliers = Some mask' /\
     st' = after_fit st id_ (Np.eq_scalar track_ids id_) mask').
Proof.
  unfold cluster_step, cluster_size.
  destruct (id_ =? -1)%Z eqn:Hid.
  { apply Z.eqb_eq in Hid. intros H; inversion H. auto. }
  apply Z.eqb_neq in Hid.
  destruct (_ <=? _)%Z eqn:Hs.
  { apply Z.leb_le in Hs. intros H; inversion H. right; left. auto. }
  apply Z.leb_gt in Hs. unfold _do_ransac.
  destruct (ransac _ _) as [inliers|] eqn:Er; simpl; [|discriminate].
  destruct (Np.assign_masked _ _ inliers) as [mask'|] eqn:E; [|discriminate].
  intros H; inversion H. right; right.
  split; [auto|]. split; [lia|]. eauto.
Qed.

Lemma after_fit_log (st : state) (id_ : Z) (cluster mask : list bool) :
  exists a, log (after_fit st id_ cluster mask) = log st ++ [a] /\
            fitted_id a = Some id_ /\
            n_ransac (after_fit st id_ cluster mask) = S (n_ransac st) /\
            (forall i c, a = FitRejected i c ->
                         i = id_ /\ c = cluster /\
                         iter_mask (after_fit st id_ cluster mask)
                         = iter_mask st).
Proof.
  unfold after_fit. destruct (_ <? _)%nat; simpl.
  - eexists; repeat split; try reflexivity; inversion H; auto.
  - eexists; repeat split; try reflexivity; inversion H.
Qed.

Lemma cluster_step_frame (xyz : list point) (track_ids : list Z)
      (st st' : state) (id_ : Z) (j : nat) :
  cluster_step xyz track_ids st id_ = Ret st' ->
  nth j track_ids (-1)%Z <> id_ ->
  nth j (iter_mask st') false = nth j (iter_mask st) false.
Proof.
  intros H Hj.
  destruct (@cluster_step_cases _ _ _ _ _ H)
    as [[_ ->]|[[_ [_ ->]]|[Hid [_ [inl [mask' [_ [E ->]]]]]]]]; auto.
  apply after_fit_frame.
  destruct (nth j mask' false) eqn:E'; auto.
  apply (@inliers_inside _ _ _ _ E) in E'.
  rewrite nth_eq_scalar in E' by exact Hid.
  apply Z.eqb_eq in E'. contradiction.
Qed.

Lemma for_clusters_frame (xyz : list point) (track_ids : list Z)
      (ids : list Z) (j : nat) :
  forall st st',
    for_clusters xyz track_ids ids st = Ret st' ->
    ~ In (nth j track_ids (-1)%Z) ids ->
    nth j (iter_mask st') false = nth j (iter_mask st) false.
Proof.
  induction ids as [|id_ ids IH]; intros st st' H Hj; simpl in H.
  - inversion H; auto.
  - apply bind_Ret in H. destruct H as [st1 [H1 H2]].
    rewrite (IH _ _ H2), (@cluster_step_frame _ _ _ _ _ j H1); auto.
    + intros Heq. apply Hj. left. auto.
    + intros Hin. apply Hj. right. auto.
Qed.

Lemma for_clusters_log (xyz : list point) (track_ids : list Z)
      (ids : list Z) :
  forall st st',
    NoDup ids ->
    (forall id_, In id_ ids -> eligible_cluster track_ids st id_) ->
    for_clusters xyz track_ids ids st = Ret st' ->
    exists new,
      log st' = log st ++ new /\
      n_ransac st' = n_ransac st + length (filter_map fitted_id new) /\
      (forall id_, In id_ (filter_map fitted_id new) <->
                   In id_ ids /\ id_ <> (-1)%Z /\
                   (ransac_min_samples < cluster_size track_ids id_)%Z) /\
      (forall id_ c, In (FitRejected id_ c) new ->
                     In id_ ids /\ id_ <> (-1)%Z /\
                     c = Np.eq_scalar track_ids id_ /\
                     forall j, nth j c false = true ->
                               nth j (iter_mask st') false = true).
Proof.
  induction ids as [|id0 ids IH]; intros st st' Hnd Hel H; simpl in H.
  - inversion H; subst. exists []. rewrite app_nil_r. simpl.
    split; [reflexivity|]. split; [lia|]. split; [tauto|]. intros ? ? [].
  - apply bind_Ret in H. destruct H as [st1 [H1 H2]].
    inversion Hnd as [|? ? Hnotin Hnd']; subst.
    assert (Hel1 : forall id_, In id_ ids -> eligible_cluster track_ids st1 id_).
    { intros id' Hin j Hj Hne.
      rewrite (@cluster_step_frame _ _ _ _ _ j H1).
      - apply (Hel id'); auto. right. exact Hin.
      - rewrite Hj. intros ->. contradiction. }
    destruct (IH _ _ Hnd' Hel1 H2) as [new2 [Hl2 [Hn2 [Hf2 Hr2]]]].
    assert (Hhead : exists new1,
               log st1 = log st ++ new1 /\
               n_ransac st1 = n_ransac st + length (filter_map fitted_id new1) /\
               (forall id_, In id_ (filter_map fitted_id new1) <->
                            id_ = id0 /\ id_ <> (-1)%Z /\
                            (ransac_min_samples < cluster_size track_ids id_)%Z) /\
               (forall id_ c, In (FitRejected id_ c) new1 ->
                              id_ = id0 /\ id_ <> (-1)%Z /\
                              c = Np.eq_scalar track_ids id_ /\
                              iter_mask st1 = iter_mask st)).
    { destruct (@cluster_step_cases _ _ _ _ _ H1)
        as [[Hid ->]|[[Hid [Hs ->]]|[Hid [Hs [inl [mask' [_ [_ ->]]]]]]]].
      - exists []. split; [rewrite app_nil_r; reflexivity|].
        split; [simpl; lia|]. split.
        + intros id_. simpl. split; [tauto|].
          intros [-> [Hne _]]. congruence.
        + intros id_ c [].
      - exists [SkippedSmall id0]. split; [reflexivity|].
        split; [simpl; lia|]. split.
        + intros id_. simpl. split; [tauto|].
          intros [-> [_ Hlt]]. lia.
        + intros id_ c [H|[]]. discriminate.
      - destruct (after_fit_log st id0 (Np.eq_scalar track_ids id0) mask')
          as [a [Ha [Hfa [Hna Hra]]]].
        exists [a]. simpl. rewrite Hfa. simpl.
        split; [exact Ha|]. split; [lia|]. split.
        + intros id_. split.
          * intros [<-|[]]. auto.
          * intros [-> _]. left. reflexivity.
        + intros id_ c [->|[]].
          destruct (Hra _ _ eq_refl) as [-> [-> Him]]. auto. }
    destruct Hhead as [new1 [Hl1 [Hn1 [Hf1 Hr1]]]].
    exists (new1 ++ new2).
    split; [rewrite Hl2, Hl1, app_assoc; reflexivity|].
    split; [rewrite filter_map_app, length_app; lia|].
    split.
    + intros id_. rewrite filter_map_app, in_app_iff, Hf1, Hf2. simpl.
      intuition.
    + intros id_ c Hin. apply in_app_iff in Hin. destruct Hin as [Hin|Hin].
      * destruct (Hr1 _ _ Hin) as [-> [Hne [-> Him]]].
        split; [left; reflexivity|]. split; [exact Hne|]. split; [reflexivity|].
        intros j Hj.
        rewrite (@for_clusters_frame _ _ _ j _ _ H2).
        -- rewrite Him. apply (Hel id0); [left; reflexivity| |exact Hne].
           rewrite nth_eq_scalar in Hj by exact Hne. apply Z.eqb_eq. exact Hj.
        -- rewrite nth_eq_scalar in Hj by exact Hne. apply Z.eqb_eq in Hj.
           rewrite Hj. exact Hnotin.
      * destruct (Hr2 _ _ Hin) as [Hi [Hne [Hc Hj]]].
        split; [right; exact Hi|]. auto.
Qed.

(** *** A round that changes nothing repeats for ever *)

Lemma cluster_step_vars (xyz : list point) (track_ids : list Z) (id_ : Z)
      (st1 st2 : state) :
  vars st1 = vars st2 ->
  same_outcome (fun a b => vars a = vars b)
               (cluster_step xyz track_ids st1 id_)
               (cluster_step xyz track_ids st2 id_).
Proof.
  destruct st1 as [t1 m1 c1 n1 l1], st2 as [t2 m2 c2 n2 l2].
  unfold vars. simpl. intros H. inversion H; subst.
  unfold cluster_step.
  destruct (id_ =? -1)%Z; [reflexivity|].
  destruct (_ <=? _)%Z; [reflexivity|].
  unfold _do_ransac. simpl.
  destruct (ransac _ _) as [inliers|]; simpl; [|reflexivity].
  destruct (Np.assign_masked _ _ inliers) as [mask'|]; simpl; [|reflexivity].
  unfold after_fit. simpl. destruct (_ <? _)%nat; reflexivity.
Qed.

Lemma for_clusters_vars (xyz : list point) (track_ids : list Z)
      (ids : list Z) :
  forall st1 st2,
    vars st1 = vars st2 ->
    same_outcome (fun a b => vars a = vars b)
                 (for_clusters xyz track_ids ids st1)
                 (for_clusters xyz track_ids ids st2).
Proof.
  induction ids as [|id_ ids IH]; intros st1 st2 H; simpl; [exact H|].
  pose proof (@cluster_step_vars xyz track_ids id_ _ _ H) as Hs.
  destruct (cluster_step xyz track_ids st1 id_),
           (cluster_step xyz track_ids st2 id_); simpl in *;
    try contradiction; auto.
Qed.

Lemma round_vars (xyz : list point) (st1 st2 : state) :
  vars st1 = vars st2 ->
  same_outcome (fun a b => vars (fst a) = vars (fst b) /\ snd a = snd b)
               (round xyz st1) (round xyz st2).
Proof.
  intros H. unfold round.
  assert (Hm : iter_mask st1 = iter_mask st2).
  { unfold vars in H. inversion H; auto. }
  rewrite Hm.
  destruct (_do_dbscan dbscan_fit xyz (iter_mask st2)) as [track_ids| |];
    simpl; auto.
  pose proof (@for_clusters_vars xyz track_ids (Np.unique track_ids) _ _ H)
    as Hs.
  destruct (for_clusters xyz track_ids (Np.unique track_ids) st1) as [a| |],
           (for_clusters xyz track_ids (Np.unique track_ids) st2) as [b| |];
    simpl in *; try contradiction; auto.
  split; [exact Hs|]. unfold loop_done.
  replace (iter_mask a) with (iter_mask b); [reflexivity|].
  unfold vars in Hs. inversion Hs; auto.
Qed.

Lemma no_progress_diverges (xyz : list point) (st st' : state) :
  round xyz st = Ret (st', false) ->
  vars st' = vars st ->
  forall fuel st2, vars st2 = vars st -> while_true fuel xyz st2 = OutOfFuel.
Proof.
  intros Hr Hv fuel. induction fuel as [|fuel IH]; intros st2 H2; simpl;
    [reflexivity|].
  pose proof (@round_vars xyz _ _ H2) as Hs. rewrite Hr in Hs.
  destruct (round xyz st2) as [[st2' b]| |]; simpl in Hs; try contradiction.
  destruct Hs as [Hs1 Hs2]. simpl in Hs2. subst b. simpl.
  apply IH. simpl in Hs1. congruence.
Qed.

End ClusterFacts.

(** ** Properties of the cluster finder *)

Lemma reaches_inv {point : Type} (dbscan_fit : list point -> option (list Z))
      (ransac : nat -> list point -> option (list bool))
      (ransac_min_samples : Z) (xyz : list point) (valid : list bool)
      (st st' : state) :
  reaches dbscan_fit ransac ransac_min_samples xyz st st' ->
  loop_inv valid st -> loop_inv valid st'.
Proof.
  induction 1 as [|st st1 st2 Hr _ IH]; auto.
  intros Hinv. apply IH. eapply round_inv; eauto.
Qed.

Lemma new_log_app (st st' : state) (new : list action) :
  log st' = log st ++ new -> new_log st st' = new.
Proof.
  intros H. unfold new_log. rewrite H, skipn_app, skipn_all, Nat.sub_diag.
  reflexivity.
Qed.

Lemma round_log {point : Type} (dbscan_fit : list point -> option (list Z))
      (ransac : nat -> list point -> option (list bool))
      (ransac_min_samples : Z) (xyz : list point) (st st' : state) (b : bool) :
  round dbscan_fit ransac ransac_min_samples xyz st = Ret (st', b) ->
  exists track_ids new,
    _do_dbscan dbscan_fit xyz (iter_mask st) = Ret track_ids /\
    b = loop_done track_ids st' /\
    log st' = log st ++ new /\
    n_ransac st' = n_ransac st + length (filter_map fitted_id new) /\
    (forall id_, In id_ (filter_map fitted_id new) <->
                 In id_ track_ids /\ id_ <> (-1)%Z /\
                 (ransac_min_samples < cluster_size track_ids id_)%Z) /\
    (forall id_ c, In (FitRejected id_ c) new ->
                   In id_ track_ids /\ id_ <> (-1)%Z /\
                   c = Np.eq_scalar track_ids id_ /\
                   forall j, nth j c false = true ->
                             nth j (iter_mask st') false = true).
Proof.
  intros H. unfold round in H.
  apply bind_Ret in H. destruct H as [track_ids [Hd H]].
  apply bind_Ret in H. destruct H as [st1 [Hf H]].
  inversion H; subst; clear H.
  destruct (@for_clusters_log _ dbscan_fit ransac ransac_min_samples xyz
              track_ids (Np.unique track_ids) st st')
    as [new [Hl [Hn [Hfit Hrej]]]]; auto.
  { apply unique_NoDup. }
  { intros id_ _. eapply do_dbscan_eligible; eauto. }
  exists track_ids, new.
  split; [exact Hd|]. split; [reflexivity|]. split; [exact Hl|].
  split; [exact Hn|]. split.
  - intros id_. rewrite Hfit, unique_In. reflexivity.
  - intros id_ c Hin. destruct (Hrej _ _ Hin) as [Hi Hrest].
    rewrite unique_In in Hi. auto.
Qed.

(** C5.  The labels that the cluster finder returns for an event: the labels
    handed out, in the order of acceptance, are 0, 1, ..., n-1 where n is the
    number of accepted clusters (so label k is used only after 0..k-1);
    every hit carries -1 or a label in [0, n); every label in [0, n) is
    carried by some hit (no gaps); a masked hit carries -1. *)
Theorem find_tracks_event_labels {point : Type}
        (dbscan_fit : list point -> option (list Z))
        (ransac : nat -> list point -> option (list bool))
        (ransac_min_samples : Z) (fuel : nat) (xyz : list point)
        (valid : list bool) (n : nat) (st : state) :
  find_tracks_event dbscan_fit ransac ransac_min_samples fuel xyz valid n
  = Ret st ->
  accepted_labels st = map Z.of_nat (seq 0 (Z.to_nat (n_accepted st))) /\
  length (track_id st) = length valid /\
  (forall j, nth j (track_id st) (-1)%Z = (-1)%Z \/
             (0 <= nth j (track_id st) (-1) < n_accepted st)%Z) /\
  (forall k, (0 <= k < n_accepted st)%Z -> In k (track_id st)) /\
  (forall j, nth j valid false = false -> nth j (track_id st) (-1)%Z = (-1)%Z).
Proof.
  intros H. unfold find_tracks_event in H.
  apply while_true_inv with (valid := valid) in H; [|apply init_state_inv].
  destruct H as [H1 H2 H3 H4 H5 H6 H7].
  assert (Hcur : (-1 <= current_track_id st)%Z).
  { specialize (H4 (length (track_id st))).
    rewrite nth_overflow in H4 by lia. lia. }
  assert (Hn : n_accepted st = (current_track_id st + 1)%Z).
  { unfold n_accepted, accepted_labels. rewrite H7, length_map, length_seq. lia. }
  rewrite Hn. split; [exact H7|]. split; [congruence|]. split; [|split].
  - intros j. specialize (H4 j). lia.
  - intros k Hk. apply H5. lia.
  - exact H6.
Qed.

Lemma find_tracks_event_labels_witness :
  find_tracks_event (Dbscan.fit eps2_default 3) ransac_first_fails 2 5
                    two_groups (repeat true 6) 0 = Ret two_groups_end /\
  (forall k, (0 <= k < 2)%Z -> In k [1; 1; 1; 0; 0; 0]%Z).
Proof.
  assert (H : find_tracks_event (Dbscan.fit eps2_default 3) ransac_first_fails
                                2 5 two_groups (repeat true 6) 0
              = Ret two_groups_end) by (vm_compute; reflexivity).
  split; [exact H|].
  exact (proj1 (proj2 (proj2 (proj2 (find_tracks_event_labels _ _ _ _ _ _ _ H))))).
Defined.

(** *** Which clusters of a round are handed to the fitting routine *)

(** The loop body depends on the fitting routine only through what it
    returns for the cluster at hand, and only when that cluster is a
    non-noise cluster above the threshold. *)
Lemma cluster_step_fit_ext {point : Type}
      (ransac ransac' : nat -> list point -> option (list bool))
      (ransac_min_samples : Z) (xyz : list point) (track_ids : list Z)
      (st : state) (id_ : Z) :
  (id_ <> (-1)%Z ->
   (ransac_min_samples < cluster_size track_ids id_)%Z ->
   forall n, ransac' n (Np.select xyz (Np.eq_scalar track_ids id_)) =
             ransac n (Np.select xyz (Np.eq_scalar track_ids id_))) ->
  cluster_step ransac' ransac_min_samples xyz track_ids st id_ =
  cluster_step ransac ransac_min_samples xyz track_ids st id_.
Proof.
  intros H. unfold cluster_step, cluster_size in *.
  destruct (id_ =? -1)%Z eqn:Hid; [reflexivity|].
  apply Z.eqb_neq in Hid.
  destruct (_ <=? _)%Z eqn:Hs; [reflexivity|].
  apply Z.leb_gt in Hs. unfold _do_ransac.
  rewrite (H Hid Hs (n_ransac st)). reflexivity.
Qed.

Lemma for_clusters_fit_ext {point : Type}
      (ransac ransac' : nat -> list point -> option (list bool))
      (ransac_min_samples : Z) (xyz : list point) (track_ids : list Z)
      (ids : list Z) :
  (forall id_ n, In id_ ids -> id_ <> (-1)%Z ->
                 (ransac_min_samples < cluster_size track_ids id_)%Z ->
                 ransac' n (Np.select xyz (Np.eq_scalar track_ids id_)) =
                 ransac n (Np.select xyz (Np.eq_scalar track_ids id_))) ->
  forall st,
    for_clusters ransac' ransac_min_samples xyz track_ids ids st =
    for_clusters ransac ransac_min_samples xyz track_ids ids st.
Proof.
  induction ids as [|id0 ids IH]; intros H st; simpl; [reflexivity|].
  rewrite (@cluster_step_fit_ext _ ransac ransac' ransac_min_samples xyz
             track_ids st id0).
  - destruct (cluster_step ransac ransac_min_samples xyz track_ids st id0)
      as [st1| |]; simpl; auto.
    apply IH. intros id_ n Hin. apply H. right. exact Hin.
  - intros Hne Hs n. apply H; auto. left. reflexivity.
Qed.

Lemma cluster_step_fit_raises {point : Type}
      (ransac : nat -> list point -> option (list bool))
      (ransac_min_samples : Z) (xyz : list point) (track_ids : list Z)
      (st : state) (id_ : Z) :
  id_ <> (-1)%Z ->
  (ransac_min_samples < cluster_size track_ids id_)%Z ->
  (forall n, ransac n (Np.select xyz (Np.eq_scalar track_ids id_)) = None) ->
  cluster_step ransac ransac_min_samples xyz track_ids st id_
  = Raise LibraryError.
Proof.
  intros Hne Hs Hr. unfold cluster_step, cluster_size in *.
  apply Z.eqb_neq in Hne. rewrite Hne.
  apply Z.leb_gt in Hs. rewrite Hs.
  unfold _do_ransac. rewrite Hr. reflexivity.
Qed.

Lemma cluster_step_has_fuel {point : Type}
      (ransac : nat -> list point -> option (list bool))
      (ransac_min_samples : Z) (xyz : list point) (track_ids : list Z)
      (st : state) (id_ : Z) :
  cluster_step ransac ransac_min_samples xyz track_ids st id_ <> OutOfFuel.
Proof.
  unfold cluster_step.
  destruct (id_ =? -1)%Z; [discriminate|].
  destruct (_ <=? _)%Z; [discriminate|].
  unfold _do_ransac. destruct (ransac _ _) as [inl|]; simpl; [|discriminate].
  destruct (Np.assign_masked _ _ inl); discriminate.
Qed.

Lemma for_clusters_fit_raises {point : Type}
      (ransac : nat -> list point -> option (list bool))
      (ransac_min_samples : Z) (xyz : list point) (track_ids : list Z)
      (id_ : Z) (ids : list Z) :
  In id_ ids -> id_ <> (-1)%Z ->
  (ransac_min_samples < cluster_size track_ids id_)%Z ->
  (forall n, ransac n (Np.select xyz (Np.eq_scalar track_ids id_)) = None) ->
  forall st,
    exists e,
      for_clusters ransac ransac_min_samples xyz track_ids ids st = Raise e.
Proof.
  intros Hin Hne Hs Hr.
  induction ids as [|id0 ids IH]; intros st; [destruct Hin|]. simpl.
  destruct (Z.eq_dec id0 id_) as [->|Hd].
  - rewrite (@cluster_step_fit_raises _ ransac ransac_min_samples xyz
               track_ids st id_ Hne Hs Hr). simpl. eauto.
  - destruct Hin as [Hin|Hin]; [contradiction|].
    pose proof (@cluster_step_has_fuel _ ransac ransac_min_samples xyz
                  track_ids st id0) as Hf.
    destruct (cluster_step ransac ransac_min_samples xyz track_ids st id0)
      as [st1|e|]; simpl; [apply IH; exact Hin|eauto|contradiction].
Qed.

(** A loop over the labels that returns has called the fitting routine, with
    a result, on every cluster above the threshold. *)
Lemma for_clusters_calls {point : Type}
      (ransac : nat -> list point -> option (list bool))
      (ransac_min_samples : Z) (xyz : list point) (track_ids : list Z)
      (ids : list Z) :
  forall st st',
    for_clusters ransac ransac_min_samples xyz track_ids ids st = Ret st' ->
    n_ransac st <= n_ransac st' /\
    forall id_, In id_ ids -> id_ <> (-1)%Z ->
                (ransac_min_samples < cluster_size track_ids id_)%Z ->
                exists n inliers,
                  n_ransac st <= n < n_ransac st' /\
                  ransac n (Np.select xyz (Np.eq_scalar track_ids id_))
                  = Some inliers.
Proof.
  induction ids as [|id0 ids IH]; intros st st' H; simpl in H.
  - inversion H; subst. split; [lia|]. intros id_ [].
  - apply bind_Ret in H. destruct H as [st1 [H1 H2]].
    destruct (IH _ _ H2) as [Hle Hcalls].
    destruct (@cluster_step_cases _ ransac ransac_min_samples xyz track_ids
                st st1 id0 H1)
      as [[Hid ->]|[[Hid [Hs ->]]|[Hid [Hs [inl [mask' [Hr [_ ->]]]]]]]].
    + split; [exact Hle|]. intros id_ [->|Hin] Hne Hbig;
        [contradiction|auto].
    + cbn [add_log n_ransac] in *. split; [exact Hle|].
      intros id_ [->|Hin] Hne Hbig; [lia|auto].
    + destruct (after_fit_log st id0 (Np.eq_scalar track_ids id0) mask')
        as [a [_ [_ [Hn _]]]].
      rewrite Hn in *. split; [lia|].
      intros id_ [->|Hin] Hne Hbig.
      * exists (n_ransac st), inl. split; [lia|exact Hr].
      * destruct (Hcalls _ Hin Hne Hbig) as [n [inliers [Hrange Hc]]].
        exists n, inliers. split; [lia|exact Hc].
Qed.

(** C8.  In a clustering round whose clustering gave the labels
    [track_ids], the line fit is attempted exactly on the non-noise clusters
    with strictly more points than [ransac_min_samples]:
    - clusters at or below the threshold are skipped without fitting: the
      round, its result or its exception, is the same for every fitting
      routine that agrees with [ransac] on the clusters above the threshold,
      whatever that routine returns, or raises, anywhere else;
    - a cluster above the threshold is fitted: if the fitting routine fails
      on its points, the round fails;
    - when the round returns, the routine was called once for each cluster
      above the threshold, on the points of that cluster, and for no other
      label. *)
Theorem fit_attempted_iff_above_min_samples {point : Type}
        (dbscan_fit : list point -> option (list Z))
        (ransac : nat -> list point -> option (list bool))
        (ransac_min_samples : Z) (xyz : list point) (st : state)
        (track_ids : list Z) :
  _do_dbscan dbscan_fit xyz (iter_mask st) = Ret track_ids ->
  (forall ransac' : nat -> list point -> option (list bool),
      (forall id_ n,
          In id_ track_ids -> id_ <> (-1)%Z ->
          (ransac_min_samples < cluster_size track_ids id_)%Z ->
          ransac' n (Np.select xyz (Np.eq_scalar track_ids id_)) =
          ransac n (Np.select xyz (Np.eq_scalar track_ids id_))) ->
      round dbscan_fit ransac' ransac_min_samples xyz st =
      round dbscan_fit ransac ransac_min_samples xyz st) /\
  (forall id_,
      In id_ track_ids -> id_ <> (-1)%Z ->
      (ransac_min_samples < cluster_size track_ids id_)%Z ->
      (forall n, ransac n (Np.select xyz (Np.eq_scalar track_ids id_)) = None) ->
      exists e, round dbscan_fit ransac ransac_min_samples xyz st = Raise e) /\
  (forall st' b,
      round dbscan_fit ransac ransac_min_samples xyz st = Ret (st', b) ->
      n_ransac st' =
        n_ransac st + length (filter_map fitted_id (new_log st st')) /\
      (forall id_,
          In id_ (filter_map fitted_id (new_log st st')) <->
          In id_ track_ids /\ id_ <> (-1)%Z /\
          (ransac_min_samples < cluster_size track_ids id_)%Z) /\
      (forall id_,
          In id_ track_ids -> id_ <> (-1)%Z ->
          (ransac_min_samples < cluster_size track_ids id_)%Z ->
          exists n inliers,
            n_ransac st <= n < n_ransac st' /\
            ransac n (Np.select xyz (Np.eq_scalar track_ids id_))
            = Some inliers)).
Proof.
  intros Hd. split; [|split].
  - intros ransac' Hagree. unfold round. rewrite Hd. cbn [bind].
    rewrite (@for_clusters_fit_ext _ ransac ransac' ransac_min_samples xyz
               track_ids (Np.unique track_ids)); [reflexivity|].
    intros id_ n Hin. apply Hagree. apply unique_In. exact Hin.
  - intros id_ Hin Hne Hs Hr. unfold round. rewrite Hd. cbn [bind].
    destruct (@for_clusters_fit_raises _ ransac ransac_min_samples xyz
                track_ids id_ (Np.unique track_ids)
                (proj2 (unique_In id_ track_ids) Hin) Hne Hs Hr st) as [e He].
    rewrite He. exists e. reflexivity.
  - intros st' b H.
    destruct (round_log _ _ _ _ _ H)
      as [track_ids' [new [Hd' [_ [Hl [Hn [Hfit _]]]]]]].
    rewrite Hd in Hd'. injection Hd' as <-.
    rewrite (@new_log_app _ _ _ Hl).
    split; [exact Hn|]. split; [exact Hfit|].
    unfold round in H. rewrite Hd in H. cbn [bind] in H.
    apply bind_Ret in H. destruct H as [st1 [Hf H]].
    injection H as <- _.
    destruct (for_clusters_calls _ _ _ _ _ _ Hf) as [_ Hcalls].
    intros id_ Hin. apply Hcalls. apply unique_In. exact Hin.
Qed.

Lemma fit_attempted_iff_above_min_samples_witness :
  _do_dbscan (Dbscan.fit eps2_default 2) small_and_big (repeat true 5)
  = Ret [0; 0; 1; 1; 1]%Z /\
  cluster_size [0; 0; 1; 1; 1]%Z 0 = 2%Z /\
  cluster_size [0; 0; 1; 1; 1]%Z 1 = 3%Z /\
  round (Dbscan.fit eps2_default 2) ransac_raises_small 2 small_and_big
        (init_state (repeat true 5) 0)
  = round (Dbscan.fit eps2_default 2) ransac_all 2 small_and_big
          (init_state (repeat true 5) 0) /\
  (exists e,
      round (Dbscan.fit eps2_default 2) ransac_raises 2 small_and_big
            (init_state (repeat true 5) 0) = Raise e) /\
  (exists st',
      round (Dbscan.fit eps2_default 2) ransac_all 2 small_and_big
            (init_state (repeat true 5) 0) = Ret (st', false) /\
      log st' = [SkippedSmall 0;
                 FitAccepted 1 [false; false; true; true; true] 0] /\
      n_ransac st' = 0 + 1).
Proof.
  assert (Hd : _do_dbscan (Dbscan.fit eps2_default 2) small_and_big
                          (iter_mask (init_state (repeat true 5) 0))
               = Ret [0; 0; 1; 1; 1]%Z) by (vm_compute; reflexivity).
  assert (Hr : round (Dbscan.fit eps2_default 2) ransac_all 2 small_and_big
                     (init_state (repeat true 5) 0)
               = Ret (mkState [-1; -1; 0; 0; 0]%Z
                              [true; true; false; false; false] 0%Z 1
                              [SkippedSmall 0;
                               FitAccepted 1 [false; false; true; true; true] 0],
                      false))
    by (vm_compute; reflexivity).
  split; [exact Hd|]. split; [reflexivity|]. split; [reflexivity|].
  split; [|split].
  - apply (proj1 (@fit_attempted_iff_above_min_samples
                    _ (Dbscan.fit eps2_default 2) ransac_all 2 small_and_big
                    (init_state (repeat true 5) 0) [0; 0; 1; 1; 1]%Z Hd)).
    intros id_ n Hin Hne Hs.
    simpl in Hin.
    destruct Hin as [<-|[<-|[<-|[<-|[<-|[]]]]]];
      try (exfalso; revert Hs; unfold cluster_size; simpl; lia);
      reflexivity.
  - apply (proj1 (proj2 (@fit_attempted_iff_above_min_samples
                           _ (Dbscan.fit eps2_default 2) ransac_raises 2
                           small_and_big (init_state (repeat true 5) 0)
                           [0; 0; 1; 1; 1]%Z Hd)) 1%Z).
    + right. right. left. reflexivity.
    + discriminate.
    + reflexivity.
    + reflexivity.
  - eexists. split; [exact Hr|].
    split; [reflexivity|].
    exact (proj1 (proj2 (proj2 (@fit_attempted_iff_above_min_samples
                                  _ (Dbscan.fit eps2_default 2) ransac_all 2
                                  small_and_big
                                  (init_state (repeat true 5) 0)
                                  [0; 0; 1; 1; 1]%Z Hd)) _ _ Hr)).
Defined.

(** C3, as the code has it.  When a cluster is discarded because fewer than
    two of its points are inliers, no track id is assigned to its points and
    they stay eligible: at the end of that round every point of the cluster
    is still eligible and still unlabelled, so that the next clustering round
    of the event, if there is one, sees it again. *)
Theorem rejected_cluster_stays_eligible {point : Type}
        (dbscan_fit : list point -> option (list Z))
        (ransac : nat -> list point -> option (list bool))
        (ransac_min_samples : Z) (xyz : list point) (valid : list bool)
        (n : nat) (st st' : state) (b : bool) (id_ : Z) (cluster : list bool)
        (j : nat) :
  reaches dbscan_fit ransac ransac_min_samples xyz (init_state valid n) st ->
  round dbscan_fit ransac ransac_min_samples xyz st = Ret (st', b) ->
  In (FitRejected id_ cluster) (new_log st st') ->
  nth j cluster false = true ->
  nth j (iter_mask st') false = true /\
  nth j (track_id st') (-1)%Z = (-1)%Z.
Proof.
  intros Hreach Hr Hin Hj.
  assert (Hinv : loop_inv valid st').
  { eapply round_inv; [|exact Hr].
    eapply reaches_inv; [exact Hreach|apply init_state_inv]. }
  destruct (round_log _ _ _ _ _ Hr)
    as [track_ids [new [_ [_ [Hl [_ [_ Hrej]]]]]]].
  rewrite (@new_log_app _ _ _ Hl) in Hin.
  destruct (Hrej _ _ Hin) as [_ [_ [_ Hel]]].
  specialize (Hel _ Hj). split; [exact Hel|].
  apply (inv_eligible Hinv). exact Hel.
Qed.

Lemma rejected_cluster_stays_eligible_witness :
  round (Dbscan.fit eps2_default 3) ransac_first_fails 2 two_groups
        (init_state (repeat true 6) 0) = Ret (two_groups_round1, false) /\
  nth 0 (iter_mask two_groups_round1) false = true /\
  nth 0 (track_id two_groups_round1) (-1)%Z = (-1)%Z.
Proof.
  assert (H : round (Dbscan.fit eps2_default 3) ransac_first_fails 2 two_groups
                    (init_state (repeat true 6) 0)
              = Ret (two_groups_round1, false)) by (vm_compute; reflexivity).
  split; [exact H|].
  apply (@rejected_cluster_stays_eligible _ (Dbscan.fit eps2_default 3)
           ransac_first_fails 2 two_groups (repeat true 6) 0
           (init_state (repeat true 6) 0) two_groups_round1 false 0%Z
           [true; true; true; false; false; false] 0).
  - apply reaches_refl.
  - exact H.
  - vm_compute. left. reflexivity.
  - reflexivity.
Defined.

(** C3, as stated, fails: with two groups of three hits and a fit that finds
    no consensus on its first call, the first group is discarded in the first
    round, is still eligible when that round ends, and ends the event with
    label 1. *)
Lemma discarded_points_not_retired :
  ~ discarded_points_retired (Dbscan.fit eps2_default 3) ransac_first_fails 2
      two_groups (repeat true 6).
Proof.
  intros Hclaim.
  destruct (Hclaim (init_state (repeat true 6) 0) two_groups_round1 0%Z
                   [true; true; true; false; false; false] 0) as [Hel _].
  - apply reaches_refl.
  - vm_compute. reflexivity.
  - vm_compute. left. reflexivity.
  - reflexivity.
  - vm_compute in Hel. discriminate.
Qed.

Lemma discarded_points_labelled_later :
  find_tracks_event (Dbscan.fit eps2_default 3) ransac_first_fails 2 5
                    two_groups (repeat true 6) 0 = Ret two_groups_end /\
  In (FitRejected 0 [true; true; true; false; false; false])
     (log two_groups_end) /\
  nth 0 (track_id two_groups_end) (-1)%Z = 1%Z.
Proof. vm_compute. repeat split. left. reflexivity. Qed.

(** The rows returned for a batch are the labels of its events, each found
    by the per-event loop. *)
Lemma find_tracks_rows_events {point : Type}
      (dbscan_fit : list point -> option (list Z))
      (ransac : nat -> list point -> option (list bool))
      (ransac_min_samples : Z) (fuel : nat)
      (rows : list (list point * list bool)) :
  forall n out,
    find_tracks_rows dbscan_fit ransac ransac_min_samples fuel rows n = Ret out ->
    Forall2 (fun row labels =>
               exists n' st,
                 find_tracks_event dbscan_fit ransac ransac_min_samples fuel
                                   (fst row) (snd row) n' = Ret st /\
                 track_id st = labels)
            rows out.
Proof.
  induction rows as [|[xyz valid] rows IH]; intros n out H; simpl in H.
  - inversion H. constructor.
  - apply bind_Ret in H. destruct H as [st [Hst H]].
    apply bind_Ret in H. destruct H as [rest [Hrest H]].
    inversion H; subst. constructor.
    + exists n, st. auto.
    + eapply IH. exact Hrest.
Qed.

(** *** Rounds that neither accept a cluster nor break *)

(** C2 (the loop need not halt).  Two hits one unit apart, clustered with
    [min_samples = 2] and fitted with [ransac_min_samples = 2]: every round
    finds the same two-point cluster, skips it as too small, and goes round
    again, whatever the fitting routine would answer. *)
Theorem two_hits_never_halt
        (ransac : nat -> list Dbscan.ipoint -> option (list bool)) (fuel : nat) :
  find_tracks_event (Dbscan.fit eps2_default 2) ransac 2 fuel
                    two_hits [true; true] 0 = OutOfFuel.
Proof.
  unfold find_tracks_event.
  apply no_progress_diverges
    with (st := init_state [true; true] 0)
         (st' := add_log (init_state [true; true] 0) (SkippedSmall 0)).
  - vm_compute. reflexivity.
  - reflexivity.
  - reflexivity.
Qed.

Lemma three_hits_round (n : nat) (lg : list action) :
  round (Dbscan.fit eps2_default 3) ransac_never 2 three_hits
        (mkState [-1; -1; -1]%Z [true; true; true] (-1) n lg)
  = Ret (mkState [-1; -1; -1]%Z [true; true; true] (-1) (S n)
                 (lg ++ [FitRejected 0 [true; true; true]]), false).
Proof. vm_compute. reflexivity. Qed.

Lemma three_hits_loop (fuel : nat) :
  forall n lg,
    while_true (Dbscan.fit eps2_default 3) ransac_never 2 fuel three_hits
               (mkState [-1; -1; -1]%Z [true; true; true] (-1) n lg)
    = OutOfFuel.
Proof.
  induction fuel as [|fuel IH]; intros n lg; [reflexivity|].
  cbn [while_true]. rewrite three_hits_round. cbn [bind snd fst]. apply IH.
Qed.

(** C4 (degenerate inputs that stop the processing).  An event with a single
    valid hit, clustered with [min_samples = 1], never leaves the loop,
    whatever the fitting routine; neither does an event whose only cluster
    never gets two inliers. *)
Theorem degenerate_events_never_halt :
  (forall (ransac : nat -> list Dbscan.ipoint -> option (list bool)) fuel,
      find_tracks_event (Dbscan.fit eps2_default 1) ransac 2 fuel
                        one_hit [true] 0 = OutOfFuel) /\
  (forall fuel,
      find_tracks_event (Dbscan.fit eps2_default 3) ransac_never 2 fuel
                        three_hits [true; true; true] 0 = OutOfFuel).
Proof.
  split.
  - intros ransac fuel. unfold find_tracks_event.
    apply no_progress_diverges
      with (st := init_state [true] 0)
           (st' := add_log (init_state [true] 0) (SkippedSmall 0)).
    + vm_compute. reflexivity.
    + reflexivity.
    + reflexivity.
  - intros fuel. apply three_hits_loop.
Qed.

(** With the library's refusal of an empty array, an event without a valid
    hit raises in its first round. *)
Lemma no_valid_hit_raises
      (ransac : nat -> list Dbscan.ipoint -> option (list bool))
      (eps2 : Z) (min_samples : nat) (rms : Z) (fuel : nat)
      (xyz : list Dbscan.ipoint) :
  find_tracks_event (Dbscan.fit eps2 min_samples) ransac rms (S fuel) xyz
                    (repeat false (length xyz)) 0
  = Raise LibraryError.
Proof.
  unfold find_tracks_event. cbn [while_true]. unfold round, _do_dbscan.
  replace (Np.select xyz (iter_mask (init_state (repeat false (length xyz)) 0)))
    with (@nil Dbscan.ipoint); [reflexivity|].
  simpl. induction xyz; simpl; auto.
Qed.

(** A round in which every point is noise ends the loop and changes
    nothing. *)
Lemma for_clusters_noise {point : Type}
      (ransac : nat -> list point -> option (list bool))
      (ransac_min_samples : Z) (xyz : list point) (track_ids : list Z)
      (st : state) (ids : list Z) :
  (forall id_, In id_ ids -> id_ = (-1)%Z) ->
  for_clusters ransac ransac_min_samples xyz track_ids ids st = Ret st.
Proof.
  induction ids as [|id_ ids IH]; intros H; simpl; [reflexivity|].
  unfold cluster_step. rewrite (H id_ (or_introl eq_refl)). simpl.
  apply IH. intros i Hi. apply H. right. exact Hi.
Qed.

Lemma all_noise_halts {point : Type}
      (dbscan_fit : list point -> option (list Z))
      (ransac : nat -> list point -> option (list bool))
      (ransac_min_samples : Z) (xyz : list point) (st : state)
      (track_ids : list Z) (fuel : nat) :
  _do_dbscan dbscan_fit xyz (iter_mask st) = Ret track_ids ->
  Np.all (Np.eq_scalar track_ids (-1)) = true ->
  while_true dbscan_fit ransac ransac_min_samples (S fuel) xyz st = Ret st.
Proof.
  intros Hd Hall. cbn [while_true]. unfold round. rewrite Hd. cbn [bind].
  assert (Hids : forall id_, In id_ (Np.unique track_ids) -> id_ = (-1)%Z).
  { intros id_ Hin. rewrite unique_In in Hin.
    unfold Np.all, Np.eq_scalar in Hall. rewrite forallb_forall in Hall.
    specialize (Hall (id_ =? -1)%Z).
    apply Z.eqb_eq. apply Hall. apply in_map_iff. exists id_. auto. }
  rewrite (for_clusters_noise ransac ransac_min_samples xyz track_ids st _ Hids).
  cbn [bind snd fst]. unfold loop_done. rewrite Hall. reflexivity.
Qed.

(** ** Properties of the track geometry *)

Lemma xyp_returns (axis centroid : vec3) :
  exists p, xyp axis centroid = Some p.
Proof.
  unfold xyp, checked_div.
  destruct (Req_dec_T (vz axis) 0%R); eauto.
Qed.

(** C9.  [xyp] always returns a point.  When the axis has a non-zero z
    component the point is the (x, y) of the point of the line
    [centroid + s * axis] that lies in the plane z = 0, the parameter [s]
    being the quotient [-centroid_z / axis_z]; when the z component is zero
    it is the (x, y) of the centroid, and no quotient is formed. *)
Theorem xyp_total (axis centroid : vec3) :
  exists p,
    xyp axis centroid = Some p /\
    (vz axis = 0%R -> p = (vx centroid, vy centroid)) /\
    (vz axis <> 0%R ->
     exists s,
       checked_div (- vz centroid)%R (vz axis) = Some s /\
       vz (vadd centroid (vscale axis s)) = 0%R /\
       p = (vx (vadd centroid (vscale axis s)),
            vy (vadd centroid (vscale axis s)))).
Proof.
  unfold xyp, checked_div.
  destruct (Req_dec_T (vz axis) 0%R) as [Hz|Hz].
  - eexists. split; [reflexivity|]. split; [reflexivity|].
    intros Hne. contradiction.
  - eexists. split; [reflexivity|]. split; [intros; contradiction|].
    intros _. eexists. split; [reflexivity|]. split; [|reflexivity].
    unfold vadd, vscale, vz. simpl. field. exact Hz.
Qed.

(** In every slot the reported end position is the reported start position
    (both are [r_min], lines 181-182), while the reported length is the
    distance from [r_min] to [r_max]. *)
Lemma calc_slot_endpoints (pca_component : list vec3 -> vec3)
      (arctan2 : R -> R -> R) (id0 : Z) (hits_i : list hit)
      (xyz_i : list vec3) (t0_i : t0_entry) (mask : list bool) (t : tracklet) :
  calc_slot pca_component arctan2 id0 hits_i xyz_i t0_i mask = Ret t ->
  let ca := _do_pca pca_component xyz_i mask in
  let lim := _projected_limits (fst ca) (snd ca) (Np.select xyz_i mask) in
  spatial (t_start t) = fst lim /\
  spatial (t_end t) = fst lim /\
  t_length t = norm (vsub (snd lim) (fst lim)).
Proof.
  unfold calc_slot. intros H.
  destruct (_do_pca pca_component xyz_i mask) as [centroid axis].
  cbn [fst snd].
  destruct (_projected_limits centroid axis (Np.select xyz_i mask))
    as [r_min r_max]. cbn [fst snd].
  destruct (xyp axis centroid); [|discriminate].
  injection H as Ht. subst t. cbn. repeat split; reflexivity.
Qed.

Lemma calc_slot_nhit (pca_component : list vec3 -> vec3)
      (arctan2 : R -> R -> R) (id0 : Z) (hits_i : list hit)
      (xyz_i : list vec3) (t0_i : t0_entry) (mask : list bool) (t : tracklet) :
  calc_slot pca_component arctan2 id0 hits_i xyz_i t0_i mask = Ret t ->
  t_nhit t = Z.of_nat (Np.count_nonzero mask).
Proof.
  unfold calc_slot. intros H.
  destruct (_do_pca pca_component xyz_i mask) as [centroid axis].
  destruct (_projected_limits centroid axis (Np.select xyz_i mask))
    as [r_min r_max].
  destruct (xyp axis centroid); [|discriminate].
  injection H as Ht. subst t. reflexivity.
Qed.

(** [calc_slot] never raises: its only partial step is [xyp]. *)
Lemma calc_slot_returns (pca_component : list vec3 -> vec3)
      (arctan2 : R -> R -> R) (id0 : Z) (hits_i : list hit)
      (xyz_i : list vec3) (t0_i : t0_entry) (mask : list bool) :
  exists t, calc_slot pca_component arctan2 id0 hits_i xyz_i t0_i mask = Ret t.
Proof.
  unfold calc_slot.
  destruct (_do_pca pca_component xyz_i mask) as [centroid axis].
  destruct (_projected_limits centroid axis (Np.select xyz_i mask))
    as [r_min r_max].
  destruct (xyp_returns axis centroid) as [p Hp]. rewrite Hp. eauto.
Qed.

(** *** The slot of two hits on the z axis *)

Lemma vec3_eq (a b c a' b' c' : R) :
  a = a' -> b = b' -> c = c' -> ((a, b, c) : vec3) = (a', b', c').
Proof. intros -> -> ->. reflexivity. Qed.

Lemma z_axis_pca :
  _do_pca pca_z [pt_a; pt_b] [true; true] = ((0, 0, 1)%R, (0, 0, 1)%R).
Proof.
  unfold _do_pca, pca_z, vmean, vsum, vdiv, norm, dot, vadd, vzero, pt_a, pt_b,
    vx, vy, vz. simpl.
  replace (0 * 0 + 0 * 0 + 1 * 1)%R with 1%R by ring. rewrite sqrt_1.
  f_equal; apply vec3_eq; lra.
Qed.

Lemma z_axis_limits :
  _projected_limits (0, 0, 1)%R (0, 0, 1)%R [pt_a; pt_b] = (pt_a, pt_b).
Proof.
  unfold _projected_limits, Rlist_max, Rlist_min, amin, amax, fold1, clip,
    vmin, vmax, vadd, vsub, vscale, dot, pt_a, pt_b, vx, vy, vz. simpl.
  f_equal; apply vec3_eq; eval_minmax.
Qed.

Lemma two_hits_xyz :
  _hit_xyz 1 1 z_is_drift [[hit_a; hit_b]] [t0_zero] = [[pt_a; pt_b]].
Proof.
  unfold _hit_xyz, hit_xyz, z_is_drift, hit_a, hit_b, t0_zero, pt_a, pt_b.
  simpl. repeat f_equal; lra.
Qed.

(** C1 (the reported length is not the distance between the reported
    endpoints).  For two hits at (0,0,0) and (0,0,2) the slot has length 2,
    while its start and end positions are the same point, at distance 0. *)
Theorem length_differs_from_endpoint_distance :
  exists t,
    calc_slot pca_z no_arctan2 0 [hit_a; hit_b] [pt_a; pt_b] t0_zero
              [true; true] = Ret t /\
    t_length t = 2%R /\
    spatial (t_start t) = pt_a /\
    spatial (t_end t) = pt_a /\
    norm (vsub (spatial (t_end t)) (spatial (t_start t))) = 0%R.
Proof.
  destruct (calc_slot_returns pca_z no_arctan2 0 [hit_a; hit_b] [pt_a; pt_b]
                              t0_zero [true; true]) as [t Ht].
  exists t. split; [exact Ht|].
  pose proof (calc_slot_endpoints _ _ _ _ _ _ _ Ht) as H.
  cbv zeta in H. rewrite z_axis_pca in H. cbn [fst snd Np.select] in H.
  rewrite z_axis_limits in H. cbn [fst snd] in H.
  destruct H as [Hs [He Hl]]. rewrite Hs, He, Hl.
  split; [|split; [reflexivity|split; [reflexivity|]]].
  - unfold norm, dot, vsub, pt_a, pt_b, vx, vy, vz. simpl.
    replace ((0 - 0) * (0 - 0) + (0 - 0) * (0 - 0) + (2 - 0) * (2 - 0))%R
      with (2 * 2)%R by ring.
    apply sqrt_square. lra.
  - unfold norm, dot, vsub, pt_a, vx, vy, vz. simpl.
    replace ((0 - 0) * (0 - 0) + (0 - 0) * (0 - 0) + (0 - 0) * (0 - 0))%R
      with 0%R by ring.
    apply sqrt_0.
Qed.

(** *** The table built by [calc_tracks] *)

Lemma mapM_length {A B : Type} (f : A -> outcome B) (l : list A) :
  forall r, mapM f l = Ret r -> length r = length l.
Proof.
  induction l as [|a l IH]; intros r H; simpl in H.
  - inversion H. reflexivity.
  - apply bind_Ret in H. destruct H as [b [_ H]].
    apply bind_Ret in H. destruct H as [bs [Hbs H]].
    inversion H. simpl. f_equal. apply IH. exact Hbs.
Qed.


Lemma nth_error_combine {A B : Type} (l1 : list A) :
  forall (l2 : list B) i a b,
    nth_error (combine l1 l2) i = Some (a, b) ->
    nth_error l1 i = Some a /\ nth_error l2 i = Some b.
Proof.
  induction l1 as [|x l1 IH]; intros [|y l2] [|i] a b H; simpl in *;
    try discriminate.
  - inversion H. auto.
  - apply IH. exact H.
Qed.


Lemma fold_left_Zmax_le (l : list Z) :
  forall x y, In y (x :: l) -> (y <= fold_left Z.max l x)%Z.
Proof.
  induction l as [|z l IH]; intros x y Hy; simpl in *.
  - destruct Hy as [->|[]]. lia.
  - destruct Hy as [->|[->|Hy]].
    + specialize (IH (Z.max y z) (Z.max y z) (or_introl eq_refl)). lia.
    + specialize (IH (Z.max x y) (Z.max x y) (or_introl eq_refl)). lia.
    + apply IH. right. exact Hy.
Qed.

Lemma Zlist_max_ge (l : list Z) (y : Z) : In y l -> (y <= Zlist_max l)%Z.
Proof.
  destruct l as [|x l]; [intros []|]. apply fold_left_Zmax_le.
Qed.

Lemma select_count {A : Type} (xs : list A) :
  forall m, length (Np.select xs m) <= Np.count_nonzero m.
Proof.
  induction xs as [|x xs IH]; intros [|b m]; simpl; try lia.
  destruct b; simpl; specialize (IH m); lia.
Qed.

Lemma count_nonzero_app (a b : list bool) :
  Np.count_nonzero (a ++ b) = Np.count_nonzero a + Np.count_nonzero b.
Proof. induction a as [|[] a IH]; simpl; lia. Qed.

Lemma unmasked_length (a : masked_ids) :
  length (unmasked a) <= count_unmasked a.
Proof.
  unfold unmasked, count_unmasked. destruct a as [data mask]. simpl.
  revert mask. induction data as [|d data IH]; intros [|m mask]; simpl; try lia.
  rewrite length_app, map_app, count_nonzero_app.
  specialize (IH mask). pose proof (select_count d (map negb m)). lia.
Qed.

(** Every label carried by an unmasked hit has its column in the table. *)
Lemma label_below_n_tracks (a : masked_ids) (l : Z) :
  In l (unmasked a) -> (l < n_tracks_of a)%Z.
Proof.
  intros Hin. unfold n_tracks_of.
  destruct (count_unmasked a =? 0)%nat eqn:E.
  - apply Nat.eqb_eq in E. pose proof (unmasked_length a) as Hl.
    destruct (unmasked a); [destruct Hin|simpl in Hl; lia].
  - pose proof (Zlist_max_ge _ _ Hin). unfold ma_max. lia.
Qed.

Lemma Forall2_nth_error_r {A B : Type} (R : A -> B -> Prop) (l1 : list A)
      (l2 : list B) :
  Forall2 R l1 l2 ->
  forall i b, nth_error l2 i = Some b ->
              exists a, nth_error l1 i = Some a /\ R a b.
Proof.
  induction 1 as [|a b l1 l2 Hab _ IH]; intros i y Hi.
  - destruct i; discriminate.
  - destruct i as [|i]; simpl in *.
    + inversion Hi; subst. eauto.
    + apply IH. exact Hi.
Qed.


Lemma calc_slot_opt_spec (pca_component : list vec3 -> vec3)
      (arctan2 : R -> R -> R) (id0 : Z) (hits_i : list hit)
      (xyz_i : list vec3) (t0_i : t0_entry) (ids : list Z) (msk : list bool)
      (j : nat) (s : slot) :
  calc_slot_opt pca_component arctan2 id0 hits_i xyz_i t0_i ids msk j = Ret s ->
  (s = None <-> Np.count_nonzero (slot_mask ids msk j) < 2) /\
  (forall t, s = Some t ->
             t_nhit t = Z.of_nat (Np.count_nonzero (slot_mask ids msk j))).
Proof.
  unfold calc_slot_opt.
  destruct (Np.count_nonzero (slot_mask ids msk j) <? 2) eqn:E.
  - apply Nat.ltb_lt in E. intros H. inversion H; subst.
    split; [tauto|]. intros t Ht. discriminate.
  - apply Nat.ltb_ge in E. intros H.
    apply bind_Ret in H. destruct H as [t [Ht H]]. inversion H; subst.
    split.
    + split; [discriminate|lia].
    + intros t' Ht'. inversion Ht'; subst. eapply calc_slot_nhit; eauto.
Qed.

Lemma nth_error_combine_intro {A B : Type} (l1 : list A) :
  forall (l2 : list B) i a b,
    nth_error l1 i = Some a -> nth_error l2 i = Some b ->
    nth_error (combine l1 l2) i = Some (a, b).
Proof.
  induction l1 as [|x l1 IH]; intros [|y l2] [|i] a b H1 H2; simpl in *;
    try discriminate.
  - congruence.
  - apply IH; assumption.
Qed.






Lemma mapM_total {A B : Type} (f : A -> outcome B) (l : list A) :
  (forall a, In a l -> exists b, f a = Ret b) ->
  exists r, mapM f l = Ret r.
Proof.
  induction l as [|a l IH]; intros H; simpl.
  - eauto.
  - destruct (H a (or_introl eq_refl)) as [b Hb]. rewrite Hb. cbn [bind].
    destruct (IH (fun x Hx => H x (or_intror Hx))) as [r Hr].
    rewrite Hr. cbn [bind]. eauto.
Qed.

Lemma calc_slot_opt_returns (pca_component : list vec3 -> vec3)
      (arctan2 : R -> R -> R) (id0 : Z) (hits_i : list hit)
      (xyz_i : list vec3) (t0_i : t0_entry) (ids : list Z) (msk : list bool)
      (j : nat) :
  exists s,
    calc_slot_opt pca_component arctan2 id0 hits_i xyz_i t0_i ids msk j
    = Ret s.
Proof.
  unfold calc_slot_opt. destruct (_ <? 2); [eauto|].
  destruct (calc_slot_returns pca_component arctan2 id0 hits_i xyz_i t0_i
                              (slot_mask ids msk j)) as [t Ht].
  rewrite Ht. cbn [bind]. eauto.
Qed.

(** [calc_tracks] returns a table unless [n_tracks] is negative. *)
Lemma calc_tracks_returns (v_drift crs_ticks : R)
      (get_z_coordinate : Z -> Z -> R -> R)
      (pca_component : list vec3 -> vec3) (arctan2 : R -> R -> R)
      (empty_id : nat -> nat -> Z) (hits : list (list hit))
      (t0 : list t0_entry) (track_ids : masked_ids) :
  (0 <= n_tracks_of track_ids)%Z ->
  exists tracks,
    calc_tracks v_drift crs_ticks get_z_coordinate pca_component arctan2
                empty_id hits t0 track_ids = Ret tracks.
Proof.
  intros Hn. unfold calc_tracks.
  destruct (n_tracks_of track_ids <? 0)%Z eqn:E; [apply Z.ltb_lt in E; lia|].
  apply mapM_total. intros [i [[[[h x] t] d] m]] _. unfold calc_row.
  apply mapM_total. intros j _. apply calc_slot_opt_returns.
Qed.

(** The table has one row per event. *)
Lemma calc_tracks_length (v_drift crs_ticks : R)
      (get_z_coordinate : Z -> Z -> R -> R)
      (pca_component : list vec3 -> vec3) (arctan2 : R -> R -> R)
      (empty_id : nat -> nat -> Z) (hits : list (list hit))
      (t0 : list t0_entry) (track_ids : masked_ids) (tracks : table) :
  length hits = length t0 ->
  length (ma_data track_ids) = length t0 ->
  length (ma_mask track_ids) = length t0 ->
  calc_tracks v_drift crs_ticks get_z_coordinate pca_component arctan2
              empty_id hits t0 track_ids = Ret tracks ->
  length tracks = length t0.
Proof.
  intros Hh Hd Hm H. unfold calc_tracks in H.
  destruct (n_tracks_of track_ids <? 0)%Z; [discriminate|].
  rewrite (mapM_length _ _ H), length_combine, length_seq.
  unfold batch_rows, _hit_xyz.
  rewrite !length_combine, length_map, length_combine. lia.
Qed.

(** The rows returned by [find_tracks] and their mask have the shape of the
    batch. *)
Lemma find_tracks_shape (v_drift crs_ticks : R)
      (get_z_coordinate : Z -> Z -> R -> R)
      (dbscan_fit : list vec3 -> option (list Z))
      (ransac : nat -> list vec3 -> option (list bool))
      (ransac_min_samples : Z) (fuel : nat) (hits : list (list hit))
      (t0 : list t0_entry) (track_ids : masked_ids) :
  length hits = length t0 ->
  find_tracks v_drift crs_ticks get_z_coordinate dbscan_fit ransac
              ransac_min_samples fuel hits t0 = Ret track_ids ->
  length (ma_data track_ids) = length t0 /\
  length (ma_mask track_ids) = length t0.
Proof.
  intros Hh H. unfold find_tracks in H.
  apply bind_Ret in H. destruct H as [rows [Hrows H]].
  injection H as <-. cbn [ma_data ma_mask].
  pose proof (find_tracks_rows_events _ _ _ _ _ _ Hrows) as HF.
  apply Forall2_length in HF.
  rewrite length_combine in HF. unfold _hit_xyz in HF.
  rewrite !length_map, length_combine in *. lia.
Qed.




(** *** Batches without any accepted track *)

Lemma fold_left_Zmax_const (l : list Z) (c : Z) :
  Forall (eq c) l -> fold_left Z.max l c = c.
Proof.
  induction 1 as [|x l <- _ IH]; simpl; [reflexivity|].
  rewrite Z.max_id. exact IH.
Qed.

(** When some hit is valid and every valid hit is unlabelled, [n_tracks] is
    0; when no hit is valid it is 1. *)
Lemma n_tracks_all_noise (a : masked_ids) :
  unmasked a <> [] -> Forall (eq (-1)%Z) (unmasked a) ->
  n_tracks_of a = 0%Z.
Proof.
  intros Hne Hall. unfold n_tracks_of.
  pose proof (unmasked_length a) as Hl.
  destruct (count_unmasked a =? 0)%nat eqn:E.
  - apply Nat.eqb_eq in E. destruct (unmasked a); [congruence|simpl in Hl; lia].
  - unfold ma_max, Zlist_max, fold1.
    destruct (unmasked a) as [|x l]; [congruence|].
    inversion Hall as [|? ? Hx Hl']; subst.
    rewrite fold_left_Zmax_const by exact Hl'. reflexivity.
Qed.

Lemma n_tracks_no_valid_hit (a : masked_ids) :
  count_unmasked a = 0 -> n_tracks_of a = 1%Z.
Proof. intros H. unfold n_tracks_of. rewrite H. reflexivity. Qed.

(** C10 (a batch whose valid hits are all unlabelled gets no column).  For
    one event with one valid hit labelled -1, [calc_tracks] returns a table
    with one row and no slot in it, whereas the same event with its hit
    masked gets one masked slot. *)
Theorem all_noise_batch_has_zero_width :
  calc_tracks 1 1 z_is_drift pca_z no_arctan2 zero_id [[hit_a]] [t0_zero]
              (mkMasked [[-1]%Z] [[false]]) = Ret [[]] /\
  calc_tracks 1 1 z_is_drift pca_z no_arctan2 zero_id
              [[mkHit true 0 0 0 0 0 0]] [t0_zero]
              (mkMasked [[-1]%Z] [[true]]) = Ret [[None]].
Proof. split; vm_compute; reflexivity. Qed.

(** On that batch [run] fails in [np.take_along_axis]: index -1 does not
    exist in a row without slots. *)
Lemma run_all_noise_batch_raises :
  run 1 1 z_is_drift pca_z no_arctan2 all_noise keep_all 2 zero_id
      (reserve_from 0) 1 (0, 1)%Z [t0_zero] [[hit_a]] [[0%Z]]
  = Raise IndexError.
Proof. vm_compute. reflexivity. Qed.

(** ** Properties of the identifier assignment *)

Lemma arange_length (start : Z) (n : nat) :
  length (arange start (start + Z.of_nat n)) = n.
Proof. unfold arange. rewrite length_map, length_seq. lia. Qed.





Lemma place_row_spec (vals : list Z) (row : list slot) :
  forall k,
    snd (place_row vals k row) = k + Np.count_nonzero (map is_valid row) /\
    map is_valid (fst (place_row vals k row)) = map is_valid row /\
    map t_id (filter_map (fun s => s) (fst (place_row vals k row))) =
    map (fun i => nth (i mod length vals) vals 0%Z)
        (seq k (Np.count_nonzero (map is_valid row))).
Proof.
  induction row as [|[t|] row IH]; intros k; simpl.
  - auto.
  - destruct (IH (S k)) as [H1 [H2 H3]].
    destruct (place_row vals (S k) row) as [r k']. simpl in *.
    split; [lia|]. split; [f_equal; exact H2|]. f_equal. exact H3.
  - destruct (IH k) as [H1 [H2 H3]].
    destruct (place_row vals k row) as [r k']. simpl in *.
    split; [exact H1|]. split; [f_equal; exact H2|]. exact H3.
Qed.

Lemma place_rows_spec (vals : list Z) (tracks : table) :
  forall k,
    tracks_mask (place_rows vals k tracks) = tracks_mask tracks /\
    ids_of (place_rows vals k tracks) =
    map (fun i => nth (i mod length vals) vals 0%Z) (seq k (n_valid tracks)).
Proof.
  unfold ids_of, valid_tracks, n_valid, tracks_mask.
  induction tracks as [|row tracks IH]; intros k; simpl; [auto|].
  destruct (place_row_spec vals row k) as [H1 [H2 H3]].
  destruct (place_row vals k row) as [r k']. simpl in *.
  destruct (IH k') as [H4 H5].
  split; [f_equal; assumption|].
  rewrite filter_map_app, map_app, count_nonzero_app, seq_app, map_app.
  f_equal; [exact H3|]. rewrite H5, H1. reflexivity.
Qed.






(** * Further properties of the cluster finder *)

Lemma count_nonzero_none (m : list bool) :
  (forall j, nth j m false = false) -> Np.count_nonzero m = 0.
Proof.
  induction m as [|b m IH]; intros H; simpl; [reflexivity|].
  rewrite (H 0 : b = false). simpl. apply IH. intros j. exact (H (S j)).
Qed.

Lemma count_nonzero_mono (a : list bool) :
  forall b, (forall j, nth j a false = true -> nth j b false = true) ->
            Np.count_nonzero a <= Np.count_nonzero b.
Proof.
  induction a as [|x a IH]; intros b H; simpl; [lia|].
  destruct b as [|y b].
  - destruct x.
    + specialize (H 0 eq_refl). discriminate.
    + rewrite (count_nonzero_none a); [simpl; lia|].
      intros j. destruct (nth j a false) eqn:E; auto.
      specialize (H (S j) E). destruct j; discriminate.
  - simpl. specialize (IH b (fun j => H (S j))).
    destruct x.
    + rewrite (H 0 eq_refl : y = true). lia.
    + destruct y; simpl; lia.
Qed.

(** Clearing a set of eligible flags lowers their number by its size. *)
Lemma count_fill_false (im : list bool) :
  forall m, (forall j, nth j m false = true -> nth j im false = true) ->
            Np.count_nonzero (Np.fill_masked im m false) + Np.count_nonzero m
            = Np.count_nonzero im.
Proof.
  induction im as [|x im IH]; intros m H.
  - simpl. rewrite (count_nonzero_none m); [reflexivity|].
    intros j. destruct (nth j m false) eqn:E; auto.
    specialize (H j E). destruct j; discriminate.
  - destruct m as [|b m]; [simpl; lia|].
    cbn [Np.fill_masked Np.count_nonzero].
    specialize (IH m (fun j => H (S j))).
    destruct b.
    + rewrite (H 0 eq_refl : x = true). lia.
    + lia.
Qed.

(** A property of the state that skipping keeps and that accepting or
    rejecting a fitted cluster keeps is kept by the whole loop. *)
Section Preservation.

Variable point : Type.
Variable dbscan_fit : list point -> option (list Z).
Variable ransac : nat -> list point -> option (list bool).
Variable ransac_min_samples : Z.
Variable valid : list bool.
Variable P : state -> Prop.

Hypothesis P_skip :
  forall st id_, P st -> P (add_log st (SkippedSmall id_)).
Hypothesis P_fit :
  forall st id_ cluster mask,
    loop_inv valid st -> P st ->
    (forall j, nth j mask false = true -> nth j (iter_mask st) false = true) ->
    P (after_fit st id_ cluster mask).

Lemma cluster_step_keeps (xyz : list point) (track_ids : list Z)
      (st st' : state) (id_ : Z) :
  loop_inv valid st -> P st ->
  eligible_cluster track_ids st id_ ->
  cluster_step ransac ransac_min_samples xyz track_ids st id_ = Ret st' ->
  P st'.
Proof.
  intros Hinv HP Hel H.
  destruct (@cluster_step_cases _ ransac ransac_min_samples _ _ _ _ _ H)
    as [[_ ->]|[[_ [_ ->]]|[Hid [_ [inl [mask' [_ [E ->]]]]]]]]; auto.
  apply P_fit; auto.
  intros j Hj. apply (Hel j); [|exact Hid].
  apply (@inliers_inside _ _ _ _ E) in Hj.
  rewrite nth_eq_scalar in Hj by exact Hid. apply Z.eqb_eq. exact Hj.
Qed.

Lemma for_clusters_keeps (xyz : list point) (track_ids : list Z)
      (ids : list Z) :
  forall st st',
    NoDup ids ->
    loop_inv valid st -> P st ->
    (forall id_, In id_ ids -> eligible_cluster track_ids st id_) ->
    for_clusters ransac ransac_min_samples xyz track_ids ids st = Ret st' ->
    P st'.
Proof.
  induction ids as [|id_ ids IH]; intros st st' Hnd Hinv HP Hel H; simpl in H.
  - inversion H; subst. exact HP.
  - apply bind_Ret in H. destruct H as [st1 [H1 H2]].
    inversion Hnd as [|? ? Hnotin Hnd']; subst.
    destruct (@cluster_step_inv _ ransac ransac_min_samples valid xyz
                track_ids st st1 id_ Hinv (Hel id_ (or_introl eq_refl)) H1)
      as [Hinv1 Hframe1].
    apply (IH st1 st' Hnd' Hinv1).
    + exact (@cluster_step_keeps xyz track_ids st st1 id_ Hinv HP
                                 (Hel id_ (or_introl eq_refl)) H1).
    + intros id' Hin j Hj Hne. rewrite Hframe1.
      * apply (Hel id'); auto. right. exact Hin.
      * rewrite Hj. intros ->. contradiction.
    + exact H2.
Qed.

Lemma round_keeps (xyz : list point) (st st' : state) (b : bool) :
  loop_inv valid st -> P st ->
  round dbscan_fit ransac ransac_min_samples xyz st = Ret (st', b) ->
  P st'.
Proof.
  intros Hinv HP H. unfold round in H.
  apply bind_Ret in H. destruct H as [track_ids [Hd H]].
  apply bind_Ret in H. destruct H as [st1 [Hf H]].
  inversion H; subst.
  eapply for_clusters_keeps; eauto.
  - apply unique_NoDup.
  - intros id_ _. eapply do_dbscan_eligible; eauto.
Qed.

Lemma while_true_keeps (xyz : list point) (fuel : nat) :
  forall st st',
    loop_inv valid st -> P st ->
    while_true dbscan_fit ransac ransac_min_samples fuel xyz st = Ret st' ->
    P st'.
Proof.
  induction fuel as [|fuel IH]; intros st st' Hinv HP H; simpl in H;
    [discriminate|].
  apply bind_Ret in H. destruct H as [[st1 b] [Hr H]]. simpl in H.
  pose proof (@round_inv _ dbscan_fit ransac ransac_min_samples valid xyz
                _ _ _ Hinv Hr) as Hinv1.
  pose proof (@round_keeps xyz st st1 b Hinv HP Hr) as HP1.
  destruct b.
  - inversion H; subst. exact HP1.
  - eapply IH; eauto.
Qed.

End Preservation.

Lemma event_loop_inv {point : Type}
      (dbscan_fit : list point -> option (list Z))
      (ransac : nat -> list point -> option (list bool))
      (ransac_min_samples : Z) (fuel : nat) (xyz : list point)
      (valid : list bool) (n : nat) (st : state) :
  find_tracks_event dbscan_fit ransac ransac_min_samples fuel xyz valid n
  = Ret st ->
  loop_inv valid st /\ n_accepted st = (current_track_id st + 1)%Z /\
  (-1 <= current_track_id st)%Z.
Proof.
  intros H. unfold find_tracks_event in H.
  apply while_true_inv with (valid := valid) in H; [|apply init_state_inv].
  split; [exact H|].
  destruct H as [H1 H2 H3 H4 H5 H6 H7].
  assert (Hcur : (-1 <= current_track_id st)%Z).
  { specialize (H4 (length (track_id st))).
    rewrite nth_overflow in H4 by lia. lia. }
  split; [|exact Hcur].
  unfold n_accepted, accepted_labels. rewrite H7, length_map, length_seq. lia.
Qed.

Lemma eligible_budget {point : Type}
      (dbscan_fit : list point -> option (list Z))
      (ransac : nat -> list point -> option (list bool))
      (ransac_min_samples : Z) (fuel : nat) (xyz : list point)
      (valid : list bool) (n : nat) (st : state) :
  find_tracks_event dbscan_fit ransac ransac_min_samples fuel xyz valid n
  = Ret st ->
  (2 * (current_track_id st + 1) + Z.of_nat (n_eligible st)
   <= Z.of_nat (Np.count_nonzero valid))%Z.
Proof.
  intros H. unfold find_tracks_event in H.
  apply (@while_true_keeps point dbscan_fit ransac ransac_min_samples valid
           (fun s => (2 * (current_track_id s + 1) + Z.of_nat (n_eligible s)
                      <= Z.of_nat (Np.count_nonzero valid))%Z))
    with (xyz := xyz) (fuel := fuel) (st := init_state valid n).
  - intros s id_ Hs. exact Hs.
  - intros s id_ cluster mask _ Hs Hsub. unfold after_fit, n_eligible in *.
    destruct (Np.count_nonzero mask <? 2) eqn:E;
      cbn [iter_mask current_track_id]; [exact Hs|].
    apply Nat.ltb_ge in E.
    pose proof (count_fill_false (iter_mask s) mask Hsub). lia.
  - apply init_state_inv.
  - unfold n_eligible. cbn [iter_mask current_track_id init_state]. lia.
  - exact H.
Qed.

(** X1.  Every accepted cluster takes at least two hits out of the eligible
    ones: twice the number of accepted clusters plus the number of hits still
    eligible never exceeds the number of valid hits of the event. *)
Theorem accepted_tracks_bounded_by_hits {point : Type}
        (dbscan_fit : list point -> option (list Z))
        (ransac : nat -> list point -> option (list bool))
        (ransac_min_samples : Z) (fuel : nat) (xyz : list point)
        (valid : list bool) (n : nat) (st : state) :
  find_tracks_event dbscan_fit ransac ransac_min_samples fuel xyz valid n
  = Ret st ->
  (2 * n_accepted st + Z.of_nat (n_eligible st)
   <= Z.of_nat (Np.count_nonzero valid))%Z.
Proof.
  intros H. destruct (event_loop_inv _ _ _ _ _ _ _ H) as [_ [Hn _]].
  rewrite Hn. eapply eligible_budget. exact H.
Qed.

Lemma accepted_tracks_bounded_by_hits_witness :
  find_tracks_event (Dbscan.fit eps2_default 3) ransac_first_fails 2 5
                    two_groups (repeat true 6) 0 = Ret two_groups_end /\
  (2 * 2 + 0 <= 6)%Z.
Proof.
  assert (H : find_tracks_event (Dbscan.fit eps2_default 3) ransac_first_fails
                                2 5 two_groups (repeat true 6) 0
              = Ret two_groups_end) by (vm_compute; reflexivity).
  split; [exact H|].
  exact (accepted_tracks_bounded_by_hits _ _ _ _ _ _ _ H).
Defined.

(** X2.  An event with fewer than two valid hits never gets a track:
    whenever the loop returns, no cluster was accepted and every hit is
    unlabelled. *)
Theorem fewer_than_two_hits_no_track {point : Type}
        (dbscan_fit : list point -> option (list Z))
        (ransac : nat -> list point -> option (list bool))
        (ransac_min_samples : Z) (fuel : nat) (xyz : list point)
        (valid : list bool) (n : nat) (st : state) :
  Np.count_nonzero valid < 2 ->
  find_tracks_event dbscan_fit ransac ransac_min_samples fuel xyz valid n
  = Ret st ->
  n_accepted st = 0%Z /\
  forall j, nth j (track_id st) (-1)%Z = (-1)%Z.
Proof.
  intros Hv H.
  pose proof (eligible_budget _ _ _ _ _ _ _ H) as Hb.
  destruct (event_loop_inv _ _ _ _ _ _ _ H) as [Hinv [Hn Hcur]].
  assert (Hz : n_accepted st = 0%Z) by lia.
  split; [exact Hz|].
  intros j. pose proof (inv_range Hinv j). lia.
Qed.

Lemma fewer_than_two_hits_no_track_witness :
  Np.count_nonzero [true] < 2 /\
  find_tracks_event (Dbscan.fit eps2_default 5) ransac_all 2 3 one_hit [true] 0
  = Ret (init_state [true] 0) /\
  n_accepted (init_state [true] 0) = 0%Z.
Proof.
  assert (Hv : Np.count_nonzero [true] < 2) by (simpl; lia).
  assert (H : find_tracks_event (Dbscan.fit eps2_default 5) ransac_all 2 3
                                one_hit [true] 0 = Ret (init_state [true] 0))
    by (vm_compute; reflexivity).
  split; [exact Hv|]. split; [exact H|].
  exact (proj1 (fewer_than_two_hits_no_track _ _ _ _ _ _ _ Hv H)).
Defined.

Lemma label_hits_kept {point : Type}
      (dbscan_fit : list point -> option (list Z))
      (ransac : nat -> list point -> option (list bool))
      (ransac_min_samples : Z) (fuel : nat) (xyz : list point)
      (valid : list bool) (n : nat) (st : state) :
  find_tracks_event dbscan_fit ransac ransac_min_samples fuel xyz valid n
  = Ret st ->
  forall k, (0 <= k <= current_track_id st)%Z ->
            2 <= n_hits_with (track_id st) k.
Proof.
  intros H. unfold find_tracks_event in H.
  apply (@while_true_keeps point dbscan_fit ransac ransac_min_samples valid
           (fun s => forall k, (0 <= k <= current_track_id s)%Z ->
                               2 <= n_hits_with (track_id s) k))
    with (xyz := xyz) (fuel := fuel) (st := init_state valid n).
  - intros s id_ Hs. exact Hs.
  - intros s id_ cluster mask Hinv Hs Hsub. unfold after_fit.
    destruct (Np.count_nonzero mask <? 2) eqn:E;
      cbn [track_id current_track_id]; [exact Hs|].
    apply Nat.ltb_ge in E.
    assert (Hcur : (-1 <= current_track_id s)%Z).
    { pose proof (inv_range Hinv (length (track_id s))) as Hr.
      rewrite nth_overflow in Hr by lia. lia. }
    assert (Hin : forall j, nth j mask false = true ->
                            j < length (track_id s) /\
                            nth j (track_id s) (-1)%Z = (-1)%Z).
    { intros j Hj. specialize (Hsub _ Hj).
      destruct (inv_eligible Hinv _ Hsub) as [Ht _]. split; [|exact Ht].
      rewrite (inv_len Hinv). apply nth_true_lt. exact Hsub. }
    intros k Hk. unfold n_hits_with.
    destruct (Z.eq_dec k (current_track_id s + 1)) as [->|Hne].
    + apply Nat.le_trans with (Np.count_nonzero mask); [exact E|].
      apply count_nonzero_mono. intros j Hj.
      destruct (Hin _ Hj) as [Hl _].
      rewrite nth_eq_scalar by lia. rewrite nth_fill by exact Hl.
      rewrite Hj. apply Z.eqb_refl.
    + apply Nat.le_trans with (n_hits_with (track_id s) k);
        [apply Hs; lia|].
      apply count_nonzero_mono. intros j Hj.
      rewrite nth_eq_scalar in Hj by lia. apply Z.eqb_eq in Hj.
      assert (Hl : j < length (track_id s)).
      { destruct (Nat.lt_ge_cases j (length (track_id s))) as [|Hge]; auto.
        rewrite nth_overflow in Hj by exact Hge. lia. }
      rewrite nth_eq_scalar by lia. rewrite nth_fill by exact Hl.
      destruct (nth j mask false) eqn:Em.
      * destruct (Hin _ Em) as [_ Ht]. lia.
      * apply Z.eqb_eq. exact Hj.
  - apply init_state_inv.
  - cbn [current_track_id init_state]. intros k Hk. lia.
  - exact H.
Qed.

(** X3.  Every label handed out in an event is carried by at least two of
    its hits when the loop returns. *)
Theorem accepted_label_has_two_hits {point : Type}
        (dbscan_fit : list point -> option (list Z))
        (ransac : nat -> list point -> option (list bool))
        (ransac_min_samples : Z) (fuel : nat) (xyz : list point)
        (valid : list bool) (n : nat) (st : state) (k : Z) :
  find_tracks_event dbscan_fit ransac ransac_min_samples fuel xyz valid n
  = Ret st ->
  (0 <= k < n_accepted st)%Z ->
  2 <= n_hits_with (track_id st) k.
Proof.
  intros H Hk. destruct (event_loop_inv _ _ _ _ _ _ _ H) as [_ [Hn _]].
  apply (label_hits_kept _ _ _ _ _ _ _ H). lia.
Qed.

Lemma accepted_label_has_two_hits_witness :
  find_tracks_event (Dbscan.fit eps2_default 3) ransac_first_fails 2 5
                    two_groups (repeat true 6) 0 = Ret two_groups_end /\
  (0 <= 1 < n_accepted two_groups_end)%Z /\
  2 <= n_hits_with [1; 1; 1; 0; 0; 0]%Z 1.
Proof.
  assert (H : find_tracks_event (Dbscan.fit eps2_default 3) ransac_first_fails
                                2 5 two_groups (repeat true 6) 0
              = Ret two_groups_end) by (vm_compute; reflexivity).
  assert (Hk : (0 <= 1 < n_accepted two_groups_end)%Z)
    by (vm_compute; split; [discriminate|reflexivity]).
  split; [exact H|]. split; [exact Hk|].
  exact (accepted_label_has_two_hits _ _ _ _ _ _ _ H Hk).
Defined.

(** X4.  When the first clustering of an event finds only noise, the loop
    returns after that one round: every hit is unlabelled, every valid hit
    is still eligible, no fit was attempted and nothing was accepted. *)
Theorem all_noise_event_returns_at_once {point : Type}
        (dbscan_fit : list point -> option (list Z))
        (ransac : nat -> list point -> option (list bool))
        (ransac_min_samples : Z) (fuel : nat) (xyz : list point)
        (valid : list bool) (n : nat) (track_ids : list Z) :
  _do_dbscan dbscan_fit xyz valid = Ret track_ids ->
  Np.all (Np.eq_scalar track_ids (-1)) = true ->
  find_tracks_event dbscan_fit ransac ransac_min_samples (S fuel) xyz valid n
  = Ret (init_state valid n).
Proof.
  intros Hd Hall. unfold find_tracks_event.
  apply all_noise_halts with (track_ids := track_ids); assumption.
Qed.

Lemma all_noise_event_returns_at_once_witness :
  _do_dbscan (Dbscan.fit eps2_default 5) three_hits [true; true; true]
  = Ret [-1; -1; -1]%Z /\
  find_tracks_event (Dbscan.fit eps2_default 5) ransac_all 2 1 three_hits
                    [true; true; true] 0
  = Ret (init_state [true; true; true] 0).
Proof.
  assert (Hd : _do_dbscan (Dbscan.fit eps2_default 5) three_hits
                          [true; true; true] = Ret [-1; -1; -1]%Z)
    by (vm_compute; reflexivity).
  split; [exact Hd|].
  exact (all_noise_event_returns_at_once (Dbscan.fit eps2_default 5)
           ransac_all 2 0 three_hits [true; true; true] 0 Hd eq_refl).
Defined.

(** *** When every cluster of a round is too small *)

Lemma for_clusters_all_skipped {point : Type}
      (ransac : nat -> list point -> option (list bool))
      (ransac_min_samples : Z) (xyz : list point) (track_ids : list Z)
      (ids : list Z) :
  (forall id_, In id_ ids -> id_ <> (-1)%Z ->
               (cluster_size track_ids id_ <= ransac_min_samples)%Z) ->
  forall st,
  exists st',
    for_clusters ransac ransac_min_samples xyz track_ids ids st = Ret st' /\
    vars st' = vars st.
Proof.
  induction ids as [|id_ ids IH]; intros Hsmall st; simpl.
  - exists st. auto.
  - assert (Hstep : exists st1,
               cluster_step ransac ransac_min_samples xyz track_ids st id_
               = Ret st1 /\ vars st1 = vars st).
    { unfold cluster_step. destruct (id_ =? -1)%Z eqn:Hid.
      - exists st. auto.
      - apply Z.eqb_neq in Hid.
        pose proof (Hsmall id_ (or_introl eq_refl) Hid) as Hs.
        unfold cluster_size in Hs. apply Z.leb_le in Hs. rewrite Hs.
        eexists. split; reflexivity. }
    destruct Hstep as [st1 [H1 Hv1]]. rewrite H1. cbn [bind].
    destruct (IH (fun i Hi => Hsmall i (or_intror Hi)) st1) as [st' [H2 Hv2]].
    exists st'. split; [exact H2|congruence].
Qed.

Lemma not_all_noise_any_eligible {point : Type}
      (dbscan_fit : list point -> option (list Z)) (xyz : list point)
      (st : state) (track_ids : list Z) :
  _do_dbscan dbscan_fit xyz (iter_mask st) = Ret track_ids ->
  Np.all (Np.eq_scalar track_ids (-1)) = false ->
  Np.any (iter_mask st) = true.
Proof.
  intros Hd Hall.
  assert (Hex : exists id_, In id_ track_ids /\ id_ <> (-1)%Z).
  { unfold Np.all, Np.eq_scalar in Hall. clear Hd.
    induction track_ids as [|x l IH]; simpl in Hall; [discriminate|].
    destruct (x =? -1)%Z eqn:E.
    - destruct (IH Hall) as [i [Hi Hne]]. exists i. split; [right|]; auto.
    - apply Z.eqb_neq in E. exists x. split; [left|]; auto. }
  destruct Hex as [id_ [Hin Hne]].
  destruct (In_nth _ _ (-1)%Z Hin) as [j [_ Hj]].
  pose proof (@do_dbscan_eligible _ dbscan_fit xyz st track_ids Hd id_ j Hj Hne)
    as Hel.
  unfold Np.any. apply existsb_exists. exists true. split; [|reflexivity].
  rewrite <- Hel. apply nth_In. apply nth_true_lt. exact Hel.
Qed.

(** X5.  If the clustering of a round finds at least one cluster and every
    cluster it finds has at most [ransac_min_samples] points, the loop never
    returns: each round skips every cluster, changes no variable and does
    not meet the exit test. *)
Theorem small_clusters_never_halt {point : Type}
        (dbscan_fit : list point -> option (list Z))
        (ransac : nat -> list point -> option (list bool))
        (ransac_min_samples : Z) (xyz : list point) (st : state)
        (track_ids : list Z) (fuel : nat) :
  _do_dbscan dbscan_fit xyz (iter_mask st) = Ret track_ids ->
  Np.all (Np.eq_scalar track_ids (-1)) = false ->
  (forall id_, In id_ track_ids -> id_ <> (-1)%Z ->
               (cluster_size track_ids id_ <= ransac_min_samples)%Z) ->
  while_true dbscan_fit ransac ransac_min_samples fuel xyz st = OutOfFuel.
Proof.
  intros Hd Hall Hsmall.
  destruct (@for_clusters_all_skipped _ ransac ransac_min_samples xyz
              track_ids (Np.unique track_ids)) with (st := st)
    as [st' [Hf Hv]].
  { intros id_ Hin. apply Hsmall. rewrite unique_In in Hin. exact Hin. }
  apply no_progress_diverges with (st := st) (st' := st');
    [|exact Hv|reflexivity].
  unfold round. rewrite Hd. cbn [bind]. rewrite Hf. cbn [bind].
  unfold loop_done. rewrite Hall.
  replace (iter_mask st') with (iter_mask st)
    by (unfold vars in Hv; inversion Hv; auto).
  rewrite (not_all_noise_any_eligible _ _ _ Hd Hall). reflexivity.
Qed.

Lemma small_clusters_never_halt_witness :
  _do_dbscan (Dbscan.fit eps2_default 2) two_hits
             (iter_mask (init_state [true; true] 0)) = Ret [0; 0]%Z /\
  while_true (Dbscan.fit eps2_default 2) ransac_all 2 7 two_hits
             (init_state [true; true] 0) = OutOfFuel.
Proof.
  assert (Hd : _do_dbscan (Dbscan.fit eps2_default 2) two_hits
                          (iter_mask (init_state [true; true] 0))
               = Ret [0; 0]%Z) by (vm_compute; reflexivity).
  split; [exact Hd|].
  apply (@small_clusters_never_halt _ (Dbscan.fit eps2_default 2) ransac_all
           2%Z two_hits (init_state [true; true] 0) [0; 0]%Z 7 Hd eq_refl).
  intros id_ [<-|[<-|[]]] _; vm_compute; discriminate.
Defined.


(** * Further properties of the track geometry *)

Lemma fold_vmin_le (l : list vec3) :
  forall x p, In p (x :: l) ->
              (vx (fold_left vmin l x) <= vx p)%R /\
              (vy (fold_left vmin l x) <= vy p)%R /\
              (vz (fold_left vmin l x) <= vz p)%R.
Proof.
  induction l as [|y l IH]; intros x p Hp; simpl in *.
  - destruct Hp as [->|[]]. repeat split; apply Rle_refl.
  - destruct Hp as [->|[->|Hp]].
    + destruct (IH (vmin p y) (vmin p y) (or_introl eq_refl)) as [A [B C]].
      unfold vmin, vx, vy, vz in *. simpl in *.
      repeat split; eapply Rle_trans; eauto using Rmin_l.
    + destruct (IH (vmin x p) (vmin x p) (or_introl eq_refl)) as [A [B C]].
      unfold vmin, vx, vy, vz in *. simpl in *.
      repeat split; eapply Rle_trans; eauto using Rmin_r.
    + apply IH. right. exact Hp.
Qed.

Lemma fold_vmax_ge (l : list vec3) :
  forall x p, In p (x :: l) ->
              (vx p <= vx (fold_left vmax l x))%R /\
              (vy p <= vy (fold_left vmax l x))%R /\
              (vz p <= vz (fold_left vmax l x))%R.
Proof.
  induction l as [|y l IH]; intros x p Hp; simpl in *.
  - destruct Hp as [->|[]]. repeat split; apply Rle_refl.
  - destruct Hp as [->|[->|Hp]].
    + destruct (IH (vmax p y) (vmax p y) (or_introl eq_refl)) as [A [B C]].
      unfold vmax, vx, vy, vz in *. simpl in *.
      repeat split; eapply Rle_trans; eauto using Rmax_l.
    + destruct (IH (vmax x p) (vmax x p) (or_introl eq_refl)) as [A [B C]].
      unfold vmax, vx, vy, vz in *. simpl in *.
      repeat split; eapply Rle_trans; eauto using Rmax_r.
    + apply IH. right. exact Hp.
Qed.

(** The box spanned by [amin] and [amax] contains every point of the array. *)
Lemma bounding_box_contains (xyz : list vec3) (p : vec3) :
  In p xyz -> in_box (amin xyz) (amax xyz) p.
Proof.
  intros Hp. destruct xyz as [|x l]; [destruct Hp|].
  unfold amin, amax, fold1, in_box.
  destruct (@fold_vmin_le l x p Hp) as [A [B C]].
  destruct (@fold_vmax_ge l x p Hp) as [D [E F]].
  repeat split; assumption.
Qed.

Lemma clip_in_box (a lo hi : vec3) :
  (vx lo <= vx hi)%R -> (vy lo <= vy hi)%R -> (vz lo <= vz hi)%R ->
  in_box lo hi (clip a lo hi).
Proof.
  intros Hx Hy Hz. unfold in_box, clip, vmin, vmax, vx, vy, vz in *. simpl.
  repeat split;
    try apply Rmin_l;
    apply Rmin_glb; try assumption; apply Rmax_r.
Qed.

(** X6.  Both endpoints returned by [_projected_limits] for a non-empty array
    of positions lie in the bounding box of these positions, whatever the
    centroid and the axis. *)
Theorem projected_limits_in_bounding_box (centroid axis : vec3)
        (xyz : list vec3) :
  xyz <> [] ->
  in_box (amin xyz) (amax xyz) (fst (_projected_limits centroid axis xyz)) /\
  in_box (amin xyz) (amax xyz) (snd (_projected_limits centroid axis xyz)).
Proof.
  intros Hne. destruct xyz as [|x l]; [congruence|].
  destruct (@bounding_box_contains (x :: l) x (or_introl eq_refl))
    as [[A1 A2] [[B1 B2] [C1 C2]]].
  unfold _projected_limits. cbn [fst snd].
  split; apply clip_in_box; eapply Rle_trans; eauto.
Qed.

Lemma projected_limits_in_bounding_box_witness :
  [pt_a; pt_b] <> [] /\
  in_box (amin [pt_a; pt_b]) (amax [pt_a; pt_b])
         (fst (_projected_limits (0, 0, 1)%R (0, 0, 1)%R [pt_a; pt_b])).
Proof.
  assert (H : [pt_a; pt_b] <> []) by discriminate.
  split; [exact H|].
  exact (proj1 (@projected_limits_in_bounding_box (0, 0, 1)%R (0, 0, 1)%R
                  [pt_a; pt_b] H)).
Defined.

Lemma vsum_nonneg (l : list vec3) :
  Forall vnonneg l ->
  forall acc, vnonneg acc -> vnonneg (fold_left vadd l acc).
Proof.
  induction 1 as [|v l Hv _ IH]; intros acc Hacc; simpl; [exact Hacc|].
  apply IH. destruct Hv as [A [B C]], Hacc as [D [E F]].
  unfold vnonneg, vadd, vx, vy, vz in *. simpl. repeat split; lra.
Qed.

Lemma vmean_nonneg (l : list vec3) : Forall vnonneg l -> vnonneg (vmean l).
Proof.
  intros Hl. unfold vmean.
  assert (Hs : vnonneg (vsum l)).
  { apply vsum_nonneg; [exact Hl|]. unfold vnonneg, vzero, vx, vy, vz. simpl.
    repeat split; apply Rle_refl. }
  destruct l as [|v l].
  - unfold vnonneg, vdiv, vsum, vzero, vx, vy, vz, Rdiv. simpl.
    rewrite Rmult_0_l. repeat split; apply Rle_refl.
  - assert (Hn : (0 < / INR (length (v :: l)))%R).
    { apply Rinv_0_lt_compat. apply lt_0_INR. simpl. lia. }
    destruct Hs as [A [B C]].
    unfold vnonneg, vdiv, Rdiv. cbn [vx vy vz fst snd].
    repeat split; apply Rmult_le_pos; try assumption; left; exact Hn.
Qed.

(** X7.  No component of the residual returned by [_track_residual] is
    negative. *)
Theorem track_residual_nonneg (centroid axis : vec3) (xyz : list vec3) :
  vnonneg (_track_residual centroid axis xyz).
Proof.
  unfold _track_residual. apply vmean_nonneg.
  apply Forall_forall. intros v Hv. apply in_map_iff in Hv.
  destruct Hv as [p [<- _]].
  unfold vnonneg, vabs. cbn [vx vy vz fst snd].
  repeat split; apply Rabs_pos.
Qed.

Lemma dot_self_nonneg (c : vec3) : (0 <= dot c c)%R.
Proof.
  unfold dot. pose proof (Rle_0_sqr (vx c)). pose proof (Rle_0_sqr (vy c)).
  pose proof (Rle_0_sqr (vz c)). unfold Rsqr in *. lra.
Qed.

(** X8.  The axis returned by [_do_pca] has norm 1 whenever the principal
    component handed back by the decomposition is not the zero vector. *)
Theorem do_pca_axis_is_unit (pca_component : list vec3 -> vec3)
        (xyz : list vec3) (mask : list bool) :
  norm (pca_component
          (map (fun p => vsub p (vmean (Np.select xyz mask)))
               (Np.select xyz mask))) <> 0%R ->
  norm (snd (_do_pca pca_component xyz mask)) = 1%R.
Proof.
  unfold _do_pca. cbn [snd].
  set (c := pca_component _). intros Hn.
  assert (Hsq : (norm c * norm c = dot c c)%R).
  { unfold norm. apply sqrt_sqrt. apply dot_self_nonneg. }
  unfold norm at 1.
  replace (dot (vdiv c (norm c)) (vdiv c (norm c))) with 1%R;
    [apply sqrt_1|].
  unfold dot in Hsq. revert Hn Hsq. generalize (norm c). intros n Hn Hsq.
  unfold vdiv, dot. cbn [vx vy vz fst snd].
  transitivity ((vx c * vx c + vy c * vy c + vz c * vz c) / (n * n))%R.
  - rewrite <- Hsq. field. exact Hn.
  - field. exact Hn.
Qed.

Lemma do_pca_axis_is_unit_witness :
  norm (pca_z (map (fun p => vsub p (vmean (Np.select [pt_a; pt_b] [true; true])))
                   (Np.select [pt_a; pt_b] [true; true]))) <> 0%R /\
  norm (snd (_do_pca pca_z [pt_a; pt_b] [true; true])) = 1%R.
Proof.
  assert (H : norm (pca_z (map (fun p => vsub p (vmean (Np.select [pt_a; pt_b]
                                                             [true; true])))
                               (Np.select [pt_a; pt_b] [true; true])))
              <> 0%R).
  { unfold pca_z, norm, dot, vx, vy, vz. simpl.
    replace (0 * 0 + 0 * 0 + 1 * 1)%R with 1%R by ring.
    rewrite sqrt_1. lra. }
  split; [exact H|].
  exact (@do_pca_axis_is_unit pca_z [pt_a; pt_b] [true; true] H).
Defined.

Lemma fold_left_Zmin_le (l : list Z) :
  forall x, (fold_left Z.min l x <= x)%Z.
Proof.
  induction l as [|y l IH]; intros x; simpl; [lia|].
  specialize (IH (Z.min x y)). lia.
Qed.

Lemma fold_left_Zmax_ge (l : list Z) :
  forall x, (x <= fold_left Z.max l x)%Z.
Proof.
  induction l as [|y l IH]; intros x; simpl; [lia|].
  specialize (IH (Z.max x y)). lia.
Qed.

(** X9.  In every slot computed by [calc_slot] the start time is not after
    the end time, the member count is the size of the mask, and the length
    is not negative. *)
Theorem calc_slot_time_span (pca_component : list vec3 -> vec3)
        (arctan2 : R -> R -> R) (id0 : Z) (hits_i : list hit)
        (xyz_i : list vec3) (t0_i : t0_entry) (mask : list bool)
        (t : tracklet) :
  calc_slot pca_component arctan2 id0 hits_i xyz_i t0_i mask = Ret t ->
  (t_ts_start t <= t_ts_end t)%Z /\
  (snd (t_start t) <= snd (t_end t))%R /\
  (0 <= t_length t)%R.
Proof.
  unfold calc_slot. intros H.
  destruct (_do_pca pca_component xyz_i mask) as [centroid axis].
  destruct (_projected_limits centroid axis (Np.select xyz_i mask))
    as [r_min r_max].
  destruct (xyp axis centroid); [|discriminate].
  injection H as Ht. subst t. cbn.
  assert (Hts : (Zlist_min (map hit_ts (Np.select hits_i mask))
                 <= Zlist_max (map hit_ts (Np.select hits_i mask)))%Z).
  { unfold Zlist_min, Zlist_max, fold1.
    destruct (map hit_ts (Np.select hits_i mask)) as [|x l]; [lia|].
    pose proof (fold_left_Zmin_le l x). pose proof (fold_left_Zmax_ge l x).
    lia. }
  split; [exact Hts|]. split.
  - apply IZR_le in Hts. lra.
  - unfold norm. apply sqrt_pos.
Qed.

Lemma calc_slot_time_span_witness :
  exists t,
    calc_slot pca_z no_arctan2 0 [hit_a; hit_b] [pt_a; pt_b] t0_zero
              [true; true] = Ret t /\
    (t_ts_start t <= t_ts_end t)%Z.
Proof.
  destruct (calc_slot_returns pca_z no_arctan2 0 [hit_a; hit_b] [pt_a; pt_b]
                              t0_zero [true; true]) as [t Ht].
  exists t. split; [exact Ht|].
  exact (proj1 (calc_slot_time_span _ _ _ _ _ _ _ Ht)).
Defined.

(** * Further properties of the track emitter *)

Lemma py_index_In {A : Type} (row : list A) (k : Z) (a : A) :
  py_index row k = Ret a -> In a row.
Proof.
  unfold py_index.
  destruct (_ <? 0)%Z; [discriminate|].
  destruct (nth_error row _) as [x|] eqn:E; [|discriminate].
  intros H. inversion H; subst. eapply nth_error_In. exact E.
Qed.

Lemma take_along_row_In (row : list slot) (ids : list Z) :
  forall r s, take_along_row row ids = Ret r -> In s r -> In s row.
Proof.
  induction ids as [|k ids IH]; intros r s H Hs; simpl in H.
  - inversion H; subst. destruct Hs.
  - apply bind_Ret in H. destruct H as [a [Ha H]].
    apply bind_Ret in H. destruct H as [rest [Hrest H]].
    inversion H; subst. destruct Hs as [<-|Hs].
    + eapply py_index_In. exact Ha.
    + eapply IH; eauto.
Qed.

Lemma take_along_axis_In (tracks : table) :
  forall ids ref s,
    take_along_axis tracks ids = Ret ref ->
    In s (concat ref) -> In s (concat tracks).
Proof.
  induction tracks as [|row tracks IH]; intros ids ref s H Hs; simpl in H.
  - inversion H; subst. destruct Hs.
  - destruct ids as [|r ids]; [inversion H; subst; destruct Hs|].
    apply bind_Ret in H. destruct H as [a [Ha H]].
    apply bind_Ret in H. destruct H as [rest [Hrest H]].
    inversion H; subst. simpl in Hs. apply in_app_iff in Hs.
    simpl. apply in_app_iff. destruct Hs as [Hs|Hs].
    + left. eapply take_along_row_In; eauto.
    + right. eapply IH; eauto.
Qed.

Lemma hit_refs_In (ref_id : list slot) :
  forall ids msk hit_idx p,
    In p (hit_refs ref_id ids msk hit_idx) ->
    exists t, In (Some t) ref_id /\ t_id t = fst p.
Proof.
  induction ref_id as [|s ref_id IH]; intros ids msk hit_idx p Hp;
    simpl in Hp; [destruct Hp|].
  destruct ids as [|k ids]; [destruct Hp|].
  destruct msk as [|m msk]; [destruct Hp|].
  destruct hit_idx as [|h hit_idx]; [destruct Hp|].
  assert (Hrec : In p (hit_refs ref_id ids msk hit_idx) ->
                 exists t, In (Some t) (s :: ref_id) /\ t_id t = fst p).
  { intros H. destruct (IH _ _ _ _ H) as [t [Ht1 Ht2]].
    exists t. split; [right|]; assumption. }
  destruct s as [t|]; [|auto].
  destruct (m || negb (k =? -1)%Z); [|auto].
  destruct Hp as [<-|Hp]; [|auto].
  exists t. split; [left|]; reflexivity.
Qed.

Lemma all_hit_refs_In (ref_id : table) :
  forall ids msk hit_idx p,
    In p (all_hit_refs ref_id ids msk hit_idx) ->
    exists t, In (Some t) (concat ref_id) /\ t_id t = fst p.
Proof.
  induction ref_id as [|r ref_id IH]; intros ids msk hit_idx p Hp;
    simpl in Hp; [destruct Hp|].
  destruct ids as [|k ids]; [destruct Hp|].
  destruct msk as [|m msk]; [destruct Hp|].
  destruct hit_idx as [|h hit_idx]; [destruct Hp|].
  apply in_app_iff in Hp. destruct Hp as [Hp|Hp].
  - destruct (hit_refs_In _ _ _ _ _ Hp) as [t [Ht1 Ht2]].
    exists t. split; [|exact Ht2]. simpl. apply in_app_iff. left. exact Ht1.
  - destruct (IH _ _ _ _ Hp) as [t [Ht1 Ht2]].
    exists t. split; [|exact Ht2]. simpl. apply in_app_iff. right. exact Ht1.
Qed.

Lemma filter_map_In {A : Type} (l : list (option A)) (a : A) :
  In (Some a) l -> In a (filter_map (fun s => s) l).
Proof.
  induction l as [|[x|] l IH]; simpl; intros H.
  - destruct H.
  - destruct H as [H|H]; [left; congruence|right; auto].
  - destruct H as [H|H]; [discriminate|auto].
Qed.

Lemma broadcast_to_spec (col : list Z) (n_rows : nat) (ev_id : list Z) :
  broadcast_to col n_rows = Ret ev_id ->
  length ev_id = n_rows /\
  (length col = n_rows \/ length col = 1) /\
  (forall e, In e ev_id -> In e col).
Proof.
  unfold broadcast_to.
  destruct (length col =? n_rows) eqn:E.
  - apply Nat.eqb_eq in E. intros H. inversion H; subst. auto.
  - destruct col as [|e [|e' col]]; try discriminate.
    intros H. inversion H; subst.
    split; [apply repeat_length|]. split; [right; reflexivity|].
    intros x Hx. apply repeat_spec in Hx. left. auto.
Qed.

Lemma arange_In (start stop e : Z) :
  In e (arange start stop) -> (start <= e < stop)%Z.
Proof.
  unfold arange. intros H. apply in_map_iff in H.
  destruct H as [k [<- Hk]]. apply in_seq in Hk. lia.
Qed.

Lemma event_pairs_ids (tracks : table) :
  forall ev_id,
    length ev_id = length tracks ->
    map snd (concat (map (fun p : Z * list slot => map (fun t => (fst p, t_id t))
                                       (filter_map (fun s => s) (snd p)))
                         (combine ev_id tracks)))
    = ids_of tracks.
Proof.
  unfold ids_of, valid_tracks.
  induction tracks as [|row tracks IH]; intros ev_id Hl.
  - destruct ev_id; reflexivity.
  - destruct ev_id as [|e ev_id]; [simpl in Hl; lia|].
    simpl in *. rewrite map_app, filter_map_app, map_app.
    rewrite IH by lia. f_equal. rewrite map_map. reflexivity.
Qed.

Lemma event_pairs_events (tracks : table) :
  forall ev_id p,
    In p (concat (map (fun p : Z * list slot => map (fun t => (fst p, t_id t))
                                    (filter_map (fun s => s) (snd p)))
                      (combine ev_id tracks))) ->
    In (fst p) ev_id.
Proof.
  intros ev_id p Hp. apply in_concat in Hp. destruct Hp as [l [Hl Hp]].
  apply in_map_iff in Hl. destruct Hl as [[e row] [<- Her]].
  apply in_map_iff in Hp. destruct Hp as [t [<- _]]. cbn [fst].
  eapply in_combine_l. exact Her.
Qed.

(** What the event-to-track table holds when line 89 does not raise. *)
Lemma event_refs_spec (source_slice : Z * Z) (tracks : table)
      (refs : list (Z * Z)) :
  event_refs source_slice tracks = Ret refs ->
  map snd refs = ids_of tracks /\
  (forall p, In p refs ->
             (fst source_slice <= fst p < snd source_slice)%Z) /\
  (Z.to_nat (snd source_slice - fst source_slice) = length tracks \/
   Z.to_nat (snd source_slice - fst source_slice) = 1).
Proof.
  unfold event_refs. intros H.
  apply bind_Ret in H. destruct H as [ev_id [Hb H]].
  inversion H; subst; clear H.
  destruct (broadcast_to_spec _ _ Hb) as [Hlen [Hshape Hin]].
  split; [apply event_pairs_ids; exact Hlen|]. split.
  - intros p Hp. apply arange_In, Hin.
    eapply event_pairs_events. exact Hp.
  - unfold arange in Hshape. rewrite length_map, length_seq in Hshape.
    exact Hshape.
Qed.

Lemma assign_ids_shape (tracks_slice : Z * Z) (tracks tracks' : table) :
  assign_ids tracks_slice tracks = Ret tracks' ->
  length tracks' = length tracks.
Proof.
  unfold assign_ids, np_place.
  destruct (map as_u4 _) as [|v vals].
  - destruct (Np.any _); [discriminate|]. intros H. inversion H. reflexivity.
  - intros H. inversion H; subst.
    destruct (place_rows_spec (v :: vals) tracks 0) as [Hm _].
    unfold tracks_mask in Hm.
    rewrite <- (length_map (map is_valid) (place_rows (v :: vals) 0 tracks)).
    rewrite Hm. apply length_map.
Qed.

Lemma run_stages (v_drift crs_ticks : R) (get_z_coordinate : Z -> Z -> R -> R)
      (pca_component : list vec3 -> vec3) (arctan2 : R -> R -> R)
      (dbscan_fit : list vec3 -> option (list Z))
      (ransac : nat -> list vec3 -> option (list bool))
      (ransac_min_samples : Z) (empty_id : nat -> nat -> Z)
      (reserve_data : nat -> Z * Z) (fuel : nat) (source_slice : Z * Z)
      (t0 : list t0_entry) (hits : list (list hit))
      (hit_idx : list (list Z)) (e : emitted) :
  run v_drift crs_ticks get_z_coordinate pca_component arctan2 dbscan_fit
      ransac ransac_min_samples empty_id reserve_data fuel source_slice t0
      hits hit_idx = Ret e ->
  exists track_ids tracks tracks' track_ref_id ref2,
    find_tracks v_drift crs_ticks get_z_coordinate dbscan_fit ransac
                ransac_min_samples fuel hits t0 = Ret track_ids /\
    calc_tracks v_drift crs_ticks get_z_coordinate pca_component arctan2
                empty_id hits t0 track_ids = Ret tracks /\
    assign_ids (reserve_data (n_valid tracks)) tracks = Ret tracks' /\
    take_along_axis tracks' (ma_data track_ids) = Ret track_ref_id /\
    event_refs source_slice tracks' = Ret ref2 /\
    e = mkEmitted (valid_tracks tracks')
                  (all_hit_refs track_ref_id (ma_data track_ids)
                                (ma_mask track_ids) hit_idx)
                  ref2.
Proof.
  unfold run. intros H.
  apply bind_Ret in H. destruct H as [track_ids [H1 H]].
  apply bind_Ret in H. destruct H as [tracks [H2 H]].
  apply bind_Ret in H. destruct H as [tracks' [H3 H]].
  apply bind_Ret in H. destruct H as [track_ref_id [H4 H]].
  apply bind_Ret in H. destruct H as [ref2 [H5 H]].
  inversion H; subst.
  exists track_ids, tracks, tracks', track_ref_id, ref2. auto 10.
Qed.

(** *** A batch of one event with one track *)

Lemma two_hit_table :
  exists t,
    calc_tracks 1 1 z_is_drift pca_z no_arctan2 zero_id [[hit_a; hit_b]]
                [t0_zero] (mkMasked [[0; 0]%Z] [[false; false]])
    = Ret [[Some t]].
Proof.
  destruct (calc_slot_returns pca_z no_arctan2 (zero_id 0 0) [hit_a; hit_b]
              [hit_xyz 1 1 z_is_drift t0_zero hit_a;
               hit_xyz 1 1 z_is_drift t0_zero hit_b] t0_zero
              (slot_mask [0; 0]%Z [false; false] 0)) as [t Ht].
  exists t. unfold calc_tracks.
  change (n_tracks_of (mkMasked [[0; 0]%Z] [[false; false]])) with 1%Z.
  change (Z.to_nat 1) with 1%nat.
  cbn -[calc_slot_opt hit_xyz slot_mask].
  unfold calc_slot_opt.
  change (Np.count_nonzero (slot_mask [0%Z; 0%Z] [false; false] 0) <? 2)
    with false.
  cbv iota. rewrite Ht. reflexivity.
Qed.

(** X10.  Every pair of the track-to-hit reference table written by [run]
    carries the identifier of a track of the table written by the same
    call. *)
Theorem track_hit_refs_name_emitted_tracks
        (v_drift crs_ticks : R) (get_z_coordinate : Z -> Z -> R -> R)
        (pca_component : list vec3 -> vec3) (arctan2 : R -> R -> R)
        (dbscan_fit : list vec3 -> option (list Z))
        (ransac : nat -> list vec3 -> option (list bool))
        (ransac_min_samples : Z) (empty_id : nat -> nat -> Z)
        (reserve_data : nat -> Z * Z) (fuel : nat) (source_slice : Z * Z)
        (t0 : list t0_entry) (hits : list (list hit))
        (hit_idx : list (list Z)) (e : emitted) (p : Z * Z) :
  run v_drift crs_ticks get_z_coordinate pca_component arctan2 dbscan_fit
      ransac ransac_min_samples empty_id reserve_data fuel source_slice t0
      hits hit_idx = Ret e ->
  In p (em_track_hit e) ->
  In (fst p) (map t_id (em_tracks e)).
Proof.
  intros H Hp.
  destruct (run_stages _ _ _ _ _ _ _ _ _ _ _ _ _ _ _ H)
    as [track_ids [tracks [tracks' [ref [ref2 [_ [_ [_ [H4 [_ ->]]]]]]]]]].
  cbn [em_track_hit em_tracks] in *.
  destruct (all_hit_refs_In _ _ _ _ _ Hp) as [t [Ht <-]].
  apply in_map. unfold valid_tracks. apply filter_map_In.
  eapply take_along_axis_In; eauto.
Qed.

(** X11.  When [run] returns, the event-to-track reference table lists, in
    the same order, exactly the identifiers of the tracks written by that
    call, each paired with an event index of the source slice; and the
    source slice then has one index per row of the batch, or a single
    index. *)
Theorem event_track_refs_list_emitted_tracks
        (v_drift crs_ticks : R) (get_z_coordinate : Z -> Z -> R -> R)
        (pca_component : list vec3 -> vec3) (arctan2 : R -> R -> R)
        (dbscan_fit : list vec3 -> option (list Z))
        (ransac : nat -> list vec3 -> option (list bool))
        (ransac_min_samples : Z) (empty_id : nat -> nat -> Z)
        (reserve_data : nat -> Z * Z) (fuel : nat) (source_slice : Z * Z)
        (t0 : list t0_entry) (hits : list (list hit))
        (hit_idx : list (list Z)) (e : emitted) :
  length hits = length t0 ->
  run v_drift crs_ticks get_z_coordinate pca_component arctan2 dbscan_fit
      ransac ransac_min_samples empty_id reserve_data fuel source_slice t0
      hits hit_idx = Ret e ->
  map snd (em_event_track e) = map t_id (em_tracks e) /\
  (forall p, In p (em_event_track e) ->
             (fst source_slice <= fst p < snd source_slice)%Z) /\
  (Z.to_nat (snd source_slice - fst source_slice) = length t0 \/
   Z.to_nat (snd source_slice - fst source_slice) = 1).
Proof.
  intros Hh H.
  destruct (run_stages _ _ _ _ _ _ _ _ _ _ _ _ _ _ _ H)
    as [track_ids [tracks [tracks' [ref [ref2 [H1 [H2 [H3 [_ [H5 ->]]]]]]]]]].
  cbn [em_event_track em_tracks].
  destruct (event_refs_spec _ _ H5) as [Hids [Hev Hshape]].
  split; [exact Hids|]. split; [exact Hev|].
  rewrite (assign_ids_shape _ _ H3) in Hshape.
  replace (length t0) with (length tracks); [exact Hshape|].
  destruct (@find_tracks_shape _ _ _ _ _ _ _ _ _ _ Hh H1) as [Hd Hm].
  apply (@calc_tracks_length _ _ _ _ _ _ _ _ _ _ Hh Hd Hm H2).
Qed.

(** A source slice of three events with a batch of one event: line 89
    raises. *)
Lemma run_slice_longer_than_batch_raises :
  exists e,
    run 1 1 z_is_drift pca_z no_arctan2 one_cluster keep_all 1 zero_id
        (reserve_from 5) 3 (3, 6)%Z [t0_zero] [[hit_a; hit_b]]
        [[10; 11]%Z]
    = Raise e.
Proof.
  destruct two_hit_table as [t Ht]. exists ValueError. unfold run.
  assert (Hf : find_tracks 1 1 z_is_drift one_cluster keep_all 1 3
                           [[hit_a; hit_b]] [t0_zero]
               = Ret (mkMasked [[0; 0]%Z] [[false; false]]))
    by (vm_compute; reflexivity).
  rewrite Hf. cbn [bind]. rewrite Ht. cbn [bind].
  vm_compute. reflexivity.
Qed.

Lemma one_track_run :
  exists t,
    run 1 1 z_is_drift pca_z no_arctan2 one_cluster keep_all 1 zero_id
        (reserve_from 5) 3 (3, 4)%Z [t0_zero] [[hit_a; hit_b]]
        [[10; 11]%Z]
    = Ret (mkEmitted [set_id t 5] [(5, 10); (5, 11)]%Z [(3, 5)]%Z).
Proof.
  destruct two_hit_table as [t Ht]. exists t. unfold run.
  assert (Hf : find_tracks 1 1 z_is_drift one_cluster keep_all 1 3
                           [[hit_a; hit_b]] [t0_zero]
               = Ret (mkMasked [[0; 0]%Z] [[false; false]]))
    by (vm_compute; reflexivity).
  rewrite Hf. cbn [bind]. rewrite Ht. cbn [bind].
  vm_compute. reflexivity.
Qed.

(** A masked hit keeps the label -1, which [take_along_axis] reads as the
    last slot of the event; when that slot is valid the hit is written to
    the track-to-hit table with the identifier of that slot. *)
Lemma masked_hit_is_referenced :
  exists t,
    run 1 1 z_is_drift pca_z no_arctan2 one_cluster keep_all 1 zero_id
        (reserve_from 5) 3 (3, 4)%Z [t0_zero] [[hit_a; hit_b; masked_hit]]
        [[10; 11; 12]%Z]
    = Ret (mkEmitted [set_id t 5] [(5, 10); (5, 11); (5, 12)]%Z [(3, 5)]%Z).
Proof.
  destruct (calc_slot_returns pca_z no_arctan2 (zero_id 0 0)
              [hit_a; hit_b; masked_hit]
              [hit_xyz 1 1 z_is_drift t0_zero hit_a;
               hit_xyz 1 1 z_is_drift t0_zero hit_b;
               hit_xyz 1 1 z_is_drift t0_zero masked_hit] t0_zero
              [true; true; false]) as [t Ht].
  exists t. unfold run.
  assert (Hf : find_tracks 1 1 z_is_drift one_cluster keep_all 1 3
                           [[hit_a; hit_b; masked_hit]] [t0_zero]
               = Ret (mkMasked [[0; 0; -1]%Z] [[false; false; true]]))
    by (vm_compute; reflexivity).
  rewrite Hf. cbn [bind].
  assert (Hc : calc_tracks 1 1 z_is_drift pca_z no_arctan2 zero_id
                           [[hit_a; hit_b; masked_hit]] [t0_zero]
                           (mkMasked [[0; 0; -1]%Z] [[false; false; true]])
               = Ret [[Some t]]).
  { unfold calc_tracks.
    change (n_tracks_of (mkMasked [[0; 0; -1]%Z] [[false; false; true]]))
      with 1%Z.
    change (Z.to_nat 1) with 1%nat.
    cbn -[calc_slot_opt hit_xyz slot_mask].
    unfold calc_slot_opt.
    change (slot_mask [0; 0; -1]%Z [false; false; true] 0)
      with [true; true; false].
    cbn [Np.count_nonzero Nat.ltb Nat.leb Nat.add].
    rewrite Ht. reflexivity. }
  rewrite Hc. cbn [bind].
  vm_compute. reflexivity.
Qed.

Lemma track_hit_refs_name_emitted_tracks_witness :
  exists t,
    run 1 1 z_is_drift pca_z no_arctan2 one_cluster keep_all 1 zero_id
        (reserve_from 5) 3 (3, 4)%Z [t0_zero] [[hit_a; hit_b]]
        [[10; 11]%Z]
    = Ret (mkEmitted [set_id t 5] [(5, 10); (5, 11)]%Z [(3, 5)]%Z) /\
    In (5, 11)%Z [(5, 10); (5, 11)]%Z /\
    In 5%Z (map t_id [set_id t 5]).
Proof.
  destruct one_track_run as [t Ht]. exists t.
  assert (Hp : In (5, 11)%Z [(5, 10); (5, 11)]%Z) by (right; left; reflexivity).
  split; [exact Ht|]. split; [exact Hp|].
  exact (track_hit_refs_name_emitted_tracks _ _ _ _ _ _ _ _ _ _ _ _ _ _ _
           (5, 11)%Z Ht Hp).
Defined.

Lemma event_track_refs_list_emitted_tracks_witness :
  exists t,
    run 1 1 z_is_drift pca_z no_arctan2 one_cluster keep_all 1 zero_id
        (reserve_from 5) 3 (3, 4)%Z [t0_zero] [[hit_a; hit_b]]
        [[10; 11]%Z]
    = Ret (mkEmitted [set_id t 5] [(5, 10); (5, 11)]%Z [(3, 5)]%Z) /\
    map snd [(3, 5)]%Z = map t_id [set_id t 5] /\
    (forall p, In p [(3, 5)]%Z -> (3 <= fst p < 4)%Z).
Proof.
  destruct one_track_run as [t Ht]. exists t.
  split; [exact Ht|].
  destruct (@event_track_refs_list_emitted_tracks
              1%R 1%R z_is_drift pca_z no_arctan2 one_cluster keep_all 1%Z
              zero_id (reserve_from 5) 3 (3, 4)%Z [t0_zero] [[hit_a; hit_b]]
              [[10; 11]%Z] _ eq_refl Ht) as [H1 [H2 _]].
  split; [exact H1|exact H2].
Defined.

(** * Properties of the raw event generator *)

Section RawEventFacts.

Import RawEventGenerator.

Lemma np_split_groups (buf : list packet) :
  forall pre k,
    np_split k (argwhere_from (k + length pre) (map is_ts buf)) (pre ++ buf)
    = groups pre buf.
Proof.
  induction buf as [|p buf IH]; intros pre k; simpl.
  - rewrite app_nil_r. reflexivity.
  - destruct (is_ts p) eqn:E.
    + simpl. replace (k + length pre - k) with (length pre) by lia.
      rewrite firstn_app, firstn_all, Nat.sub_diag. simpl.
      rewrite app_nil_r. f_equal.
      rewrite skipn_app, skipn_all, Nat.sub_diag. simpl.
      replace (S (k + length pre)) with ((k + length pre) + length [p])
        by (simpl; lia).
      apply (IH [p] (k + length pre)).
    + replace (S (k + length pre)) with (k + length (pre ++ [p]))
        by (rewrite length_app; simpl; lia).
      replace (pre ++ p :: buf) with ((pre ++ [p]) ++ buf)
        by (rewrite <- app_assoc; reflexivity).
      apply IH.
Qed.

Lemma groups_unix_ts (buf : list packet) :
  forall h q,
    concat
      (map (fun ts_grp =>
              match ts_grp with
              | [] => []
              | ts :: rest => repeat ts (length rest)
              end)
           (filter (fun ts_grp => (1 <? length ts_grp)%nat)
                   (groups (h :: q) buf)))
    = repeat h (length q) ++ carry_ts h buf.
Proof.
  induction buf as [|p buf IH]; intros h q; simpl.
  - destruct q as [|x q]; simpl; [reflexivity|].
    rewrite !app_nil_r. reflexivity.
  - destruct (is_ts p) eqn:E.
    + simpl. specialize (IH p []). simpl in IH.
      destruct q as [|x q]; simpl.
      * exact IH.
      * rewrite IH. reflexivity.
    + change (h :: q ++ [p]) with (h :: (q ++ [p])).
      rewrite IH, length_app. simpl.
      rewrite repeat_app. simpl. rewrite <- app_assoc. reflexivity.
Qed.

Lemma carry_ts_length (buf : list packet) :
  forall cur,
    length (carry_ts cur buf)
    = length (Np.select buf (map (fun p => negb (is_ts p)) buf)).
Proof.
  induction buf as [|p buf IH]; intros cur; simpl; [reflexivity|].
  destruct (is_ts p); simpl; rewrite IH; reflexivity.
Qed.

Lemma carry_ts_all_ts (buf : list packet) :
  forall cur, is_ts cur = true -> Forall (fun p => is_ts p = true) (carry_ts cur buf).
Proof.
  induction buf as [|p buf IH]; intros cur Hc; simpl; [constructor|].
  destruct (is_ts p) eqn:E.
  - apply IH. exact E.
  - constructor; [exact Hc|apply IH; exact Hc].
Qed.

End RawEventFacts.

Lemma unix_ts_of_carry (last_unix_ts : RawEventGenerator.packet)
      (buf : list RawEventGenerator.packet) :
  RawEventGenerator.is_ts last_unix_ts = true ->
  RawEventGenerator.unix_ts_of (last_unix_ts :: buf)
  = RawEventGenerator.carry_ts last_unix_ts buf.
Proof.
  intros Hts.
  unfold RawEventGenerator.unix_ts_of. cbn [map]. rewrite Hts.
  cbn [RawEventGenerator.argwhere_from RawEventGenerator.np_split].
  cbn [Nat.sub firstn skipn filter length Nat.ltb Nat.leb].
  pose proof (np_split_groups buf [last_unix_ts] 0) as Hg.
  cbn [length Nat.add app] in Hg. rewrite Hg.
  pose proof (groups_unix_ts buf last_unix_ts []) as Hu.
  cbn [length repeat app] in Hu. exact Hu.
Qed.

(** X12.  When the packet put in front of the buffer is a timestamp packet,
    the unix timestamps worked out by [next] are aligned with the packets
    kept: there is one per packet that is not a timestamp packet, each is a
    timestamp packet, and it is the latest timestamp packet that precedes
    its packet in the buffer. *)
Theorem unix_ts_follow_latest_timestamp
        (last_unix_ts : RawEventGenerator.packet)
        (buf : list RawEventGenerator.packet) :
  RawEventGenerator.is_ts last_unix_ts = true ->
  RawEventGenerator.unix_ts_of (last_unix_ts :: buf)
  = RawEventGenerator.carry_ts last_unix_ts buf /\
  length (RawEventGenerator.unix_ts_of (last_unix_ts :: buf))
  = length (Np.select (last_unix_ts :: buf)
                      (map (fun p => negb (RawEventGenerator.is_ts p))
                           (last_unix_ts :: buf))) /\
  Forall (fun p => RawEventGenerator.is_ts p = true)
         (RawEventGenerator.unix_ts_of (last_unix_ts :: buf)).
Proof.
  intros Hts.
  pose proof (@unix_ts_of_carry last_unix_ts buf Hts) as Heq.
  split; [exact Heq|]. rewrite Heq. split.
  - cbn [map Np.select]. rewrite Hts. cbn [negb].
    apply carry_ts_length.
  - apply carry_ts_all_ts. exact Hts.
Qed.

Lemma unix_ts_follow_latest_timestamp_witness :
  RawEventGenerator.is_ts RawInputs.ts1 = true /\
  RawEventGenerator.unix_ts_of
    [RawInputs.ts1; RawInputs.d1; RawInputs.d2; RawInputs.ts2; RawInputs.d3]
  = [RawInputs.ts1; RawInputs.ts1; RawInputs.ts2].
Proof.
  assert (H : RawEventGenerator.is_ts RawInputs.ts1 = true) by reflexivity.
  split; [exact H|].
  exact (proj1 (@unix_ts_follow_latest_timestamp RawInputs.ts1
                  [RawInputs.d1; RawInputs.d2; RawInputs.ts2; RawInputs.d3] H)).
Defined.

(** *** The references from events to packets *)

Lemma event_refs_chunks (lengths : list nat) :
  forall (arr : list Z),
    RawEventGenerator.event_refs arr lengths
    = RawEventGenerator.chunks lengths arr.
Proof.
  unfold RawEventGenerator.event_refs, RawEventGenerator.py_slice.
  induction lengths as [|n lengths IH]; intros arr; [reflexivity|].
  cbn [length seq map RawEventGenerator.chunks].
  f_equal.
  - simpl. rewrite Nat.add_0_r, Nat.sub_0_r. reflexivity.
  - rewrite <- IH. rewrite <- seq_shift, map_map.
    apply map_ext. intros i.
    change (firstn (S (S i)) (n :: lengths))
      with (n :: firstn (S i) lengths).
    change (firstn (S i) (n :: lengths)) with (n :: firstn i lengths).
    assert (Hc : forall l, list_sum (n :: l) = n + list_sum l)
      by reflexivity.
    rewrite !Hc. rewrite skipn_skipn.
    replace (n + list_sum (firstn (S i) lengths)
             - (n + list_sum (firstn i lengths)))
      with (list_sum (firstn (S i) lengths) - list_sum (firstn i lengths))
      by lia.
    replace (n + list_sum (firstn i lengths))
      with (list_sum (firstn i lengths) + n) by lia.
    reflexivity.
Qed.

Lemma chunks_concat {A : Type} (lengths : list nat) :
  forall (arr : list A),
    length arr = list_sum lengths ->
    concat (RawEventGenerator.chunks lengths arr) = arr /\
    map (@length A) (RawEventGenerator.chunks lengths arr) = lengths.
Proof.
  induction lengths as [|n lengths IH]; intros arr Hl; simpl in *.
  - destruct arr; [auto|discriminate].
  - destruct (IH (skipn n arr)) as [H1 H2].
    { rewrite length_skipn. lia. }
    rewrite H1, H2, firstn_skipn, length_firstn.
    split; [reflexivity|]. f_equal. lia.
Qed.

(** X13.  The references built from the packet indices and the event
    lengths cut the indices into consecutive pieces, one per event and as
    long as its event: put end to end they give back the indices. *)
Theorem event_refs_partition (packets_idcs : list Z)
        (event_lengths : list nat) :
  length packets_idcs = list_sum event_lengths ->
  concat (RawEventGenerator.event_refs packets_idcs event_lengths)
  = packets_idcs /\
  map (@length Z) (RawEventGenerator.event_refs packets_idcs event_lengths)
  = event_lengths.
Proof.
  intros Hl. rewrite event_refs_chunks. apply chunks_concat. exact Hl.
Qed.

Lemma event_refs_partition_witness :
  length [7; 8; 9; 10; 11]%Z = list_sum [2; 0; 3] /\
  RawEventGenerator.event_refs [7; 8; 9; 10; 11]%Z [2; 0; 3]
  = [[7; 8]; []; [9; 10; 11]]%Z /\
  concat (RawEventGenerator.event_refs [7; 8; 9; 10; 11]%Z [2; 0; 3])
  = [7; 8; 9; 10; 11]%Z.
Proof.
  assert (H : length [7; 8; 9; 10; 11]%Z = list_sum [2; 0; 3]) by reflexivity.
  split; [exact H|]. split; [reflexivity|].
  exact (proj1 (@event_refs_partition [7; 8; 9; 10; 11]%Z [2; 0; 3] H)).
Defined.

(** *** The slices of the processes *)

Lemma init_slices_positive (start_position end_position : option Z)
      (n_packets buffer_size rank size : Z) :
  (0 < buffer_size)%Z -> (0 < size)%Z ->
  RawEventGenerator.init_slices start_position end_position n_packets
                                buffer_size rank size
  = RawEventGenerator.Ok
      (map (fun k =>
              let st := (match start_position with None => 0 | Some s => s end
                         + rank * buffer_size
                         + Z.of_nat k * (size * buffer_size))%Z in
              (st, (st + buffer_size)%Z))
           (seq 0 (Z.to_nat
                     ((match end_position with
                       | None => n_packets
                       | Some e => Z.min e n_packets
                       end
                       - (match start_position with None => 0 | Some s => s end
                          + rank * buffer_size)
                       + size * buffer_size - 1) / (size * buffer_size))))).
Proof.
  intros Hb Hs. unfold RawEventGenerator.init_slices, RawEventGenerator.py_range.
  assert (Hstep : (0 < size * buffer_size)%Z) by lia.
  destruct (size * buffer_size =? 0)%Z eqn:E0; [apply Z.eqb_eq in E0; lia|].
  destruct (0 <? size * buffer_size)%Z eqn:E1; [|apply Z.ltb_ge in E1; lia].
  cbn [RawEventGenerator.rbind]. rewrite map_map.
  replace (match end_position with
           | Some e => if (n_packets <? e)%Z then n_packets else e
           | None => n_packets
           end)
    with (match end_position with
          | None => n_packets
          | Some e => Z.min e n_packets
          end).
  - reflexivity.
  - destruct end_position as [e|]; [|reflexivity].
    destruct (n_packets <? e)%Z eqn:E; [apply Z.ltb_lt in E|apply Z.ltb_ge in E];
      lia.
Qed.

(** X14.  With a positive buffer size and a positive number of processes,
    every packet position between the start and the end position lies in a
    slice of some process. *)
Theorem slices_cover (start_position end_position : option Z)
        (n_packets buffer_size size p : Z) :
  (0 < buffer_size)%Z -> (0 < size)%Z ->
  (match start_position with None => 0 | Some s => s end <= p)%Z ->
  (p < match end_position with
       | None => n_packets
       | Some e => Z.min e n_packets
       end)%Z ->
  exists rank slices sl,
    (0 <= rank < size)%Z /\
    RawEventGenerator.init_slices start_position end_position n_packets
                                  buffer_size rank size
    = RawEventGenerator.Ok slices /\
    In sl slices /\ (fst sl <= p < snd sl)%Z.
Proof.
  intros Hb Hs Hlo Hhi.
  set (start := match start_position with None => 0%Z | Some s => s end) in *.
  set (end_ := match end_position with
               | None => n_packets
               | Some e => Z.min e n_packets
               end) in *.
  set (q := ((p - start) / buffer_size)%Z).
  assert (Hq0 : (0 <= q)%Z) by (apply Z.div_pos; lia).
  assert (Hq1 : (buffer_size * q <= p - start)%Z)
    by (apply Z.mul_div_le; lia).
  assert (Hq2 : (p - start < buffer_size * Z.succ q)%Z)
    by (apply Z.mul_succ_div_gt; lia).
  pose proof (Z.div_mod q size ltac:(lia)) as Hdm.
  pose proof (Z.mod_pos_bound q size Hs) as Hr.
  assert (Hk0 : (0 <= q / size)%Z) by (apply Z.div_pos; lia).
  exists (q mod size)%Z. eexists.
  exists ((start + q * buffer_size)%Z, (start + q * buffer_size + buffer_size)%Z).
  split; [exact Hr|]. split; [apply init_slices_positive; assumption|].
  split.
  - apply in_map_iff. exists (Z.to_nat (q / size)). split.
    + cbv zeta. fold start. rewrite Z2Nat.id by exact Hk0.
      f_equal; nia.
    + apply in_seq. split; [lia|]. cbn [Nat.add]. fold start end_.
      apply Z2Nat.inj_lt; [exact Hk0| |].
      * apply Z.div_pos; nia.
      * apply Z.lt_le_trans with (q / size + 1)%Z; [lia|].
        apply Z.div_le_lower_bound; nia.
  - cbn [fst snd]. nia.
Qed.

(** X15.  Two slices that contain the same packet position are the same
    slice of the same process: the slices of the processes do not overlap. *)
Theorem slices_disjoint (start_position end_position : option Z)
        (n_packets buffer_size size rank rank' p : Z)
        (slices slices' : list (Z * Z)) (sl sl' : Z * Z) :
  (0 < buffer_size)%Z -> (0 < size)%Z ->
  (0 <= rank < size)%Z -> (0 <= rank' < size)%Z ->
  RawEventGenerator.init_slices start_position end_position n_packets
                                buffer_size rank size
  = RawEventGenerator.Ok slices ->
  RawEventGenerator.init_slices start_position end_position n_packets
                                buffer_size rank' size
  = RawEventGenerator.Ok slices' ->
  In sl slices -> In sl' slices' ->
  (fst sl <= p < snd sl)%Z -> (fst sl' <= p < snd sl')%Z ->
  rank = rank' /\ sl = sl'.
Proof.
  intros Hb Hs Hr Hr' H H' Hin Hin' Hp Hp'.
  rewrite init_slices_positive in H, H' by assumption.
  injection H as <-. injection H' as <-.
  apply in_map_iff in Hin, Hin'.
  destruct Hin as [k [<- _]], Hin' as [k' [<- _]].
  cbv zeta in *. cbn [fst snd] in *.
  set (start := match start_position with None => 0%Z | Some s => s end) in *.
  pose proof (Nat2Z.is_nonneg k) as Hk. pose proof (Nat2Z.is_nonneg k') as Hk'.
  assert (Hq : (rank + Z.of_nat k * size = rank' + Z.of_nat k' * size)%Z)
    by nia.
  assert (Hkk : Z.of_nat k = Z.of_nat k') by nia.
  assert (Hrr : rank = rank') by nia.
  split; [exact Hrr|]. rewrite Hkk, Hrr. reflexivity.
Qed.

Lemma slices_cover_witness :
  (0 < 10)%Z /\ (0 < 3)%Z /\ (0 <= 57)%Z /\ (57 < 100)%Z /\
  exists rank slices sl,
    (0 <= rank < 3)%Z /\
    RawEventGenerator.init_slices None None 100 10 rank 3
    = RawEventGenerator.Ok slices /\
    In sl slices /\ (fst sl <= 57 < snd sl)%Z.
Proof.
  assert (H1 : (0 < 10)%Z) by lia. assert (H2 : (0 < 3)%Z) by lia.
  assert (H3 : (0 <= 57)%Z) by lia. assert (H4 : (57 < 100)%Z) by lia.
  split; [exact H1|]. split; [exact H2|]. split; [exact H3|].
  split; [exact H4|].
  exact (@slices_cover None None 100 10 3 57 H1 H2 H3 H4).
Defined.

Lemma slices_disjoint_witness :
  RawEventGenerator.init_slices None None 100 10 2 3
  = RawEventGenerator.Ok [(20, 30); (50, 60); (80, 90)]%Z /\
  (2 = 2)%Z /\ (50, 60)%Z = (50, 60)%Z.
Proof.
  assert (H : RawEventGenerator.init_slices None None 100 10 2 3
              = RawEventGenerator.Ok [(20, 30); (50, 60); (80, 90)]%Z)
    by (vm_compute; reflexivity).
  split; [exact H|].
  apply (@slices_disjoint None None 100 10 3 2 2 57
           [(20, 30); (50, 60); (80, 90)]%Z [(20, 30); (50, 60); (80, 90)]%Z
           (50, 60)%Z (50, 60)%Z);
    try exact H; try lia; try (right; left; reflexivity); simpl; lia.
Defined.

(** *** What a call of [next] writes *)

Lemma rbind_Ok {A B : Type} (m : RawEventGenerator.result A)
      (k : A -> RawEventGenerator.result B) (b : B) :
  RawEventGenerator.rbind m k = RawEventGenerator.Ok b ->
  exists a, m = RawEventGenerator.Ok a /\ k a = RawEventGenerator.Ok b.
Proof. destruct m; simpl; intros H; [eauto|discriminate]. Qed.

Lemma rmapM_length {A B : Type} (f : A -> RawEventGenerator.result B)
      (l : list A) :
  forall r, RawEventGenerator.rmapM f l = RawEventGenerator.Ok r ->
            length r = length l.
Proof.
  induction l as [|a l IH]; intros r H; simpl in H.
  - inversion H. reflexivity.
  - apply rbind_Ok in H. destruct H as [b [_ H]].
    apply rbind_Ok in H. destruct H as [bs [Hbs H]].
    inversion H. simpl. f_equal. apply IH. exact Hbs.
Qed.

Lemma select_map_filter {A : Type} (f : A -> bool) (xs : list A) :
  Np.select xs (map f xs) = filter f xs.
Proof.
  induction xs as [|x xs IH]; simpl; [reflexivity|].
  destruct (f x); rewrite IH; reflexivity.
Qed.

Lemma select_length {A : Type} (xs : list A) :
  forall m, length xs = length m ->
            length (Np.select xs m) = Np.count_nonzero m.
Proof.
  induction xs as [|x xs IH]; intros [|b m] H; simpl in *; try lia.
  destruct b; simpl; rewrite IH by lia; reflexivity.
Qed.

Lemma sync_noise_filter_pair (lo hi : Z) (l : list Z)
      (packet_buffer unix_ts : list RawEventGenerator.packet) :
  length unix_ts = length packet_buffer ->
  exists unix_ts',
    RawEventGenerator.sync_noise_filter
      (RawEventGenerator.PySeq (lo :: hi :: l)) true packet_buffer unix_ts
    = RawEventGenerator.Ok
        (filter (fun p => (lo <? RawEventGenerator.timestamp p)%Z
                          && (RawEventGenerator.timestamp p <? hi)%Z)
                packet_buffer, unix_ts') /\
    length unix_ts'
    = length (filter (fun p => (lo <? RawEventGenerator.timestamp p)%Z
                               && (RawEventGenerator.timestamp p <? hi)%Z)
                     packet_buffer).
Proof.
  intros Hl.
  unfold RawEventGenerator.sync_noise_filter, RawEventGenerator.getitem,
    RawEventGenerator.bool_index.
  cbn [nth_error RawEventGenerator.rbind]. rewrite length_map.
  rewrite Hl, Nat.eqb_refl. cbn [RawEventGenerator.rbind].
  rewrite select_map_filter. eexists. split; [reflexivity|].
  rewrite select_length by (rewrite length_map; exact Hl).
  rewrite <- select_map_filter.
  rewrite select_length by (rewrite length_map; reflexivity).
  reflexivity.
Qed.

(** X16.  The noise cut, when enabled: with an integer for
    [sync_noise_cut] (the class default is the integer 100000) it raises a
    type error; with a sequence of fewer than two bounds, or with unix
    timestamps that are not as many as the packets, an index error;
    otherwise it keeps exactly the packets whose timestamp lies strictly
    between the two bounds, and as many unix timestamps. *)
Theorem sync_noise_cut_outcome (sync_noise_cut : RawEventGenerator.py_value)
        (packet_buffer unix_ts : list RawEventGenerator.packet) :
  match sync_noise_cut with
  | RawEventGenerator.PyInt _ =>
      RawEventGenerator.sync_noise_filter sync_noise_cut true
                                          packet_buffer unix_ts
      = RawEventGenerator.Err RawEventGenerator.PyTypeError
  | RawEventGenerator.PySeq [] | RawEventGenerator.PySeq [_] =>
      RawEventGenerator.sync_noise_filter sync_noise_cut true
                                          packet_buffer unix_ts
      = RawEventGenerator.Err RawEventGenerator.PyIndexError
  | RawEventGenerator.PySeq (lo :: hi :: _) =>
      (length unix_ts <> length packet_buffer ->
       RawEventGenerator.sync_noise_filter sync_noise_cut true
                                           packet_buffer unix_ts
       = RawEventGenerator.Err RawEventGenerator.PyIndexError) /\
      (length unix_ts = length packet_buffer ->
       exists unix_ts',
         RawEventGenerator.sync_noise_filter sync_noise_cut true
                                             packet_buffer unix_ts
         = RawEventGenerator.Ok
             (filter (fun p => (lo <? RawEventGenerator.timestamp p)%Z
                               && (RawEventGenerator.timestamp p <? hi)%Z)
                     packet_buffer, unix_ts') /\
         length unix_ts'
         = length (filter (fun p => (lo <? RawEventGenerator.timestamp p)%Z
                                    && (RawEventGenerator.timestamp p <? hi)%Z)
                          packet_buffer))
  end.
Proof.
  destruct sync_noise_cut as [z|[|lo [|hi l]]]; try reflexivity.
  split; intros Hl.
  - unfold RawEventGenerator.sync_noise_filter, RawEventGenerator.getitem,
      RawEventGenerator.bool_index.
    cbn [nth_error RawEventGenerator.rbind]. rewrite length_map.
    apply Nat.eqb_neq in Hl. rewrite Hl. reflexivity.
  - apply sync_noise_filter_pair. exact Hl.
Qed.

Lemma sync_noise_cut_outcome_witness :
  length [RawInputs.ts1; RawInputs.ts1; RawInputs.ts2]
  = length [RawInputs.d1; RawInputs.d2; RawInputs.d3] /\
  exists unix_ts',
    RawEventGenerator.sync_noise_filter
      (RawEventGenerator.PySeq [15; 1000]%Z) true
      [RawInputs.d1; RawInputs.d2; RawInputs.d3]
      [RawInputs.ts1; RawInputs.ts1; RawInputs.ts2]
    = RawEventGenerator.Ok ([RawInputs.d2; RawInputs.d3], unix_ts') /\
    length unix_ts' = 2.
Proof.
  assert (H : length [RawInputs.ts1; RawInputs.ts1; RawInputs.ts2]
              = length [RawInputs.d1; RawInputs.d2; RawInputs.d3])
    by reflexivity.
  split; [exact H|].
  exact (proj2 (@sync_noise_cut_outcome
                  (RawEventGenerator.PySeq [15; 1000]%Z)
                  [RawInputs.d1; RawInputs.d2; RawInputs.d3]
                  [RawInputs.ts1; RawInputs.ts1; RawInputs.ts2]) H).
Defined.

(** X17.  Whenever [next] returns, every event it references has at least
    [nhit_cut] packets, there is one reference list per raw event, the
    reference lists put end to end are the indices reserved for the packets
    written, and the raw events carry the indices reserved for them. *)
Theorem next_block_written (nhit_cut : Z)
        (sync_noise_cut : RawEventGenerator.py_value)
        (sync_noise_cut_enabled : bool)
        (build_events : list RawEventGenerator.packet ->
                        list RawEventGenerator.packet ->
                        list (list RawEventGenerator.packet)
                        * list (list RawEventGenerator.packet))
        (last_unix_ts : RawEventGenerator.packet)
        (block : list RawEventGenerator.packet)
        (raw_event_start packets_start : Z) (w : RawEventGenerator.written) :
  RawEventGenerator.next_block nhit_cut sync_noise_cut sync_noise_cut_enabled
                               build_events last_unix_ts block
                               raw_event_start packets_start
  = RawEventGenerator.Ok w ->
  Forall (fun r => (nhit_cut <= Z.of_nat (length r))%Z)
         (RawEventGenerator.ref w) /\
  length (RawEventGenerator.ref w)
  = length (RawEventGenerator.raw_event_array w) /\
  concat (RawEventGenerator.ref w)
  = map as_u4
        (arange packets_start
                (packets_start
                 + Z.of_nat (length (RawEventGenerator.packets_array w)))) /\
  map fst (RawEventGenerator.raw_event_array w)
  = map as_u4
        (arange raw_event_start
                (raw_event_start
                 + Z.of_nat (length (RawEventGenerator.raw_event_array w)))).
Proof.
  unfold RawEventGenerator.next_block. intros H.
  destruct (RawEventGenerator.split_buffer last_unix_ts block) as [pb0 uts0].
  apply rbind_Ok in H. destruct H as [[pb uts] [_ H]]. cbn [fst snd] in H.
  destruct (build_events pb uts) as [events event_unix_ts].
  set (flt := filter _ (combine events event_unix_ts)) in H.
  apply rbind_Ok in H. destruct H as [ts [Hts H]].
  injection H as <-. cbn [RawEventGenerator.ref RawEventGenerator.raw_event_array
                            RawEventGenerator.packets_array].
  apply rmapM_length in Hts. rewrite length_map in Hts.
  rewrite event_refs_chunks.
  destruct (@chunks_concat Z
              (map (@length _) (map fst flt))
              (map as_u4
                   (arange packets_start
                           (packets_start
                            + Z.of_nat (length (concat (map fst flt)))))))
    as [Hc Hl].
  { rewrite length_map, arange_length, length_concat. reflexivity. }
  assert (Hn : length (combine
                         (map as_u4
                              (arange raw_event_start
                                      (raw_event_start
                                       + Z.of_nat (length (map fst flt)))))
                         (map RawEventGenerator.as_u8 ts))
               = length flt).
  { rewrite length_combine, !length_map, arange_length. lia. }
  split; [|split; [|split]].
  - apply Forall_forall. intros r Hr.
    apply (in_map (@length Z)) in Hr. rewrite Hl in Hr.
    rewrite map_map in Hr. apply in_map_iff in Hr.
    destruct Hr as [x [<- Hx]]. unfold flt in Hx. apply filter_In in Hx.
    destruct Hx as [_ Hx]. apply Z.leb_le in Hx. exact Hx.
  - rewrite Hn.
    pose proof (f_equal (@length nat) Hl) as Hl'.
    rewrite !length_map in Hl'. exact Hl'.
  - exact Hc.
  - rewrite Hn. rewrite length_map.
    set (ids := map as_u4 _). assert (Hi : length ids = length flt).
    { unfold ids. rewrite length_map, arange_length. reflexivity. }
    assert (Ht : length (map RawEventGenerator.as_u8 ts) = length flt)
      by (rewrite length_map; exact Hts).
    revert Hi Ht. generalize (map RawEventGenerator.as_u8 ts). generalize ids.
    generalize (length flt). clear.
    intros n l1. revert n. induction l1 as [|a l1 IH]; intros n l2 H1 H2.
    + reflexivity.
    + destruct l2 as [|b l2]; [simpl in *; lia|].
      simpl in *. f_equal. apply (IH (length l1)); lia.
Qed.

Lemma next_block_written_witness :
  RawEventGenerator.next_block
    1 (RawEventGenerator.PySeq [0; 1000]%Z) true RawInputs.two_events
    RawInputs.ts1 RawInputs.block1 7 40
  = RawEventGenerator.Ok
      (RawEventGenerator.mkWritten
         [(7, 100); (8, 101)]%Z
         [RawInputs.d1; RawInputs.d2; RawInputs.d3]
         [[40; 41]; [42]]%Z RawInputs.ts2) /\
  concat [[40; 41]; [42]]%Z = map as_u4 (arange 40 (40 + 3)).
Proof.
  assert (H : RawEventGenerator.next_block
                1 (RawEventGenerator.PySeq [0; 1000]%Z) true
                RawInputs.two_events RawInputs.ts1 RawInputs.block1 7 40
              = RawEventGenerator.Ok
                  (RawEventGenerator.mkWritten
                     [(7, 100); (8, 101)]%Z
                     [RawInputs.d1; RawInputs.d2; RawInputs.d3]
                     [[40; 41]; [42]]%Z RawInputs.ts2))
    by (vm_compute; reflexivity).
  split; [exact H|].
  exact (proj1 (proj2 (proj2 (next_block_written _ _ _ _ _ _ _ _ H)))).
Defined.

(** X18.  What the event builder receives.  When the packet put in front of
    the block is a timestamp packet and the noise cut is off or has its two
    bounds, the cut returns, and it hands on as many unix timestamps as
    packets; none of these packets is a timestamp packet, each survives the
    mask of [next], and its timestamp is below 2^31. *)
Theorem builder_input_aligned (sync_noise_cut : RawEventGenerator.py_value)
        (sync_noise_cut_enabled : bool)
        (last_unix_ts : RawEventGenerator.packet)
        (block : list RawEventGenerator.packet) :
  RawEventGenerator.is_ts last_unix_ts = true ->
  (sync_noise_cut_enabled = false \/
   exists lo hi l, sync_noise_cut = RawEventGenerator.PySeq (lo :: hi :: l)) ->
  exists packet_buffer unix_ts,
    RawEventGenerator.sync_noise_filter
      sync_noise_cut sync_noise_cut_enabled
      (fst (RawEventGenerator.split_buffer last_unix_ts block))
      (snd (RawEventGenerator.split_buffer last_unix_ts block))
    = RawEventGenerator.Ok (packet_buffer, unix_ts) /\
    length packet_buffer = length unix_ts /\
    Forall (fun p => RawEventGenerator.is_ts p = false /\
                     RawEventGenerator.kept p = true /\
                     (0 <= RawEventGenerator.timestamp p < 2147483648)%Z)
           packet_buffer.
Proof.
  intros Hts Hcut.
  unfold RawEventGenerator.split_buffer. cbn [fst snd].
  set (buf := filter RawEventGenerator.kept block).
  pose proof (@unix_ts_of_carry last_unix_ts buf Hts) as Hcarry.
  assert (Hlen : length (RawEventGenerator.unix_ts_of (last_unix_ts :: buf))
                 = length (Np.select (last_unix_ts :: buf)
                             (map (fun p => negb (RawEventGenerator.is_ts p))
                                  (last_unix_ts :: buf)))).
  { rewrite Hcarry. cbn [map Np.select]. rewrite Hts. cbn [negb].
    apply carry_ts_length. }
  clear Hcarry.
  set (pb := map RawEventGenerator.drop_bit_32 _) in *.
  assert (Hpb : Forall (fun p => RawEventGenerator.is_ts p = false /\
                                 RawEventGenerator.kept p = true /\
                                 (0 <= RawEventGenerator.timestamp p
                                  < 2147483648)%Z) pb).
  { unfold pb. apply Forall_forall. intros p Hp. apply in_map_iff in Hp.
    destruct Hp as [x [<- Hx]]. rewrite select_map_filter in Hx.
    apply filter_In in Hx. destruct Hx as [Hx Hn].
    apply negb_true_iff in Hn.
    assert (Hk : RawEventGenerator.kept x = true).
    { destruct Hx as [<-|Hx].
      - congruence.
      - unfold buf in Hx. apply filter_In in Hx. tauto. }
    unfold RawEventGenerator.drop_bit_32, RawEventGenerator.set_timestamp,
      RawEventGenerator.is_ts, RawEventGenerator.kept in *.
    cbn [RawEventGenerator.packet_type RawEventGenerator.valid_parity
         RawEventGenerator.timestamp].
    split; [exact Hn|]. split; [exact Hk|].
    apply Z.mod_pos_bound. lia. }
  assert (Hl : length (RawEventGenerator.unix_ts_of (last_unix_ts :: buf))
               = length pb).
  { unfold pb. rewrite length_map. exact Hlen. }
  destruct Hcut as [->|[lo [hi [l ->]]]].
  - exists pb, (RawEventGenerator.unix_ts_of (last_unix_ts :: buf)).
    split; [reflexivity|]. split; [symmetry; exact Hl|exact Hpb].
  - destruct sync_noise_cut_enabled.
    + pose proof (@sync_noise_filter_pair lo hi l pb
                    (RawEventGenerator.unix_ts_of (last_unix_ts :: buf)) Hl)
        as [uts' [Hf Hlu]].
      eexists. exists uts'. split; [exact Hf|]. split; [symmetry; exact Hlu|].
      apply Forall_forall. intros p Hp. apply filter_In in Hp.
      rewrite Forall_forall in Hpb. apply Hpb. tauto.
    + exists pb, (RawEventGenerator.unix_ts_of (last_unix_ts :: buf)).
      split; [reflexivity|]. split; [symmetry; exact Hl|exact Hpb].
Qed.

Lemma builder_input_aligned_witness :
  RawEventGenerator.is_ts RawInputs.ts1 = true /\
  exists packet_buffer unix_ts,
    RawEventGenerator.sync_noise_filter
      (RawEventGenerator.PySeq [0; 1000]%Z) true
      (fst (RawEventGenerator.split_buffer RawInputs.ts1 RawInputs.block1))
      (snd (RawEventGenerator.split_buffer RawInputs.ts1 RawInputs.block1))
    = RawEventGenerator.Ok (packet_buffer, unix_ts) /\
    length packet_buffer = length unix_ts.
Proof.
  assert (H : RawEventGenerator.is_ts RawInputs.ts1 = true) by reflexivity.
  split; [exact H|].
  destruct (@builder_input_aligned (RawEventGenerator.PySeq [0; 1000]%Z) true
              RawInputs.ts1 RawInputs.block1 H
              (or_intror (ex_intro _ 0%Z (ex_intro _ 1000%Z
                                            (ex_intro _ [] eq_refl)))))
    as [pb [uts [H1 [H2 _]]]].
  exists pb, uts. split; assumption.
Defined.

(** * The cluster finder followed by the geometry calculator *)

Lemma select_In {A : Type} (xs : list A) :
  forall m x, In x (Np.select xs m) -> In x xs.
Proof.
  induction xs as [|a xs IH]; intros [|b m] x H; simpl in *; try contradiction.
  destruct b; simpl in H.
  - destruct H as [H|H]; [left; exact H|right; eapply IH; exact H].
  - right. eapply IH. exact H.
Qed.

Lemma unmasked_In (a : masked_ids) (l : Z) :
  In l (unmasked a) -> exists row, In row (ma_data a) /\ In l row.
Proof.
  unfold unmasked. intros H. apply in_concat in H.
  destruct H as [sel [Hsel Hl]]. apply in_map_iff in Hsel.
  destruct Hsel as [[d m] [<- Hdm]]. cbn [fst snd] in Hl.
  exists d. split; [eapply in_combine_l; exact Hdm|].
  eapply select_In. exact Hl.
Qed.

Lemma find_tracks_rows_range {point : Type}
      (dbscan_fit : list point -> option (list Z))
      (ransac : nat -> list point -> option (list bool))
      (ransac_min_samples : Z) (fuel : nat)
      (rows : list (list point * list bool)) (n : nat)
      (out : list (list Z)) :
  find_tracks_rows dbscan_fit ransac ransac_min_samples fuel rows n = Ret out ->
  forall row l, In row out -> In l row -> (-1 <= l)%Z.
Proof.
  intros H row l Hrow Hl.
  pose proof (find_tracks_rows_events _ _ _ _ _ _ H) as HF.
  clear H. induction HF as [|r labels rows' out' [n' [st [Hev <-]]] _ IH].
  - destruct Hrow.
  - destruct Hrow as [<-|Hrow]; [|apply IH; exact Hrow].
    destruct (event_loop_inv _ _ _ _ _ _ _ Hev) as [Hinv _].
    destruct (In_nth _ _ (-1)%Z Hl) as [j [_ <-]].
    pose proof (inv_range Hinv j). lia.
Qed.

(** X19.  The geometry calculator accepts whatever the cluster finder
    returns: on the labels returned by [find_tracks] for a batch,
    [calc_tracks] returns a table and raises nothing. *)
Theorem calc_tracks_accepts_find_tracks
        (v_drift crs_ticks : R) (get_z_coordinate : Z -> Z -> R -> R)
        (pca_component : list vec3 -> vec3) (arctan2 : R -> R -> R)
        (dbscan_fit : list vec3 -> option (list Z))
        (ransac : nat -> list vec3 -> option (list bool))
        (ransac_min_samples : Z) (empty_id : nat -> nat -> Z) (fuel : nat)
        (hits : list (list hit)) (t0 : list t0_entry)
        (track_ids : masked_ids) :
  find_tracks v_drift crs_ticks get_z_coordinate dbscan_fit ransac
              ransac_min_samples fuel hits t0 = Ret track_ids ->
  exists tracks,
    calc_tracks v_drift crs_ticks get_z_coordinate pca_component arctan2
                empty_id hits t0 track_ids = Ret tracks.
Proof.
  unfold find_tracks. intros H.
  apply bind_Ret in H. destruct H as [rows [Hrows H]].
  injection H as <-.
  apply calc_tracks_returns. unfold n_tracks_of.
  destruct (count_unmasked _ =? 0); [lia|].
  unfold ma_max, Zlist_max, fold1.
  destruct (unmasked _) as [|x l] eqn:E; [lia|].
  assert (Hx : In x (unmasked (mkMasked rows (map (map hit_masked) hits))))
    by (rewrite E; left; reflexivity).
  destruct (unmasked_In _ _ Hx) as [row [Hrow Hin]].
  pose proof (find_tracks_rows_range _ _ _ _ _ _ Hrows row x Hrow Hin).
  pose proof (fold_left_Zmax_ge l x). lia.
Qed.

Lemma calc_tracks_accepts_find_tracks_witness :
  find_tracks 1 1 z_is_drift one_cluster keep_all 1 3
              [[hit_a; hit_b]] [t0_zero]
  = Ret (mkMasked [[0; 0]%Z] [[false; false]]) /\
  exists tracks,
    calc_tracks 1 1 z_is_drift pca_z no_arctan2 zero_id [[hit_a; hit_b]]
                [t0_zero] (mkMasked [[0; 0]%Z] [[false; false]]) = Ret tracks.
Proof.
  assert (Hf : find_tracks 1 1 z_is_drift one_cluster keep_all 1 3
                           [[hit_a; hit_b]] [t0_zero]
               = Ret (mkMasked [[0; 0]%Z] [[false; false]]))
    by (vm_compute; reflexivity).
  split; [exact Hf|].
  exact (calc_tracks_accepts_find_tracks _ _ _ pca_z no_arctan2 _ _ _ zero_id
           _ _ _ Hf).
Defined.

Lemma nth_mask_and (a : list bool) :
  forall b j, nth j (mask_and a b) false = nth j a false && nth j b false.
Proof.
  unfold mask_and.
  induction a as [|x a IH]; intros [|y b] [|j]; simpl; auto;
    try (rewrite andb_false_r; reflexivity).
Qed.

Lemma select_nth_In {A : Type} (xs : list A) (d : A) :
  forall m j, j < length xs -> nth j m false = true ->
              In (nth j xs d) (Np.select xs m).
Proof.
  induction xs as [|x xs IH]; intros [|b m] [|j] Hl Hm; simpl in *;
    try lia; try discriminate.
  - subst b. left. reflexivity.
  - destruct b; [right|]; apply IH; auto; lia.
Qed.

Lemma mapM_nth_error_l {A B : Type} (f : A -> outcome B) (l : list A) :
  forall r i a,
    mapM f l = Ret r -> nth_error l i = Some a ->
    exists b, nth_error r i = Some b /\ f a = Ret b.
Proof.
  induction l as [|x l IH]; intros r i a H Hi; simpl in H.
  - destruct i; discriminate.
  - apply bind_Ret in H. destruct H as [b0 [Hb0 H]].
    apply bind_Ret in H. destruct H as [bs [Hbs H]].
    inversion H; subst. destruct i as [|i]; simpl in *.
    + inversion Hi; subst. eauto.
    + eapply IH; eauto.
Qed.

Lemma nth_error_seq_intro (n i : nat) :
  i < n -> nth_error (seq 0 n) i = Some i.
Proof.
  intros H. rewrite nth_error_nth' with (d := 0) by (rewrite length_seq; lia).
  rewrite seq_nth by lia. reflexivity.
Qed.

(** The slot of a label carried by valid hits counts all the hits that
    carry it. *)
Lemma slot_mask_counts_label (labels : list Z) (msk : list bool) (k : Z) :
  (0 <= k)%Z ->
  (forall j, nth j (map negb msk) false = false ->
             nth j labels (-1)%Z = (-1)%Z) ->
  n_hits_with labels k
  <= Np.count_nonzero (slot_mask labels msk (Z.to_nat k)).
Proof.
  intros Hk Hm. unfold n_hits_with, slot_mask.
  rewrite Z2Nat.id by exact Hk.
  apply count_nonzero_mono. intros j Hj.
  rewrite nth_mask_and, Hj. cbn [andb].
  rewrite nth_eq_scalar in Hj by lia. apply Z.eqb_eq in Hj.
  destruct (nth j (map negb msk) false) eqn:E; [reflexivity|].
  specialize (Hm j E). lia.
Qed.

(** X20.  Every track accepted by the cluster finder gets its record: if a
    hit of event [i] carries the label [k >= 0] in what [find_tracks]
    returns, then slot [(i, k)] of the table that [calc_tracks] builds from
    these labels is valid and its hit count is at least 2. *)
Theorem accepted_track_has_slot
        (v_drift crs_ticks : R) (get_z_coordinate : Z -> Z -> R -> R)
        (pca_component : list vec3 -> vec3) (arctan2 : R -> R -> R)
        (dbscan_fit : list vec3 -> option (list Z))
        (ransac : nat -> list vec3 -> option (list bool))
        (ransac_min_samples : Z) (empty_id : nat -> nat -> Z) (fuel : nat)
        (hits : list (list hit)) (t0 : list t0_entry)
        (track_ids : masked_ids) (tracks : table)
        (i : nat) (labels : list Z) (k : Z) :
  length hits = length t0 ->
  find_tracks v_drift crs_ticks get_z_coordinate dbscan_fit ransac
              ransac_min_samples fuel hits t0 = Ret track_ids ->
  calc_tracks v_drift crs_ticks get_z_coordinate pca_component arctan2
              empty_id hits t0 track_ids = Ret tracks ->
  nth_error (ma_data track_ids) i = Some labels ->
  In k labels -> (0 <= k)%Z ->
  exists row t,
    nth_error tracks i = Some row /\
    nth_error row (Z.to_nat k) = Some (Some t) /\
    (2 <= t_nhit t)%Z.
Proof.
  intros Hlen Hf Hc Hrow Hin Hk.
  unfold find_tracks in Hf.
  apply bind_Ret in Hf. destruct Hf as [rows [Hrows Hf]].
  injection Hf as <-. cbn [ma_data] in Hrow.
  set (xyz := _hit_xyz v_drift crs_ticks get_z_coordinate hits t0) in *.
  set (masks := map (map hit_masked) hits) in *.
  pose proof (find_tracks_rows_events _ _ _ _ _ _ Hrows) as HF.
  destruct (Forall2_nth_error_r HF i Hrow)
    as [[x v] [Hxv [n' [st [Hev Hst]]]]].
  cbn [fst snd] in Hev.
  apply nth_error_combine in Hxv. destruct Hxv as [Hx Hv].
  rewrite nth_error_map in Hv.
  destruct (nth_error hits i) as [h|] eqn:Eh; [|discriminate].
  cbn [option_map] in Hv. injection Hv as Hv.
  set (msk := map hit_masked h).
  assert (Hmsk : nth_error masks i = Some msk).
  { unfold masks. rewrite nth_error_map, Eh. reflexivity. }
  assert (Hvm : v = map negb msk).
  { rewrite <- Hv. unfold msk. rewrite map_map. reflexivity. }
  assert (Hi : i < length t0).
  { rewrite <- Hlen. apply nth_error_Some. congruence. }
  destruct (nth_error t0 i) as [t0_i|] eqn:Et;
    [|apply nth_error_None in Et; lia].
  (* what the event loop guarantees *)
  destruct (event_loop_inv _ _ _ _ _ _ _ Hev) as [Hinv [_ Hcur]].
  pose proof (label_hits_kept _ _ _ _ _ _ _ Hev) as Htwo.
  rewrite Hst in Htwo.
  destruct (In_nth _ _ (-1)%Z Hin) as [j [Hjl Hj]].
  assert (Hkc : (0 <= k <= current_track_id st)%Z).
  { pose proof (inv_range Hinv j) as Hr. rewrite Hst, Hj in Hr. lia. }
  assert (Hmasked : forall j', nth j' (map negb msk) false = false ->
                               nth j' labels (-1)%Z = (-1)%Z).
  { intros j' Hj'. rewrite <- Hst. apply (inv_masked Hinv).
    rewrite Hvm. exact Hj'. }
  assert (Hcount : 2 <= Np.count_nonzero (slot_mask labels msk (Z.to_nat k))).
  { eapply Nat.le_trans; [apply Htwo; exact Hkc|].
    apply slot_mask_counts_label; assumption. }
  (* the label has its column *)
  assert (Hcol : (k < n_tracks_of (mkMasked rows masks))%Z).
  { apply label_below_n_tracks. unfold unmasked. cbn [ma_data ma_mask].
    apply in_concat. exists (Np.select labels (map negb msk)). split.
    - apply in_map_iff. exists (labels, msk). split; [reflexivity|].
      eapply nth_error_In. apply nth_error_combine_intro; eassumption.
    - rewrite <- Hj. apply select_nth_In; [exact Hjl|].
      destruct (nth j (map negb msk) false) eqn:E; [reflexivity|].
      specialize (Hmasked j E). lia. }
  (* the row and the slot *)
  unfold calc_tracks in Hc.
  destruct (n_tracks_of (mkMasked rows masks) <? 0)%Z; [discriminate|].
  assert (Hin_row :
            nth_error (combine (seq 0 (length t0))
                               (batch_rows v_drift crs_ticks get_z_coordinate
                                           hits t0 (mkMasked rows masks))) i
            = Some (i, (h, x, t0_i, labels, msk))).
  { apply nth_error_combine_intro; [apply nth_error_seq_intro; exact Hi|].
    unfold batch_rows. cbn [ma_data ma_mask].
    repeat apply nth_error_combine_intro; assumption. }
  destruct (mapM_nth_error_l _ _ _ Hc Hin_row) as [row [Hr Hcalc]].
  unfold calc_row in Hcalc.
  assert (Hkn : Z.to_nat k
                < Z.to_nat (n_tracks_of (mkMasked rows masks))) by lia.
  destruct (mapM_nth_error_l _ _ _ Hcalc (nth_error_seq_intro Hkn))
    as [s [Hs Hslot]].
  destruct (calc_slot_opt_spec _ _ _ _ _ _ _ _ _ Hslot) as [Hnone Hsome].
  destruct s as [t|].
  - exists row, t. split; [exact Hr|]. split; [exact Hs|].
    rewrite (Hsome t eq_refl). lia.
  - assert (Hlt : Np.count_nonzero (slot_mask labels msk (Z.to_nat k)) < 2)
      by (apply Hnone; reflexivity).
    lia.
Qed.

Lemma accepted_track_has_slot_witness :
  exists t,
    find_tracks 1 1 z_is_drift one_cluster keep_all 1 3
                [[hit_a; hit_b]] [t0_zero]
    = Ret (mkMasked [[0; 0]%Z] [[false; false]]) /\
    calc_tracks 1 1 z_is_drift pca_z no_arctan2 zero_id [[hit_a; hit_b]]
                [t0_zero] (mkMasked [[0; 0]%Z] [[false; false]])
    = Ret [[Some t]] /\
    exists row t',
      nth_error [[Some t]] 0 = Some row /\
      nth_error row (Z.to_nat 0) = Some (Some t') /\
      (2 <= t_nhit t')%Z.
Proof.
  destruct two_hit_table as [t Ht]. exists t.
  assert (Hf : find_tracks 1 1 z_is_drift one_cluster keep_all 1 3
                           [[hit_a; hit_b]] [t0_zero]
               = Ret (mkMasked [[0; 0]%Z] [[false; false]]))
    by (vm_compute; reflexivity).
  split; [exact Hf|]. split; [exact Ht|].
  exact (@accepted_track_has_slot
           1%R 1%R z_is_drift pca_z no_arctan2 one_cluster keep_all 1%Z
           zero_id 3 [[hit_a; hit_b]] [t0_zero]
           (mkMasked [[0; 0]%Z] [[false; false]]) [[Some t]]
           0 [0; 0]%Z 0%Z eq_refl Hf Ht eq_refl (or_introl eq_refl)
           (Z.le_refl 0)).
Defined.
